(** * ATS resume matching engine: a shallow embedding and its properties

    The development follows the JavaScript sources of the matching and
    scoring engine:

    - [backend/src/utils/nlp.utils.js]        (module [Nlp])
    - the spell-checking utilities            (module [Spellcheck])
    - [backend/src/utils/section.detector.js] (module [SectionDetector])
    - the ATS engine service                  (module [AtsEngine])

    Modelling conventions.

    - A JavaScript string is the list of its UTF-16 code units ([Js.str]);
      literals are written [Js.lit "..."].  [toLowerCase] is exact on the
      code units below U+0100 and leaves the others alone.
    - JavaScript numbers are modelled by rationals ([Q]): the sources only
      add, multiply, divide, compare and round, and never produce NaN or
      an infinity on the paths modelled here; binary rounding of doubles
      is not modelled, and a statement that depends on the last bits of
      a double carries the hypothesis [Spec.awayFromTie].
    - A JavaScript object used as a dictionary is an association list in
      insertion order; a [Set] is a duplicate-free list in insertion
      order.  Property names inherited from [Object.prototype] are not
      part of the tables, and a statement that looks a term up carries
      the hypothesis [Spec.plainTerm] on it.
    - An exception is modelled by [None] in an [option] result.
    - The part-of-speech tagger (compromise) and the Dice coefficient
      (string-similarity) are external libraries: the functions built on
      them are section variables. *)

From Stdlib Require Import List NArith ZArith QArith Qround Qminmax Bool.
From Stdlib Require Import String Ascii Lia Lqa Permutation Sorted DecimalString.
Import ListNotations.

Set Implicit Arguments.

(** ** JavaScript strings *)

Module Js.

Definition char := N.
Definition str := list char.

Definition lit (s : string) : str := map N_of_ascii (list_ascii_of_string s).

Fixpoint eqb (a b : str) : bool :=
  match a, b with
  | [], [] => true
  | x :: a', y :: b' => N.eqb x y && eqb a' b'
  | _, _ => false
  end.

Definition inRange (lo hi c : N) : bool := (N.leb lo c && N.leb c hi)%bool.

Definition SP : char := 32%N.
Definition LF : char := 10%N.

(** The class [\s] of a JavaScript regular expression, which is also the
    set of code units removed by [String.prototype.trim]. *)
Definition isWhiteSpace (c : char) : bool :=
  (inRange 9 13 c || N.eqb c 32 || N.eqb c 160 || N.eqb c 5760
   || inRange 8192 8202 c || N.eqb c 8232 || N.eqb c 8233 || N.eqb c 8239
   || N.eqb c 8287 || N.eqb c 12288 || N.eqb c 65279)%bool.

Definition isDigit (c : char) : bool := inRange 48 57 c.
Definition isUpper (c : char) : bool := inRange 65 90 c.
Definition isLower (c : char) : bool := inRange 97 122 c.

(** The class [\w]: ASCII letters, digits and the underscore. *)
Definition isWordChar (c : char) : bool :=
  (isUpper c || isLower c || isDigit c || N.eqb c 95)%bool.

Definition toLowerChar (c : char) : char :=
  if (isUpper c || (inRange 192 222 c && negb (N.eqb c 215)))%bool
  then (c + 32)%N else c.

Definition toLowerCase (s : str) : str := map toLowerChar s.

Fixpoint dropWhile (p : char -> bool) (s : str) : str :=
  match s with
  | [] => []
  | c :: t => if p c then dropWhile p t else s
  end.

Definition trimStart (s : str) : str := dropWhile isWhiteSpace s.
Definition trimEnd (s : str) : str := rev (dropWhile isWhiteSpace (rev s)).
Definition trim (s : str) : str := trimEnd (trimStart s).

Fixpoint startsWith (p s : str) : bool :=
  match p, s with
  | [], _ => true
  | x :: p', y :: s' => N.eqb x y && startsWith p' s'
  | _ :: _, [] => false
  end.

Definition endsWith (p s : str) : bool := startsWith (rev p) (rev s).

(** [existsSuffix q s]: [q] holds of [s] from some position on, the end of
    the string included; an unanchored regular expression is tested this
    way. *)
Fixpoint existsSuffix (q : str -> bool) (s : str) : bool :=
  q s || match s with [] => false | _ :: t => existsSuffix q t end.

Definition includes (needle hay : str) : bool :=
  existsSuffix (startsWith needle) hay.

(** [String.prototype.indexOf]: [None] stands for -1. *)
Fixpoint indexOf (needle hay : str) : option nat :=
  if startsWith needle hay then Some O
  else match hay with
       | [] => None
       | _ :: t => option_map S (indexOf needle t)
       end.

(** [s.substring(a, b)] for [0 <= a <= b]. *)
Definition substring (a b : nat) (s : str) : str := firstn (b - a) (skipn a s).

Definition includesChar (c : char) (s : str) : bool := existsb (N.eqb c) s.
Arguments includesChar c%_N s.

Definition mem (x : str) (l : list str) : bool := existsb (eqb x) l.

(** [s.split(sep)] for a separator class of single code units. *)
Fixpoint splitOn (sep : char -> bool) (cur : str) (s : str) : list str :=
  match s with
  | [] => [rev cur]
  | c :: t => if sep c then rev cur :: splitOn sep [] t
              else splitOn sep (c :: cur) t
  end.

Definition splitLines (s : str) : list str := splitOn (N.eqb LF) [] s.

(** [s.split(/\s+/)]. *)
Fixpoint splitWs (cur : str) (inRun : bool) (s : str) : list str :=
  match s with
  | [] => [rev cur]
  | c :: t =>
      if isWhiteSpace c
      then (if inRun then splitWs cur true t else rev cur :: splitWs [] true t)
      else splitWs (c :: cur) false t
  end.

Fixpoint join (sep : str) (l : list str) : str :=
  match l with
  | [] => []
  | [x] => x
  | x :: l' => x ++ sep ++ join sep l'
  end.

(** A [Set] of strings: [add] keeps the first insertion. *)
Definition setAdd (x : str) (s : list str) : list str :=
  if mem x s then s else s ++ [x].

(** A dictionary object: assignment keeps the position of an existing
    key. *)
Fixpoint objSet (A : Type) (k : str) (v : A) (o : list (str * A)) : list (str * A) :=
  match o with
  | [] => [(k, v)]
  | (k', v') :: o' => if eqb k k' then (k, v) :: o' else (k', v') :: objSet k v o'
  end.

Fixpoint objGet (A : Type) (k : str) (o : list (str * A)) : option A :=
  match o with
  | [] => None
  | (k', v') :: o' => if eqb k k' then Some v' else objGet k o'
  end.

(** An object literal: a later entry for the same key replaces the value. *)
Definition objLit (A : Type) (entries : list (string * A)) : list (str * A) :=
  fold_left (fun o e => objSet (lit (fst e)) (snd e) o) entries [].

(** JavaScript values, as far as [typeof] and truthiness tell them apart. *)
Inductive value :=
| VUndefined
| VNull
| VBool (b : bool)
| VNumber (q : Q)
| VString (s : str)
| VObject.

Definition truthy (s : str) : bool := negb (eqb s []).

Definition Qltb (a b : Q) : bool := negb (Qle_bool b a).

(** A length or a count, as a number. *)
Definition num (n : nat) : Q := inject_Z (Z.of_nat n).

(** [Math.round]: to the nearest integer, a tie going up. *)
Definition round (x : Q) : Z := Qfloor (x + (1 # 2)).

End Js.

Abbreviation lit := Js.lit.
Abbreviation str := Js.str.

(** ** nlp.utils.js *)

Module Nlp.
Import Js.

(** [/\s+/g -> ' ']: every maximal run of white space becomes one space.
    [inRun] tells that the previous code unit belonged to the run being
    replaced. *)
Fixpoint replaceWsRuns (inRun : bool) (s : str) : str :=
  match s with
  | [] => []
  | c :: t =>
      if isWhiteSpace c
      then (if inRun then replaceWsRuns true t else SP :: replaceWsRuns true t)
      else c :: replaceWsRuns false t
  end.

(** The code units outside the class [[^\w\s\.\+\#\-\/\(\)]]. *)
Definition isTechnicalPunct (c : char) : bool :=
  (N.eqb c 46 || N.eqb c 43 || N.eqb c 35 || N.eqb c 45 || N.eqb c 47
   || N.eqb c 40 || N.eqb c 41)%bool.

Definition isKept (c : char) : bool :=
  (isWordChar c || isWhiteSpace c || isTechnicalPunct c)%bool.

Definition replaceOthers (s : str) : str :=
  map (fun c => if isKept c then c else SP) s.

(** [/\b\s+/g -> ' ']: a run of white space that starts right after a word
    character becomes one space.  [prevWord]: the previous code unit is a
    word character; [inMatch]: the run being replaced is not over. *)
Fixpoint replaceBoundaryWs (prevWord inMatch : bool) (s : str) : str :=
  match s with
  | [] => []
  | c :: t =>
      if isWhiteSpace c
      then (if inMatch then replaceBoundaryWs false true t
            else if prevWord then SP :: replaceBoundaryWs false true t
            else c :: replaceBoundaryWs false false t)
      else c :: replaceBoundaryWs (isWordChar c) false t
  end.

Definition preprocessText (text : value) : str :=
  match text with
  | VString s =>
      if negb (truthy s) then []
      else trim (replaceBoundaryWs false false
                   (replaceWsRuns false (replaceOthers (replaceWsRuns false s))))
  | _ => []
  end.

Definition skillNormalizations : list (str * str) := Eval vm_compute in objLit (map (fun e => (fst e, lit (snd e))) [
  ("reactjs", "react");
  ("react.js", "react");
  ("react native", "react");
  ("nodejs", "node.js");
  ("node", "node.js");
  ("vuejs", "vue");
  ("vue.js", "vue");
  ("angularjs", "angular");
  ("angular.js", "angular");
  ("angular 2", "angular");
  ("angular 4", "angular");
  ("nextjs", "next.js");
  ("next", "next.js");
  ("nuxtjs", "nuxt.js");
  ("nuxt", "nuxt.js");
  ("express", "express.js");
  ("expressjs", "express.js");
  ("jquery", "jquery");
  ("js", "javascript");
  ("javascript", "javascript");
  ("es6", "javascript");
  ("ecmascript", "javascript");
  ("ts", "typescript");
  ("typescript", "typescript");
  ("py", "python");
  ("python", "python");
  ("python2", "python");
  ("python3", "python");
  ("django", "django");
  ("flask", "flask");
  ("fastapi", "fastapi");
  ("postgres", "postgresql");
  ("postgresql", "postgresql");
  ("postgre", "postgresql");
  ("psql", "postgresql");
  ("mongo", "mongodb");
  ("mongodb", "mongodb");
  ("mysql", "mysql");
  ("mariadb", "mysql");
  ("mssql", "sql server");
  ("sql server", "sql server");
  ("oracle", "oracle");
  ("redis", "redis");
  ("elasticsearch", "elasticsearch");
  ("cassandra", "cassandra");
  ("dynamodb", "dynamodb");
  ("nosql", "nosql");
  ("sql", "sql");
  ("aws", "amazon web services");
  ("amazon web services", "aws");
  ("ec2", "aws");
  ("lambda", "aws lambda");
  ("s3", "aws s3");
  ("gcp", "google cloud platform");
  ("google cloud", "google cloud platform");
  ("google cloud platform", "gcp");
  ("azure", "microsoft azure");
  ("microsoft azure", "azure");
  ("k8s", "kubernetes");
  ("kubernetes", "kubernetes");
  ("docker", "docker");
  ("ci/cd", "continuous integration");
  ("cicd", "continuous integration");
  ("continuous integration", "ci/cd");
  ("continuous deployment", "ci/cd");
  ("devops", "development operations");
  ("jenkins", "jenkins");
  ("gitlab", "gitlab");
  ("github", "github");
  ("git", "git");
  ("bitbucket", "bitbucket");
  ("terraform", "terraform");
  ("ansible", "ansible");
  ("puppet", "puppet");
  ("chef", "chef");
  ("html", "html5");
  ("html5", "html");
  ("css", "css3");
  ("css3", "css");
  ("sass", "scss");
  ("scss", "sass");
  ("less", "less");
  ("bootstrap", "bootstrap");
  ("tailwind", "tailwind css");
  ("tailwindcss", "tailwind css");
  ("material ui", "material-ui");
  ("mui", "material-ui");
  ("api", "apis");
  ("apis", "api");
  ("rest", "restful");
  ("restful", "rest api");
  ("rest api", "restful");
  ("graphql", "graphql");
  ("grpc", "grpc");
  ("websocket", "websockets");
  ("websockets", "websocket");
  ("ml", "machine learning");
  ("machine learning", "ml");
  ("ai", "artificial intelligence");
  ("artificial intelligence", "ai");
  ("deep learning", "deep learning");
  ("dl", "deep learning");
  ("nlp", "natural language processing");
  ("natural language processing", "nlp");
  ("tensorflow", "tensorflow");
  ("pytorch", "pytorch");
  ("keras", "keras");
  ("scikit-learn", "scikit-learn");
  ("sklearn", "scikit-learn");
  ("ios", "ios");
  ("android", "android");
  ("react native", "react native");
  ("flutter", "flutter");
  ("swift", "swift");
  ("kotlin", "kotlin");
  ("objective-c", "objective-c");
  ("objective c", "objective-c");
  ("jest", "jest");
  ("mocha", "mocha");
  ("chai", "chai");
  ("junit", "junit");
  ("pytest", "pytest");
  ("selenium", "selenium");
  ("cypress", "cypress");
  ("testing", "testing");
  ("unit testing", "testing");
  ("integration testing", "testing");
  ("e2e", "end-to-end testing");
  ("end to end testing", "e2e");
  ("agile", "agile");
  ("scrum", "scrum");
  ("kanban", "kanban");
  ("waterfall", "waterfall");
  ("tdd", "test driven development");
  ("test driven development", "tdd");
  ("bdd", "behavior driven development");
  ("java", "java");
  ("c#", "c sharp");
  ("c sharp", "c#");
  ("c++", "c++");
  ("c", "c");
  ("go", "golang");
  ("golang", "go");
  ("rust", "rust");
  ("ruby", "ruby");
  ("php", "php");
  ("r", "r");
  ("scala", "scala");
  ("elixir", "elixir");
  ("wordpress", "wordpress");
  ("wp", "wordpress");
  ("drupal", "drupal");
  ("shopify", "shopify");
  ("magento", "magento");
  ("woocommerce", "woocommerce");
  ("salesforce", "salesforce");
  ("sap", "sap");
  ("oracle", "oracle");
  ("jira", "jira");
  ("confluence", "confluence");
  ("slack", "slack");
  ("teams", "microsoft teams");
  ("microsoft teams", "teams");
  ("tableau", "tableau");
  ("power bi", "power bi");
  ("powerbi", "power bi");
  ("looker", "looker");
  ("excel", "excel");
  ("spreadsheets", "excel");
  ("google sheets", "google sheets");
  ("spark", "apache spark");
  ("apache spark", "spark");
  ("hadoop", "hadoop");
  ("kafka", "apache kafka");
  ("apache kafka", "kafka");
  ("airflow", "airflow");
  ("version control", "git");
  ("source control", "git");
  ("svn", "subversion");
  ("subversion", "svn")
]%string).

(** [skillNormalizations[lower] || lower]: no value of the table is the
    empty string. *)
Definition normalizeSkill (skill : str) : str :=
  let lower := trim (toLowerCase skill) in
  match objGet lower skillNormalizations with
  | Some v => if truthy v then v else lower
  | None => lower
  end.

Record Match := mkMatch { match_ : option str; score : Q }.

(** [l.reduce((prev, current) => current.score > prev.score ? current : prev)]
    on the non-empty array [first :: rest]. *)
Definition reduceBest (A : Type) (sc : A -> Q) (first : A) (rest : list A) : A :=
  fold_left (fun prev current => if Qltb (sc prev) (sc current) then current else prev)
            rest first.

Section Similarity.

(** [stringSimilarity.compareTwoStrings] of the string-similarity package. *)
Variable compareTwoStrings : str -> str -> Q.

Definition calculateSimilarity (skill1 skill2 : str) : Q :=
  let normalized1 := normalizeSkill skill1 in
  let normalized2 := normalizeSkill skill2 in
  if eqb normalized1 normalized2 then 1
  else compareTwoStrings normalized1 normalized2.

Definition findBestMatch (targetSkill : str) (skillsList : list str) : Match :=
  match map (fun skill => (skill, calculateSimilarity targetSkill skill)) skillsList with
  | [] => mkMatch None 0
  | first :: rest =>
      let best := reduceBest snd first rest in
      mkMatch (Some (fst best)) (snd best)
  end.

End Similarity.

Definition isGenericWord (word : str) : bool :=
  mem (toLowerCase word) (map lit [
    "description"; "experience"; "skills"; "education"; "work"; "job";
    "company"; "team"; "role"; "position"; "responsibilities"; "requirements";
    "qualifications"; "candidate"; "professional"; "summary"; "objective";
    "things"; "stuff"; "various"; "multiple"; "several"; "many"; "some";
    "good"; "great"; "excellent"; "strong"; "ability"; "knowledge";
    "years"; "required"; "preferred"; "must"; "should"; "will"; "can";
    "seeking"; "looking"; "join"; "growing"; "field"; "related"; "degree"
  ]%string).

(** [calculateTFIDF(text, allDocuments)] when [allDocuments] holds at most
    one document, which is how the engine calls it: the normalised term
    frequencies are returned as they are. *)
Definition calculateTFIDF (text : str) : list (str * Q) :=
  let words := splitWs [] false (preprocessText (VString text)) in
  let totalWords := List.length words in
  let termFreq :=
    fold_left (fun o word =>
                 if (2 <? List.length word)%nat
                 then objSet word (match objGet word o with Some n => n | None => 0 end + 1)%nat o
                 else o)
              words [] in
  map (fun e => (fst e, inject_Z (Z.of_nat (snd e)) / inject_Z (Z.of_nat totalWords)))
      termFreq.

End Nlp.

(** ** Spell-checking utilities *)

Module Spellcheck.
Import Js.

(** One row of the dynamic-programming matrix of [levenshteinDistance]:
    [fillRow c1 s2 diag up left] computes [matrix[i][j..]] from
    [diag = matrix[i-1][j-1]], [up = matrix[i-1][j..]] and
    [left = matrix[i][j-1]], where [c1 = str1[i-1]] and [s2 = str2[j-1..]]. *)
Fixpoint fillRow (c1 : char) (s2 : str) (diag : nat) (up : list nat) (left : nat)
  : list nat :=
  match s2, up with
  | c2 :: s2', u :: up' =>
      let cost := if N.eqb c1 c2 then 0%nat else 1%nat in
      let v := Nat.min (Nat.min (u + 1) (left + 1)) (diag + cost) in
      v :: fillRow c1 s2' u up' v
  | _, _ => []
  end.

(** Row [i] of the matrix from row [i - 1]; column 0 holds [i]. *)
Definition nextRow (i : nat) (c1 : char) (str2 : str) (prev : list nat) : list nat :=
  match prev with
  | [] => []
  | p0 :: up => i :: fillRow c1 str2 p0 up i
  end.

Fixpoint rowsFrom (i : nat) (str1 str2 : str) (prev : list nat) : list nat :=
  match str1 with
  | [] => prev
  | c1 :: str1' => rowsFrom (S i) str1' str2 (nextRow i c1 str2 prev)
  end.

Definition levenshteinDistance (str1 str2 : str) : nat :=
  last (rowsFrom 1 str1 str2 (seq 0 (S (List.length str2)))) 0%nat.

Definition areSkillsSimilar (skill1 skill2 : str) (threshold : nat) : bool :=
  let s1 := trim (toLowerCase skill1) in
  let s2 := trim (toLowerCase skill2) in
  if eqb s1 s2 then true
  else
    let distance := levenshteinDistance s1 s2 in
    let maxLen := Nat.max (List.length s1) (List.length s2) in
    let allowedDistance := if (maxLen <=? 5)%nat then 1%nat else threshold in
    (distance <=? allowedDistance)%nat.

Definition commonTechTypos : list (str * str) := Eval vm_compute in objLit (map (fun e => (fst e, lit (snd e))) [
  ("pyhton", "python");
  ("pytohn", "python");
  ("javasript", "javascript");
  ("javascirpt", "javascript");
  ("javascrpit", "javascript");
  ("typescipt", "typescript");
  ("typescirpt", "typescript");
  ("kuberntes", "kubernetes");
  ("kuberentes", "kubernetes");
  ("postgre", "postgresql");
  ("postgress", "postgresql");
  ("mongod", "mongodb");
  ("mongobd", "mongodb");
  ("reactjs", "react");
  ("react.js", "react");
  ("nodejs", "node.js");
  ("node.js", "node");
  ("angularjs", "angular");
  ("vuejs", "vue");
  ("vue.js", "vue");
  ("expresjs", "express");
  ("expres", "express");
  ("redis", "redis");
  ("rediss", "redis");
  ("docker", "docker");
  ("dokcer", "docker");
  ("git", "git");
  ("github", "github");
  ("gitlab", "gitlab");
  ("jira", "jira");
  ("aws", "aws");
  ("gcp", "gcp");
  ("azure", "azure");
  ("asure", "azure")
]%string).

(** The [for ... of Object.keys(commonTechTypos)] loop of [autocorrectSkill]. *)
Fixpoint firstSimilarTypo (lower : str) (entries : list (str * str)) : option str :=
  match entries with
  | [] => None
  | (typo, canonical) :: rest =>
      if areSkillsSimilar lower typo 1 then Some canonical
      else firstSimilarTypo lower rest
  end.

Definition autocorrectSkill (skill : str) : str :=
  let lower := trim (toLowerCase skill) in
  let fuzzy := match firstSimilarTypo lower commonTechTypos with
               | Some v => v
               | None => skill
               end in
  match objGet lower commonTechTypos with
  | Some v => if truthy v then v else fuzzy
  | None => fuzzy
  end.

Record TypoMatch := mkTypoMatch {
  match_ : option str;
  score : Q;
  corrected : bool
}.

Section Similarity.

Variable compareTwoStrings : str -> str -> Q.

(** The score [findBestMatchWithTypoTolerance] gives one candidate. *)
Definition candidateScore (skillToMatch skill : str) : Q :=
  let s := toLowerCase skill in
  if eqb skillToMatch s then 1
  else
    let similarity := compareTwoStrings skillToMatch s in
    let distance := levenshteinDistance skillToMatch s in
    let maxLen := Nat.max (List.length skillToMatch) (List.length s) in
    let levenSimilarity :=
      1 - inject_Z (Z.of_nat distance) / inject_Z (Z.of_nat maxLen) in
    Qmax similarity levenSimilarity.

Definition findBestMatchWithTypoTolerance
  (targetSkill : str) (skillsList : list str) (threshold : Q) : TypoMatch :=
  let corrected := autocorrectSkill targetSkill in
  let skillToMatch := toLowerCase corrected in
  match map (fun skill => (skill, candidateScore skillToMatch skill)) skillsList with
  | [] => mkTypoMatch None 0 false
  | first :: rest =>
      let best := Nlp.reduceBest snd first rest in
      mkTypoMatch (if Qle_bool threshold (snd best) then Some (fst best) else None)
                  (snd best)
                  (negb (eqb corrected targetSkill))
  end.

End Similarity.

End Spellcheck.

(** ** section.detector.js *)

Module SectionDetector.
Import Js.

Definition SECTION_HEADERS : list (str * list str) :=
  map (fun e => (lit (fst e), map lit (snd e))) [
    ("skills", ["skills"; "technical skills"; "core competencies"; "technologies";
                "expertise"; "proficiencies"]);
    ("experience", ["experience"; "work experience"; "professional experience";
                    "employment history"; "work history"; "career"]);
    ("education", ["education"; "academic background"; "qualifications"; "degrees"]);
    ("projects", ["projects"; "personal projects"; "key projects"; "portfolio"]);
    ("certifications", ["certifications"; "certificates"; "licenses"; "credentials"]);
    ("summary", ["summary"; "professional summary"; "objective"; "profile"; "about"]);
    ("achievements", ["achievements"; "awards"; "honors"; "accomplishments"])
  ]%string.

Definition detectSectionHeader (line : str) : option str :=
  let lower := trim (toLowerCase line) in
  let exact (e : str * list str) :=
    existsb (fun header => eqb lower header || startsWith (header ++ lit ":") lower)
            (snd e) in
  let partial (e : str * list str) :=
    existsb (fun header => includes header lower) (snd e)
    && ((List.length line <? 50)%nat
        && negb (includesChar 46 line) && negb (includesChar 44 line)) in
  match find exact SECTION_HEADERS with
  | Some e => Some (fst e)
  | None => option_map fst (find partial SECTION_HEADERS)
  end.

Record DetectState := mkDetectState {
  sections : list (str * str);
  currentSection : str;
  currentContent : list str
}.

(** Saving a section: [if (currentContent.length > 0) sections[...] = ...]. *)
Definition saveSection (st : DetectState) : list (str * str) :=
  match currentContent st with
  | [] => sections st
  | _ => objSet (currentSection st) (join [LF] (currentContent st)) (sections st)
  end.

Definition detectLine (st : DetectState) (line : str) : DetectState :=
  let trimmed := trim line in
  if negb (truthy trimmed) then st
  else match detectSectionHeader trimmed with
       | Some detectedSection => mkDetectState (saveSection st) detectedSection []
       | None =>
           mkDetectState (sections st) (currentSection st)
                         (currentContent st ++ [trimmed])
       end.

Definition detectSections (resumeText : str) : list (str * str) :=
  if negb (truthy resumeText) then []
  else saveSection (fold_left detectLine (splitLines resumeText)
                              (mkDetectState [] (lit "header") [])).

Record Job := mkJob { title : str; bullets : list str }.

(** [/\d{4}/]. *)
Definition fourDigits (s : str) : bool :=
  match s with
  | a :: b :: c :: d :: _ => isDigit a && isDigit b && isDigit c && isDigit d
  | _ => false
  end.

Definition jobWords : list str :=
  map lit ["engineer"; "developer"; "manager"; "analyst"; "designer"; "consultant";
           "specialist"; "lead"; "senior"; "junior"]%string.

Definition isJobTitleLine (line : str) : bool :=
  if existsSuffix fourDigits line then true
  else if existsb (fun word => includes word (toLowerCase line)) jobWords then true
  else if includesChar 124 line || includesChar 8211 line || includesChar 8212 line
       then true
  else false.

(** The glyphs of [[•\-\*\+]]. *)
Definition isBulletGlyph (c : char) : bool :=
  (N.eqb c 8226 || N.eqb c 45 || N.eqb c 42 || N.eqb c 43)%bool.

(** [s] starts with one digit at least: what follows the digits. *)
Definition afterDigits (s : str) : option str :=
  match s with
  | c :: _ => if isDigit c then Some (dropWhile isDigit s) else None
  | [] => None
  end.

Definition isBulletPoint (line : str) : bool :=
  let rest := dropWhile isWhiteSpace line in
  match rest with
  | c :: _ => isBulletGlyph c
  | [] => false
  end
  || match afterDigits rest with
     | Some (c :: _) => N.eqb c 46 || N.eqb c 41
     | _ => false
     end.

(** The class [[\s\•\-\*\+\d\.\)]] removed from the front of a bullet. *)
Definition isBulletLead (c : char) : bool :=
  (isWhiteSpace c || isBulletGlyph c || isDigit c || N.eqb c 46 || N.eqb c 41)%bool.

Definition cleanBullet (bullet : str) : str := trim (dropWhile isBulletLead bullet).

Record ParseState := mkParseState { jobs : list Job; currentJob : option Job }.

Definition pushCurrent (st : ParseState) : list Job :=
  match currentJob st with
  | Some job => jobs st ++ [job]
  | None => jobs st
  end.

Definition parseLine (st : ParseState) (line : str) : ParseState :=
  let trimmed := trim line in
  if isJobTitleLine trimmed
  then mkParseState (pushCurrent st) (Some (mkJob trimmed []))
  else match currentJob st with
       | Some job =>
           if isBulletPoint trimmed
           then mkParseState (jobs st)
                             (Some (mkJob (title job) (bullets job ++ [cleanBullet trimmed])))
           else st
       | None => st
       end.

(** The lines the loop of [parseExperienceSection] runs over. *)
Definition contentLines (experienceText : str) : list str :=
  filter (fun l => truthy (trim l)) (splitLines experienceText).

Definition parseExperienceSection (experienceText : str) : list Job :=
  if negb (truthy experienceText) then []
  else pushCurrent (fold_left parseLine (contentLines experienceText)
                              (mkParseState [] None)).

(** The separator class [[,;|\n•\-\*]]. *)
Definition isSkillSeparator (c : char) : bool :=
  (N.eqb c 44 || N.eqb c 59 || N.eqb c 124 || N.eqb c 10 || N.eqb c 8226
   || N.eqb c 45 || N.eqb c 42)%bool.

Fixpoint afterFirstColon (s : str) : option str :=
  match s with
  | [] => None
  | c :: t => if N.eqb c 58 then Some t else afterFirstColon t
  end.

(** [s.replace(/^[^:]+:\s*/, '')]. *)
Definition stripLabel (s : str) : str :=
  match s with
  | [] => s
  | c :: t =>
      if N.eqb c 58 then s
      else match afterFirstColon t with
           | Some r => dropWhile isWhiteSpace r
           | None => s
           end
  end.

Definition addSkillPart (skills : list str) (part : str) : list str :=
  let trimmed := trim part in
  if truthy trimmed && (1 <? List.length trimmed)%nat && (List.length trimmed <? 50)%nat
  then
    let cleaned := stripLabel trimmed in
    if (1 <? List.length cleaned)%nat then setAdd (toLowerCase cleaned) skills
    else skills
  else skills.

Definition parseSkillsSection (skillsText : str) : list str :=
  if negb (truthy skillsText) then []
  else fold_left addSkillPart (splitOn isSkillSeparator [] skillsText) [].

Definition startsWithCI (p s : str) : bool := startsWith p (toLowerCase s).

(** [/\d+%/] at the start of [s]. *)
Definition percentAt (s : str) : bool :=
  match afterDigits s with Some (c :: _) => N.eqb c 37 | _ => false end.

(** [/\$[\d,]+/] at the start of [s]. *)
Definition dollarAt (s : str) : bool :=
  match s with
  | d :: c :: _ => N.eqb d 36 && (isDigit c || N.eqb c 44)
  | _ => false
  end.

(** [/\d+[\+]?\s*(users?|customers?|clients?|projects?)/i] at the start. *)
Definition countAt (s : str) : bool :=
  match afterDigits s with
  | Some r =>
      let r1 := match r with c :: t => if N.eqb c 43 then t else r | [] => r end in
      let r2 := dropWhile isWhiteSpace r1 in
      existsb (fun w => startsWithCI w r2)
              (map lit ["user"; "customer"; "client"; "project"]%string)
  | None => false
  end.

(** [/\d+x/] at the start. *)
Definition multiplierAt (s : str) : bool :=
  match afterDigits s with Some (c :: _) => N.eqb c 120 | _ => false end.

(** [/by\s+\d+/i] at the start. *)
Definition byAt (s : str) : bool :=
  startsWithCI (lit "by") s
  && match skipn 2 s with
     | c :: t => isWhiteSpace c
                 && match dropWhile isWhiteSpace t with
                    | d :: _ => isDigit d
                    | [] => false
                    end
     | [] => false
     end.

(** [/\d+\s*(million|thousand|billion)/i] at the start. *)
Definition scaleAt (s : str) : bool :=
  match afterDigits s with
  | Some r =>
      existsb (fun w => startsWithCI w (dropWhile isWhiteSpace r))
              (map lit ["million"; "thousand"; "billion"]%string)
  | None => false
  end.

Definition metricPatterns : list (str -> bool) :=
  [percentAt; dollarAt; countAt; multiplierAt; byAt; scaleAt].

Definition hasQuantifiableMetrics (experienceText : str) : bool :=
  if negb (truthy experienceText) then false
  else existsb (fun pattern => existsSuffix pattern experienceText) metricPatterns.

End SectionDetector.

(** ** The ATS engine *)

Module AtsEngine.
Import Js.
Import SectionDetector.

Definition requiredIndicators : list str :=
  map lit ["required"; "must have"; "mandatory"; "essential"; "must be"; "need to"]%string.

Definition preferredIndicators : list str :=
  map lit ["preferred"; "nice to have"; "bonus"; "plus"; "desired"; "ideal"]%string.

Record Importance := mkImportance { required : list str; preferred : list str }.

(** The ±100 code units around the first occurrence of the term. *)
Definition contextOf (lowerText termLower : str) (termIndex : nat) : str :=
  let contextStart := Nat.max 0 (termIndex - 100) in
  let contextEnd :=
    Nat.min (List.length lowerText) (termIndex + List.length termLower + 100) in
  substring contextStart contextEnd lowerText.

(** [indicators.some(indicator => context.includes(indicator))]. *)
Definition hasIndicator (indicators : list str) (context : str) : bool :=
  existsb (fun indicator => includes indicator context) indicators.

(** The body of the [terms.forEach] of [categorizeSkillImportance]. *)
Definition categorizeTerm (lowerText : str) (acc : Importance) (term : str) : Importance :=
  let termLower := toLowerCase term in
  match indexOf termLower lowerText with
  | None => acc
  | Some termIndex =>
      let context := contextOf lowerText termLower termIndex in
      if hasIndicator requiredIndicators context
      then mkImportance (setAdd (Nlp.normalizeSkill term) (required acc)) (preferred acc)
      else if hasIndicator preferredIndicators context
      then mkImportance (required acc) (setAdd (Nlp.normalizeSkill term) (preferred acc))
      else mkImportance (setAdd (Nlp.normalizeSkill term) (required acc)) (preferred acc)
  end.

Definition categorizeSkillImportance (jdText : str) (terms : list str) : Importance :=
  fold_left (categorizeTerm (toLowerCase jdText)) terms (mkImportance [] []).

(** [/^[-•*\d+\.:]/]. *)
Definition isListMarker (c : char) : bool :=
  (N.eqb c 45 || N.eqb c 8226 || N.eqb c 42 || isDigit c || N.eqb c 43
   || N.eqb c 46 || N.eqb c 58)%bool.

(** [/[.:,;!]$/]. *)
Definition isEndPunct (c : char) : bool :=
  (N.eqb c 46 || N.eqb c 58 || N.eqb c 44 || N.eqb c 59 || N.eqb c 33)%bool.

(** The patterns of [noisePatterns] of the shape [/^(w1|w2|...)$/i]. *)
Definition noiseWords : list str :=
  map lit [
    "required"; "preferred"; "must"; "should"; "year"; "years"; "month"; "months";
    "experience"; "experiences";
    "responsibilities"; "qualifications"; "skills"; "education"; "work"; "job";
    "role"; "position";
    "knowledge"; "proficiency"; "expertise"; "familiarity"; "understanding";
    "solid"; "strong";
    "experience"; "building"; "developing"; "creating"; "implementing";
    "collaborating";
    "participate"; "participating"; "integrate"; "integrating"; "optimize";
    "optimizing";
    "troubleshoot"; "troubleshooting"; "collaborate"; "collaborating";
    "implement"; "implementing"; "develop"; "developing"; "build"; "building";
    "party"; "third"; "high"; "best"; "technical"; "practices"; "issues";
    "performance";
    "stack"; "full"; "developer"; "applications"; "services"; "practices";
    "operations"
  ]%string.

(** The unanchored patterns of [noisePatterns]. *)
Definition noiseFragments : list str :=
  map lit [
    "growing team"; "our team"; "join"; "seeking"; "looking"; "candidate"; "ideal";
    "bachelor"; "degree"; "field"; "related"; "computer science"
  ]%string.

(** [/^(and|with|the|for|from|plus|bonus)\s/i]. *)
Definition noiseLeadWords : list str :=
  map lit ["and"; "with"; "the"; "for"; "from"; "plus"; "bonus"]%string.

Definition actionWords : list str :=
  map lit [
    "experience"; "building"; "developing"; "creating"; "implementing";
    "collaborating"; "participate"; "integrate"; "optimize"; "troubleshoot";
    "knowledge"; "proficiency"; "expertise"; "familiarity"; "understanding"
  ]%string.

Definition isNoiseTerm (term : str) : bool :=
  if (List.length term <? 3)%nat then true
  else
    let cleaned := trim term in
    if negb (eqb cleaned term) then true
    else if match cleaned with c :: _ => isListMarker c | [] => false end then true
    else if match rev cleaned with c :: _ => isEndPunct c | [] => false end then true
    else if mem (toLowerCase cleaned) actionWords then true
    else
      let lower := toLowerCase cleaned in
      mem lower noiseWords
      || existsb (fun f => includes f lower) noiseFragments
      || existsb (fun w => startsWith w lower
                           && match skipn (List.length w) lower with
                              | c :: _ => isWhiteSpace c
                              | [] => false
                              end)
                 noiseLeadWords.

Definition qualifiers : list str :=
  map lit [
    "strong proficiency"; "strong expertise"; "solid understanding";
    "good knowledge"; "excellent skills"; "proven experience";
    "deep understanding"; "extensive experience"; "broad knowledge";
    "strong background"; "solid experience"; "good understanding";
    "strong knowledge"; "proven ability"; "demonstrated ability";
    "strong skills"; "good skills"; "excellent knowledge";
    "years of experience"; "experience with"; "knowledge of";
    "proficiency in"; "expertise in"; "familiarity with";
    "understanding of"; "background in"; "skills in"
  ]%string.

Definition isQualifierTerm (term : str) : bool :=
  if negb (truthy term) then true
  else
    let cleaned := trim (toLowerCase term) in
    existsb (fun q => includes q cleaned || includes cleaned q) qualifiers.

(** [(text.match(new RegExp(escaped, 'gi')) || []).length]: the occurrences
    of the literal [pat], case folded, found from left to right without
    overlap.  [skip] counts the code units of the last match still to be
    passed. *)
Fixpoint countMatches (pat : str) (skip : nat) (s : str) : nat :=
  match s with
  | [] => match pat with [] => 1%nat | _ => 0%nat end
  | _ :: t =>
      match skip with
      | S k => countMatches pat k t
      | O => if startsWith pat s
             then S (countMatches pat (List.length pat - 1) t)
             else countMatches pat 0 t
      end
  end.

Record Term := mkTerm {
  term : str;
  originalTerm : str;
  weight : Q;
  isRequired : bool;
  isPreferred : bool;
  frequency : nat
}.

(** The body of the [allTerms.map] of [analyzeJobDescription]. *)
Definition weighTerm (jdText : str) (tfidf : list (str * Q)) (imp : Importance)
  (t : str) : Term :=
  let normalized := Nlp.normalizeSkill t in
  let baseWeight :=
    match objGet (toLowerCase t) tfidf with
    | Some w => if Qeq_bool w 0 then 0.1 else w
    | None => 0.1
    end in
  let weight := baseWeight in
  let weight := if mem normalized (required imp) then weight * 3 else weight in
  let weight := if mem normalized (preferred imp) then weight * 1.5 else weight in
  let frequency := countMatches (toLowerCase t) 0 (toLowerCase jdText) in
  let weight := if (2 <? frequency)%nat then weight * 1.3 else weight in
  let weight := if Nlp.isGenericWord t then weight * 0.3 else weight in
  mkTerm normalized t weight
         (mem normalized (required imp)) (mem normalized (preferred imp)) frequency.

Fixpoint removeDuplicatesFrom (seen : list str) (terms : list Term) : list Term :=
  match terms with
  | [] => []
  | t :: rest =>
      if mem (term t) seen then removeDuplicatesFrom seen rest
      else t :: removeDuplicatesFrom (seen ++ [term t]) rest
  end.

Definition removeDuplicatesByNormalized (terms : list Term) : list Term :=
  removeDuplicatesFrom [] terms.

(** [terms.sort((a, b) => b.weight - a.weight)]: a stable sort, heaviest
    first. *)
Fixpoint insertByWeight (x : Term) (sorted : list Term) : list Term :=
  match sorted with
  | [] => [x]
  | y :: rest =>
      if Qltb (weight y) (weight x) then x :: sorted
      else y :: insertByWeight x rest
  end.

Definition sortByWeight (terms : list Term) : list Term :=
  fold_left (fun sorted x => insertByWeight x sorted) terms [].

Record JdAnalysis := mkJdAnalysis {
  skills : list str;
  phrases : list str;
  weightedTerms : list Term;
  requiredSkills : list str;
  preferredSkills : list str
}.

(** [analyzeJobDescription] once the terms are extracted and cleaned. *)
Definition weighTerms (jdText : str) (allTerms : list str) : list Term :=
  let tfidf := Nlp.calculateTFIDF jdText in
  let imp := categorizeSkillImportance jdText allTerms in
  sortByWeight (removeDuplicatesByNormalized (map (weighTerm jdText tfidf imp) allTerms)).

Module Strong.
Record t := mk {
  jdTerm : str;
  resumeTerm : option str;
  score : Q;
  weight : Q;
  isRequired : bool;
  inSkillsSection : bool;
  inExperience : bool;
  typoCorrection : bool
}.
End Strong.

Module Partial.
Record t := mk {
  jdTerm : str;
  resumeTerm : option str;
  score : Q;
  weight : Q;
  isRequired : bool;
  typoCorrection : bool
}.
End Partial.

Module Missing.
Record t := mk {
  term : str;
  weight : Q;
  isRequired : bool;
  isPreferred : bool
}.
End Missing.

Record Matches := mkMatches {
  strongMatch : list Strong.t;
  partialMatch : list Partial.t;
  missing : list Missing.t
}.

(** [isTermInExperience]: with a [null] term the first bullet met raises a
    [TypeError]. *)
Definition isTermInExperience (t : option str) (experienceJobs : list Job)
  : option bool :=
  match t with
  | Some s =>
      Some (existsb (fun job =>
                       existsb (fun bullet => includes (toLowerCase s) (toLowerCase bullet))
                               (bullets job))
                    experienceJobs)
  | None =>
      if existsb (fun job => match bullets job with [] => false | _ => true end)
                 experienceJobs
      then None else Some false
  end.

(** [explicitSkills.includes(m)]. *)
Definition includesTerm (m : option str) (l : list str) : bool :=
  match m with Some s => mem s l | None => false end.

Definition STRONG_THRESHOLD : Q := 0.65.
Definition PARTIAL_THRESHOLD : Q := 0.45.

Section Matching.

Variable compareTwoStrings : str -> str -> Q.

(** [bestMatch.match ? bestMatch : findBestMatch(jdTerm.term, allResumeTerms)]. *)
Definition finalMatchOf (bestMatch : Spellcheck.TypoMatch) (jdTermText : str)
  (allResumeTerms : list str) : Nlp.Match :=
  match Spellcheck.match_ bestMatch with
  | Some s =>
      if truthy s then Nlp.mkMatch (Spellcheck.match_ bestMatch) (Spellcheck.score bestMatch)
      else Nlp.findBestMatch compareTwoStrings jdTermText allResumeTerms
  | None => Nlp.findBestMatch compareTwoStrings jdTermText allResumeTerms
  end.

(** The body of the [jdAnalysis.weightedTerms.forEach] of [matchResumeToJD]. *)
Definition matchTerm (allResumeTerms explicitSkills : list str)
  (experienceJobs : list Job) (matches : Matches) (jdTerm : Term) : option Matches :=
  let bestMatch :=
    Spellcheck.findBestMatchWithTypoTolerance compareTwoStrings (term jdTerm)
                                              allResumeTerms 0.70 in
  let finalMatch := finalMatchOf bestMatch (term jdTerm) allResumeTerms in
  if Qle_bool STRONG_THRESHOLD (Nlp.score finalMatch) then
    match isTermInExperience (Nlp.match_ finalMatch) experienceJobs with
    | None => None
    | Some inExp =>
        Some (mkMatches
                (strongMatch matches ++
                 [Strong.mk (term jdTerm) (Nlp.match_ finalMatch) (Nlp.score finalMatch)
                            (weight jdTerm) (isRequired jdTerm)
                            (includesTerm (Nlp.match_ finalMatch) explicitSkills)
                            inExp (Spellcheck.corrected bestMatch || false)])
                (partialMatch matches) (missing matches))
    end
  else if Qle_bool PARTIAL_THRESHOLD (Nlp.score finalMatch) then
    Some (mkMatches
            (strongMatch matches)
            (partialMatch matches ++
             [Partial.mk (term jdTerm) (Nlp.match_ finalMatch) (Nlp.score finalMatch)
                         (weight jdTerm) (isRequired jdTerm)
                         (Spellcheck.corrected bestMatch || false)])
            (missing matches))
  else
    Some (mkMatches
            (strongMatch matches) (partialMatch matches)
            (missing matches ++
             [Missing.mk (term jdTerm) (weight jdTerm) (isRequired jdTerm)
                         (isPreferred jdTerm)])).

(** The [forEach] itself; an exception ends it. *)
Fixpoint matchTerms (allResumeTerms explicitSkills : list str)
  (experienceJobs : list Job) (matches : Matches) (jdTerms : list Term)
  : option Matches :=
  match jdTerms with
  | [] => Some matches
  | jdTerm :: rest =>
      match matchTerm allResumeTerms explicitSkills experienceJobs matches jdTerm with
      | None => None
      | Some matches' =>
          matchTerms allResumeTerms explicitSkills experienceJobs matches' rest
      end
  end.

Record ResumeMetrics := mkResumeMetrics {
  hasMetrics : bool;
  totalSkills : nat;
  explicitSkillCount : nat
}.

Record MatchResults := mkMatchResults {
  matches : Matches;
  sections : list (str * str);
  experienceJobs : list Job;
  explicitSkills : list str;
  resumeMetrics : ResumeMetrics
}.

(** [sections.key] read as a condition or with [|| '']. *)
Definition sectionText (key : string) (secs : list (str * str)) : str :=
  match objGet (lit key) secs with Some s => s | None => [] end.

(** The compromise-based extractors of nlp.utils.js. *)
Variable extractSkills : str -> list str.
Variable extractPhrases : str -> list str.

Definition analyzeJobDescription (jdText : str) : JdAnalysis :=
  let skills := extractSkills jdText in
  let phrases := extractPhrases jdText in
  let cleanedSkills :=
    filter (fun s => negb (isNoiseTerm s) && negb (isQualifierTerm s)) skills in
  let cleanedPhrases :=
    filter (fun p => negb (isNoiseTerm p) && negb (isQualifierTerm p)) phrases in
  let allTerms := cleanedSkills ++ cleanedPhrases in
  let imp := categorizeSkillImportance jdText allTerms in
  mkJdAnalysis skills phrases (weighTerms jdText allTerms) (required imp) (preferred imp).

Definition matchResumeToJD (resumeText : str) (jdAnalysis : JdAnalysis)
  : option MatchResults :=
  let sections := detectSections resumeText in
  let sections :=
    if (List.length sections <=? 1)%nat
    then objSet (lit "skills") resumeText (objSet (lit "experience") resumeText sections)
    else sections in
  let resumeSkills := extractSkills resumeText in
  let resumePhrases := extractPhrases resumeText in
  let allResumeTerms :=
    filter (fun t => truthy t && (2 <? List.length t)%nat)
           (map Nlp.normalizeSkill (resumeSkills ++ resumePhrases)) in
  let explicitSkills :=
    if truthy (sectionText "skills" sections)
    then parseSkillsSection (sectionText "skills" sections) else [] in
  let experienceJobs :=
    if truthy (sectionText "experience" sections)
    then parseExperienceSection (sectionText "experience" sections) else [] in
  match matchTerms allResumeTerms explicitSkills experienceJobs
                   (mkMatches [] [] []) (weightedTerms jdAnalysis) with
  | None => None
  | Some matches =>
      Some (mkMatchResults matches sections experienceJobs explicitSkills
              (mkResumeMetrics
                 (hasQuantifiableMetrics (sectionText "experience" sections))
                 (List.length allResumeTerms) (List.length explicitSkills)))
  end.

End Matching.

(** *** Scoring *)

Record ComponentScores := mkComponentScores {
  skillMatch : Q;
  requiredMatch : Q;
  demonstration : Q;
  structure : Q;
  metrics : Q
}.

Definition WEIGHTS : list ((ComponentScores -> Q) * Q) :=
  [(skillMatch, 0.55); (requiredMatch, 0.18); (demonstration, 0.10);
   (structure, 0.10); (metrics, 0.07)].

Definition count (A : Type) (p : A -> bool) (l : list A) : nat :=
  List.length (filter p l).

Definition calculateSkillMatchScore (matchResults : MatchResults) : Q :=
  let strongMatchCount := List.length (strongMatch (matches matchResults)) in
  let partialMatchCount := List.length (partialMatch (matches matchResults)) in
  let missingCount := List.length (missing (matches matchResults)) in
  let totalTerms := (strongMatchCount + partialMatchCount + missingCount)%nat in
  if (totalTerms =? 0)%nat then 0.50
  else
    let weightedMatches := num strongMatchCount + num partialMatchCount * 0.95 in
    let rawScore := weightedMatches / num totalTerms in
    Qmin 1.0 (Qmax 0.3 rawScore).

Definition calculateRequiredMatchScore (matchResults : MatchResults) : Q :=
  let requiredMatches := count Strong.isRequired (strongMatch (matches matchResults)) in
  let requiredPartialMatches :=
    count Partial.isRequired (partialMatch (matches matchResults)) in
  let requiredMissing := count Missing.isRequired (missing (matches matchResults)) in
  let totalRequired := (requiredMatches + requiredPartialMatches + requiredMissing)%nat in
  if (totalRequired =? 0)%nat then 1.0
  else
    let weightedRequiredMatches := num requiredMatches + num requiredPartialMatches * 0.75 in
    let rawScore := weightedRequiredMatches / num totalRequired in
    Qmax 0.25 rawScore.

Definition calculateDemonstrationScore (matchResults : MatchResults) : Q :=
  let demonstratedCount := count Strong.inExperience (strongMatch (matches matchResults)) in
  let totalStrongMatches := List.length (strongMatch (matches matchResults)) in
  if (totalStrongMatches =? 0)%nat then 0.0
  else num demonstratedCount / num totalStrongMatches.

(** One [if (sections.key !== undefined) { ... }] of the structure score:
    the pair is (score, maxScore). *)
Definition addSection (key : string) (w : Q) (secs : list (str * str)) (acc : Q * Q)
  : Q * Q :=
  match objGet (lit key) secs with
  | Some s => (fst acc + (if truthy s then w else 0), snd acc + w)
  | None => acc
  end.

Definition calculateStructureScore (matchResults : MatchResults) : Q :=
  let secs := sections matchResults in
  let acc := addSection "summary" 0.2 secs
               (addSection "experience" 0.4 secs
                  (addSection "skills" 0.4 secs (0, 0))) in
  if Qltb 0 (snd acc) then fst acc / snd acc else 0.0.

Definition componentScoresOf (matchResults : MatchResults) : ComponentScores :=
  mkComponentScores
    (calculateSkillMatchScore matchResults)
    (calculateRequiredMatchScore matchResults)
    (calculateDemonstrationScore matchResults)
    (calculateStructureScore matchResults)
    (if hasMetrics (resumeMetrics matchResults) then 1.0 else 0.0).

(** The weighted average of [calculateATSScore]. *)
Definition weightedAverage (componentScores : ComponentScores) : Q :=
  fold_left (fun finalScore cw => finalScore + fst cw componentScores * snd cw)
            WEIGHTS 0.

Definition calculateATSScore (matchResults : MatchResults) : Z :=
  let finalScore := weightedAverage (componentScoresOf matchResults) in
  let score := finalScore * 100 in
  let score := score * 1.4 in
  let baseScore := 20 in
  let score := Qmax score baseScore in
  let strongMatchCount := List.length (strongMatch (matches matchResults)) in
  let partialMatchCount := List.length (partialMatch (matches matchResults)) in
  let score :=
    if (0 <? strongMatchCount)%nat then score + Qmin 12 (num strongMatchCount * 0.8)
    else score in
  let score :=
    if (0 <? partialMatchCount)%nat then score + Qmin 8 (num partialMatchCount * 0.5)
    else score in
  let score :=
    if truthy (sectionText "skills" (sections matchResults))
       && truthy (sectionText "experience" (sections matchResults))
    then score + 5 else score in
  let score := if hasMetrics (resumeMetrics matchResults) then score + 3 else score in
  round (Qmin 100 score).

(** *** The analysis result *)

Inductive importanceLabel := LRequired | LPreferred.
Inductive impactLabel := High | Medium | Low.

Definition importanceOf (isReq : bool) : importanceLabel :=
  if isReq then LRequired else LPreferred.

Module StrongOut.
Record t := mk {
  skill : str;
  matchedAs : option str;
  inSkillsSection : bool;
  demonstrated : bool;
  importance : importanceLabel
}.
End StrongOut.

Module PartialOut.
Record t := mk {
  skill : str;
  matchedAs : option str;
  similarity : Z;
  importance : importanceLabel
}.
End PartialOut.

Module MissingOut.
Record t := mk {
  skill : str;
  importance : importanceLabel;
  impact : impactLabel
}.
End MissingOut.

Record SectionFeedback := mkSectionFeedback {
  hasSkillsSection : bool;
  hasExperienceSection : bool;
  hasMetricsFlag : bool;
  skillCount : nat;
  sectionNames : list str
}.

(** The result of [performATSAnalysis] without its [insights] and
    [checklist], which no other field depends on. *)
Record AnalysisResult := mkAnalysisResult {
  atsScore : Z;
  strongMatches : list StrongOut.t;
  partialMatches : list PartialOut.t;
  missingSkills : list MissingOut.t;
  sectionFeedback : SectionFeedback
}.

Definition resultOf (matchResults : MatchResults) : AnalysisResult :=
  mkAnalysisResult
    (calculateATSScore matchResults)
    (map (fun m => StrongOut.mk (Strong.jdTerm m) (Strong.resumeTerm m)
                                (Strong.inSkillsSection m) (Strong.inExperience m)
                                (importanceOf (Strong.isRequired m)))
         (strongMatch (matches matchResults)))
    (map (fun m => PartialOut.mk (Partial.jdTerm m) (Partial.resumeTerm m)
                                 (round (Partial.score m * 100))
                                 (importanceOf (Partial.isRequired m)))
         (partialMatch (matches matchResults)))
    (map (fun m => MissingOut.mk (Missing.term m)
                                 (importanceOf (Missing.isRequired m))
                                 (if Qltb 0.5 (Missing.weight m) then High
                                  else if Qltb 0.2 (Missing.weight m) then Medium
                                  else Low))
         (missing (matches matchResults)))
    (mkSectionFeedback
       (truthy (sectionText "skills" (sections matchResults)))
       (truthy (sectionText "experience" (sections matchResults)))
       (hasMetrics (resumeMetrics matchResults))
       (explicitSkillCount (resumeMetrics matchResults))
       (map fst (sections matchResults))).

Section Analysis.

Variable compareTwoStrings : str -> str -> Q.
Variable extractSkills : str -> list str.
Variable extractPhrases : str -> list str.

Definition performATSAnalysis (resumeText jdText : str) : option AnalysisResult :=
  let jdAnalysis := analyzeJobDescription extractSkills extractPhrases jdText in
  option_map resultOf
    (matchResumeToJD compareTwoStrings extractSkills extractPhrases resumeText jdAnalysis).

End Analysis.

End AtsEngine.

(** ** The ATS engine: insights and checklist *)

Module Insights.
Import Js.
Import AtsEngine.

Module Feedback.
Record t := mk { type : str; severity : str; message : str }.
End Feedback.

(** [names.indexOf(key)]: [None] stands for -1. *)
Fixpoint keyIndex (key : str) (names : list str) : option nat :=
  match names with
  | [] => None
  | n :: rest => if eqb n key then Some O else option_map S (keyIndex key rest)
  end.

(** [analyzeSectionOrder] of section.detector.js. *)
Definition analyzeSectionOrder (sections : list (str * str)) : list Feedback.t :=
  let sectionNames := map fst sections in
  let skillsIndex := keyIndex (lit "skills") sectionNames in
  let experienceIndex := keyIndex (lit "experience") sectionNames in
  let feedback :=
    match skillsIndex, experienceIndex with
    | Some s, Some e =>
        if (e + 1 <? s)%nat
        then [Feedback.mk (lit "section_order") (lit "medium")
                (lit "Consider moving Skills section closer to the top for better ATS visibility")]
        else []
    | _, _ => []
    end in
  if negb (mem (lit "summary") sectionNames)
  then feedback ++ [Feedback.mk (lit "missing_section") (lit "low")
                      (lit "Adding a professional summary can improve ATS matching")]
  else feedback.

Inductive insightType := critical | warning | improvement | optimization.
Inductive insightPriority := high | medium | low.

Record Insight := mkInsight {
  type : insightType;
  category : str;
  message : str;
  suggestion : str;
  priority : insightPriority
}.

(** The double quote and the arrow of the message templates. *)
Definition quote : str := [34%N].
Definition arrow : str := [8594%N].

Definition quoted (s : str) : str := quote ++ s ++ quote.

(** [`${n}`] for an integer. *)
Definition showInt (n : Z) : str := lit (DecimalString.NilZero.string_of_int (Z.to_int n)).

(** [`${t}`] for a string or [null]. *)
Definition showTerm (t : option str) : str :=
  match t with Some s => s | None => lit "null" end.

Definition missingSkillInsight (skill : Missing.t) : Insight :=
  mkInsight critical (lit "missing_skill")
    (quoted (Missing.term skill) ++ lit " is required but not found in resume")
    (lit "Add " ++ quoted (Missing.term skill)
     ++ lit " to your skills section and demonstrate it with project examples")
    high.

Definition undemonstratedInsight (m : Strong.t) : Insight :=
  mkInsight warning (lit "undemonstr ated_skill")
    (quoted (Strong.jdTerm m) ++ lit " is listed in skills but not demonstrated in experience")
    (lit "Add project or work examples showing your experience with " ++ Strong.jdTerm m)
    medium.

Definition missingMetricsInsight : Insight :=
  mkInsight improvement (lit "missing_metrics")
    (lit "No quantifiable metrics found in experience section")
    (lit "Add measurable achievements (e.g., " ++ quoted (lit "Improved performance by 40%")
     ++ lit ", " ++ quoted (lit "Managed team of 5") ++ lit ")")
    high.

Definition sectionOrderInsight (feedback : Feedback.t) : Insight :=
  mkInsight optimization (Feedback.type feedback) (Feedback.message feedback)
    (lit "Reorder sections to: Summary " ++ arrow ++ lit " Skills " ++ arrow
     ++ lit " Experience " ++ arrow ++ lit " Education " ++ arrow ++ lit " Projects")
    (if eqb (Feedback.severity feedback) (lit "high") then high else medium).

Definition weakVerbsInsight : Insight :=
  mkInsight improvement (lit "weak_verbs")
    (lit "Limited use of strong action verbs in experience section")
    (lit "Use impactful verbs like: developed, implemented, optimized, architected, led, managed")
    medium.

Definition partialMatchInsight (m : Partial.t) : Insight :=
  mkInsight warning (lit "partial_match")
    (quoted (Partial.jdTerm m) ++ lit " partially matches "
     ++ quoted (showTerm (Partial.resumeTerm m)) ++ lit " ("
     ++ showInt (round (Partial.score m * 100)) ++ lit "% similarity)")
    (lit "Consider using the exact term " ++ quoted (Partial.jdTerm m)
     ++ lit " for better ATS matching")
    medium.

Definition sparseSkillsInsight : Insight :=
  mkInsight improvement (lit "sparse_skills")
    (lit "Skills section appears sparse or missing")
    (lit "Add a dedicated Skills section with 8-15 relevant technical skills")
    high.

(** [priorityOrder]. *)
Definition priorityOrder (p : insightPriority) : nat :=
  match p with high => 0 | medium => 1 | low => 2 end.

(** [insights.sort((a, b) => priorityOrder[a.priority] - priorityOrder[b.priority])]:
    a stable sort. *)
Fixpoint insertByPriority (x : Insight) (sorted : list Insight) : list Insight :=
  match sorted with
  | [] => [x]
  | y :: rest =>
      if (priorityOrder (priority x) <? priorityOrder (priority y))%nat
      then x :: sorted
      else y :: insertByPriority x rest
  end.

Definition sortByPriority (insights : list Insight) : list Insight :=
  fold_left (fun sorted x => insertByPriority x sorted) insights [].

Section WithVerbs.

(** [extractActionVerbs] of nlp.utils.js, built on compromise. *)
Variable extractActionVerbs : str -> list str.

(** The insights in the order the seven rules push them. *)
Definition emittedInsights (matchResults : MatchResults) : list Insight :=
  map missingSkillInsight (filter Missing.isRequired (missing (matches matchResults)))
  ++ map undemonstratedInsight
       (filter (fun m => Strong.inSkillsSection m && negb (Strong.inExperience m))
               (strongMatch (matches matchResults)))
  ++ (if negb (hasMetrics (resumeMetrics matchResults)) then [missingMetricsInsight] else [])
  ++ map sectionOrderInsight (analyzeSectionOrder (sections matchResults))
  ++ (if truthy (sectionText "experience" (sections matchResults))
      then (if (List.length (extractActionVerbs
                               (sectionText "experience" (sections matchResults))) <? 5)%nat
            then [weakVerbsInsight] else [])
      else [])
  ++ map partialMatchInsight (filter Partial.isRequired (partialMatch (matches matchResults)))
  ++ (if (explicitSkillCount (resumeMetrics matchResults) <? 5)%nat
      then [sparseSkillsInsight] else []).

Definition generateInsights (matchResults : MatchResults) : list Insight :=
  sortByPriority (emittedInsights matchResults).

End WithVerbs.

Inductive checklistPriority := pCritical | pImportant | pOptional.

Record ChecklistSection := mkChecklistSection {
  sectionPriority : checklistPriority;
  title : str;
  items : list str
}.

Definition hasPriority (p : insightPriority) (i : Insight) : bool :=
  match p, priority i with
  | high, high | medium, medium | low, low => true
  | _, _ => false
  end.

(** One [if (categories.x.length > 0) checklist.push(...)]. *)
Definition checklistPart (p : checklistPriority) (t : string) (group : list Insight)
  : list ChecklistSection :=
  match group with
  | [] => []
  | _ => [mkChecklistSection p (lit t) (map suggestion group)]
  end.

Definition buildImprovementChecklist (insights : list Insight) : list ChecklistSection :=
  checklistPart pCritical "Critical Improvements" (filter (hasPriority high) insights)
  ++ checklistPart pImportant "Recommended Improvements" (filter (hasPriority medium) insights)
  ++ checklistPart pOptional "Additional Suggestions" (filter (hasPriority low) insights).

(** The three groups of a list of insights. *)
Definition grouped (l : list Insight) : list Insight :=
  filter (hasPriority high) l ++ filter (hasPriority medium) l
  ++ filter (hasPriority low) l.

End Insights.

(** ** Skill variations *)

Module Variations.
Import Js.

(** [s.slice(0, -n)] for [n] from 1 to the length of [s]. *)
Definition dropLast (n : nat) (s : str) : str := firstn (List.length s - n) s.

(** [s.replace(/c/g, '')] and [s.replace(/c/g, d)] for a character [c]. *)
Definition removeChar (c : char) (s : str) : str :=
  filter (fun x => negb (N.eqb x c)) s.

Definition replaceChar (c d : char) (s : str) : str :=
  map (fun x => if N.eqb x c then d else x) s.

(** [s.replace(/\s+/g, r)]: every run of whitespace becomes [r]. [inRun]
    tells that the previous code unit belonged to the run being
    replaced. *)
Fixpoint replaceRuns (r : str) (inRun : bool) (s : str) : str :=
  match s with
  | [] => []
  | c :: t =>
      if isWhiteSpace c
      then (if inRun then replaceRuns r true t else r ++ replaceRuns r true t)
      else c :: replaceRuns r false t
  end.

Definition suffixes : list str := map lit ["ing"; "ed"; "s"; "es"; "er"; "or"]%string.

(** [getSkillVariations] of the spell-check utilities; the set is returned
    in insertion order. *)
Definition getSkillVariations (skill : str) : list str :=
  let variations := [toLowerCase skill] in
  let base := trim (toLowerCase skill) in
  let variations :=
    fold_left (fun vs suffix =>
                 if endsWith suffix base
                 then setAdd (dropLast (List.length suffix) base) vs
                 else vs)
              suffixes variations in
  let variations :=
    if endsWith (lit "y") base
    then setAdd (dropLast 1 base ++ lit "ies") variations
    else variations in
  let variations :=
    if includesChar 46 base then setAdd (removeChar 46%N base) variations
    else variations in
  let variations :=
    if includesChar 45 base
    then setAdd (removeChar 45%N base) (setAdd (replaceChar 45%N 32%N base) variations)
    else variations in
  let variations :=
    if includesChar 32 base
    then setAdd (replaceRuns (lit "-") false base)
                (setAdd (replaceRuns [] false base) variations)
    else variations in
  variations.

End Variations.

(** ** Statements of the specification, in its own words *)

Module Spec.
Import Js.
Import AtsEngine.

(** [clamp(lo, hi, x)]. *)
Definition clamp (lo hi x : Q) : Q := Qmin hi (Qmax lo x).

(** The weighted sum of the five sub-scores. *)
Definition weightedSum (c : ComponentScores) : Q :=
  0.55 * skillMatch c + 0.18 * requiredMatch c + 0.10 * demonstration c
  + 0.10 * structure c + 0.07 * metrics c.

(** The additive bonuses: up to +12 for the strong matches (0.8 each), up
    to +8 for the partial ones (0.5 each), +5 when both a skills and an
    experience section exist, +3 when metrics are present. *)
Definition bonuses (mr : MatchResults) : Q :=
  Qmin 12 (0.8 * num (List.length (strongMatch (matches mr))))
  + Qmin 8 (0.5 * num (List.length (partialMatch (matches mr))))
  + (if truthy (sectionText "skills" (sections mr))
        && truthy (sectionText "experience" (sections mr)) then 5 else 0)
  + (if hasMetrics (resumeMetrics mr) then 3 else 0).

(** Weighted sum, times 100, times 1.4, floor at 20, bonuses, then round
    and cap at 100. *)
Definition scorePipeline (mr : MatchResults) : Z :=
  Z.min 100
    (round (Qmax 20 (1.4 * (100 * weightedSum (componentScoresOf mr))) + bonuses mr)).

(** ASCII punctuation: the printable characters that are neither letters,
    digits nor the space. *)
Definition isAsciiPunctuation (c : char) : bool :=
  (inRange 33 47 c || inRange 58 64 c || inRange 91 96 c || inRange 123 126 c)%bool.

(** What the text normaliser lets through: word characters, the space and
    the technical punctuation. *)
Definition isAllowed (c : char) : bool :=
  (isWordChar c || N.eqb c SP || Nlp.isTechnicalPunct c)%bool.

(** No two white-space code units in a row. *)
Fixpoint noWsRun (s : str) : bool :=
  match s with
  | a :: (b :: _) as t => negb (isWhiteSpace a && isWhiteSpace b) && noWsRun t
  | _ => true
  end.

(** White-space collapsed: white space occurs as single spaces between
    other characters only. *)
Definition whitespaceCollapsed (s : str) : bool :=
  forallb (fun c => negb (isWhiteSpace c) || N.eqb c SP) s
  && noWsRun s
  && match s with c :: _ => negb (isWhiteSpace c) | [] => true end
  && match rev s with c :: _ => negb (isWhiteSpace c) | [] => true end.

(** The lines of an experience section that are kept, in order: a title
    line always, a bullet line once a title line has been seen, stripped
    of its leading markers. *)
Inductive Line :=
| TitleLine (s : str)
| BulletLine (s : str).

Fixpoint retained (seenTitle : bool) (lines : list str) : list Line :=
  match lines with
  | [] => []
  | l :: rest =>
      if SectionDetector.isJobTitleLine l then TitleLine l :: retained true rest
      else if seenTitle && SectionDetector.isBulletPoint l
           then BulletLine (SectionDetector.cleanBullet l) :: retained seenTitle rest
      else retained seenTitle rest
  end.

(** A title line has been met: a job is open. *)
Definition seenTitle (st : SectionDetector.ParseState) : bool :=
  match SectionDetector.currentJob st with Some _ => true | None => false end.

(** The jobs returned, read as a sequence of lines. *)
Definition linesOf (jobs : list SectionDetector.Job) : list Line :=
  List.concat (map (fun j => TitleLine (SectionDetector.title j)
                        :: map BulletLine (SectionDetector.bullets j)) jobs).

(** The terms of a match result, bucket after bucket. *)
Definition bucketTerms (m : Matches) : list str :=
  map Strong.jdTerm (strongMatch m) ++ map Partial.jdTerm (partialMatch m)
  ++ map Missing.term (missing m).

Definition totalCount (m : Matches) : nat :=
  (List.length (strongMatch m) + List.length (partialMatch m)
   + List.length (missing m))%nat.

Definition requiredCount (m : Matches) : nat :=
  (count Strong.isRequired (strongMatch m) + count Partial.isRequired (partialMatch m)
   + count Missing.isRequired (missing m))%nat.

(** The set a term found at index [i] is put in: the preferred one when
    its context holds a preference indicator and no requirement
    indicator, the required one otherwise. *)
Definition goesToPreferred (lowerText t : str) (i : nat) : bool :=
  let context := contextOf lowerText (toLowerCase t) i in
  negb (hasIndicator requiredIndicators context)
  && hasIndicator preferredIndicators context.

Section Filing.

Variable compareTwoStrings : str -> str -> Q.

(** The typo-tolerant match of a job-description term, and the match the
    loop classifies it by. *)
Definition bestOf (jd : Term) (all : list str) : Spellcheck.TypoMatch :=
  Spellcheck.findBestMatchWithTypoTolerance compareTwoStrings (term jd) all 0.70.

Definition finalOf (jd : Term) (all : list str) : Nlp.Match :=
  finalMatchOf compareTwoStrings (bestOf jd all) (term jd) all.

(** The record a term is filed under. *)
Definition strongRecord (jd : Term) (all explicit : list str) (inExp : bool) : Strong.t :=
  Strong.mk (term jd) (Nlp.match_ (finalOf jd all)) (Nlp.score (finalOf jd all))
            (weight jd) (isRequired jd)
            (includesTerm (Nlp.match_ (finalOf jd all)) explicit) inExp
            (Spellcheck.corrected (bestOf jd all) || false).

Definition partialRecord (jd : Term) (all : list str) : Partial.t :=
  Partial.mk (term jd) (Nlp.match_ (finalOf jd all)) (Nlp.score (finalOf jd all))
             (weight jd) (isRequired jd)
             (Spellcheck.corrected (bestOf jd all) || false).

Definition missingRecord (jd : Term) : Missing.t :=
  Missing.mk (term jd) (weight jd) (isRequired jd) (isPreferred jd).

(** What one step of the matching loop does to the three buckets: the
    term goes to the strong bucket when its score reaches 0.65, to the
    partial one when it reaches 0.45 only, to the missing one otherwise. *)
Inductive Filed (all explicit : list str) (jobs : list SectionDetector.Job)
  (jd : Term) (m : Matches) : Matches -> Prop :=
| FiledStrong inExp :
    0.65 <= Nlp.score (finalOf jd all) ->
    isTermInExperience (Nlp.match_ (finalOf jd all)) jobs = Some inExp ->
    Filed all explicit jobs jd m
          (mkMatches (strongMatch m ++ [strongRecord jd all explicit inExp])
                     (partialMatch m) (missing m))
| FiledPartial :
    0.45 <= Nlp.score (finalOf jd all) ->
    Nlp.score (finalOf jd all) < 0.65 ->
    Filed all explicit jobs jd m
          (mkMatches (strongMatch m) (partialMatch m ++ [partialRecord jd all])
                     (missing m))
| FiledMissing :
    Nlp.score (finalOf jd all) < 0.45 ->
    Filed all explicit jobs jd m
          (mkMatches (strongMatch m) (partialMatch m)
                     (missing m ++ [missingRecord jd])).

End Filing.

(** A record of the strong or partial bucket names a resume term and has
    its score in the range of the bucket. *)
Definition strongOk (all : list str) (r : Strong.t) : Prop :=
  0.65 <= Strong.score r /\ exists s, Strong.resumeTerm r = Some s /\ In s all.

Definition partialOk (all : list str) (r : Partial.t) : Prop :=
  0.45 <= Partial.score r /\ Partial.score r < 0.65
  /\ exists s, Partial.resumeTerm r = Some s /\ In s all.

(** The names a detected section can bear. *)
Definition sectionNames : list str :=
  lit "header" :: map fst SectionDetector.SECTION_HEADERS.

(** The invariant of the loop of [detectSections]. *)
Definition detectOk (st : SectionDetector.DetectState) : Prop :=
  NoDup (map fst (SectionDetector.sections st))
  /\ Forall (fun e => In (fst e) sectionNames /\ truthy (snd e) = true) (SectionDetector.sections st)
  /\ In (SectionDetector.currentSection st) sectionNames
  /\ Forall (fun l => truthy l = true) (SectionDetector.currentContent st).

(** One of the three sections the structure score looks at is defined. *)
Definition hasCoreSection (secs : list (str * str)) : bool :=
  match objGet (lit "skills") secs, objGet (lit "experience") secs,
        objGet (lit "summary") secs with
  | None, None, None => false
  | _, _, _ => true
  end.

(** The sections [matchResumeToJD] works with: the detected ones, or, when
    at most one was detected, these with the whole text as experience and
    as skills. *)
Definition sectionsWithFallback (resumeText : str) : list (str * str) :=
  let sections := SectionDetector.detectSections resumeText in
  if (List.length sections <=? 1)%nat
  then objSet (lit "skills") resumeText (objSet (lit "experience") resumeText sections)
  else sections.

(** The last row of the matrix of [levenshteinDistance]. *)
Definition lastRow (str1 str2 : str) : list nat :=
  Spellcheck.rowsFrom 1 str1 str2 (seq 0 (S (List.length str2))).

(** One cell of the matrix from its three neighbours. *)
Definition cell (up left diag : nat) (c1 c2 : char) : nat :=
  Nat.min (Nat.min (up + 1) (left + 1)) (diag + if N.eqb c1 c2 then 0 else 1).

(** What [parseSkillsSection] lists: lower-case entries of 2 to 49 code
    units. *)
Definition listedSkill (s : str) : Prop :=
  (2 <= List.length s <= 49)%nat /\ toLowerCase s = s.

(** The keys every JavaScript object inherits that a lower-cased string
    can spell. An object literal answers a lookup of one of them with the
    inherited member instead of [undefined]; the tables of the program are
    modelled by their own keys, which is what they answer for every other
    string. *)
Definition inheritedKeys : list str := map lit ["constructor"; "__proto__"]%string.

Definition plainTerm (s : str) : bool :=
  negb (mem (trim (toLowerCase s)) inheritedKeys).

(** The resume terms the matching loop compares with. *)
Definition resumeTermsOf (extractSkills extractPhrases : str -> list str)
  (resumeText : str) : list str :=
  filter (fun t => truthy t && (2 <? List.length t)%nat)
         (map Nlp.normalizeSkill (extractSkills resumeText ++ extractPhrases resumeText)).

(** A string that [toLowerCase] leaves as it is. *)
Definition isLowerCase (s : str) : Prop := toLowerCase s = s.

(** What the steps of [getSkillVariations] keep: the first variation is
    the lower-cased skill, no variation occurs twice, all are in lower
    case. *)
Definition variationsOk (skill : str) (vs : list str) : Prop :=
  hd_error vs = Some (toLowerCase skill) /\ NoDup vs /\ Forall isLowerCase vs.

(** The value the scoring pipeline reaches before it is rounded: the
    weighted sum of the five sub-scores times 100 times 1.4, floored at
    20, plus the bonuses, capped at 100. *)
Definition scoreBeforeRounding (mr : MatchResults) : Q :=
  Qmin 100 (Qmax 20 (1.4 * (100 * weightedSum (componentScoresOf mr))) + bonuses mr).

(** A value whose rounding the last bits of a double cannot change: it is
    at least a thousandth away from the next half-integer on either
    side.  The program computes in doubles, a few units of 1e-13 off the
    exact value at most; elsewhere its rounding is that of the exact
    value. *)
Definition awayFromTie (x : Q) : Prop :=
  0.001 <= x + (1 # 2) - inject_Z (Qfloor (x + (1 # 2)))
  /\ x + (1 # 2) - inject_Z (Qfloor (x + (1 # 2))) <= 0.999.

(** The order of the weighted terms: heaviest first. *)
Definition heavierFirst (a b : Term) : Prop := weight b <= weight a.

End Spec.

(** ** Concrete inputs *)

Module Examples.
Import Js.
Import AtsEngine.

(** A similarity coefficient that answers [q] for every pair. *)
Definition constSim (q : Q) : str -> str -> Q := fun _ _ => q.

Definition noTerms : str -> list str := fun _ => [].

Definition emptyMatches : Matches := mkMatches [] [] [].

(** A job-description term and a resume term with no letter in common. *)
Definition jdAbc : Term := mkTerm (lit "abc") (lit "abc") 0.1 true false 1.
Definition resumeXyz : list str := [lit "xyz"].

Definition jdPython : Term := mkTerm (lit "python") (lit "python") 0.3 true false 1.
Definition jdDocker : Term := mkTerm (lit "docker") (lit "docker") 0.1 false true 1.
Definition jdKubernetes : Term :=
  mkTerm (Nlp.normalizeSkill (lit "Kubernetes")) (lit "Kubernetes") 0.3 true false 1.

(** One missing required term, no section. *)
Definition oneMissing : MatchResults :=
  mkMatchResults (mkMatches [] [] [Missing.mk (lit "docker") 0.3 true false])
                 [] [] [] (mkResumeMetrics false 0 0).

(** A job description without required terms. *)
Definition jdNoRequired : JdAnalysis := mkJdAnalysis [] [] [jdDocker] [] [lit "docker"].

(** A job description naming Python2 as a bonus first and Python3 as a
    requirement more than a hundred characters later. *)
Definition jdPythonTwice : str :=
  lit ("Python2 is a plus. "
       ++ "Our group ships backend systems for logistics partners across many "
       ++ "regions and time zones every single week. "
       ++ "Our group ships backend systems for logistics partners across many "
       ++ "regions and time zones every single week. "
       ++ "Python3 is required.")%string.

(** A short job description and the terms the extractor is taken to
    find in it. *)
Definition jdShort : str := lit "Required: Python, 5+ years experience. AWS preferred.".
Definition skillsPythonAws : str -> list str := fun _ => [lit "python"; lit "aws"].
Definition weightedPython : Term := mkTerm (lit "python") (lit "python") 0.3 true false 1.

(** A resume whose extracted terms hold the typo. *)
Definition resumeTypo : str := lit "Deployed services on kuberntes clusters".
Definition skillsTypo : str -> list str := fun _ => [lit "services"; lit "kuberntes"].
Definition jdOnlyKubernetes : JdAnalysis :=
  mkJdAnalysis [lit "kubernetes"] [] [jdKubernetes] [lit "kubernetes"] [].

(** A job description whose only term is written with two spaces. *)
Definition jdTwoSpaces : str := lit "machine  learning".

(** An experience section: a bullet before any title, a title, a bullet,
    a plain line, a numbered bullet. *)
Definition experienceExample : str :=
  join [LF] (map lit ["* early bullet"; "Software Engineer | Acme 2020";
                      "- Built services using Python"; "plain line";
                      "  2. Improved latency by 40%"]%string).

Definition jobExample : SectionDetector.Job :=
  SectionDetector.mkJob (lit "Software Engineer | Acme 2020")
                        [lit "Built services using Python"; lit "Improved latency by 40%"].

End Examples.

(** ** More concrete inputs *)

Module Samples.
Import Js.
Import AtsEngine.

(** A resume with a summary and an education section and nothing else. *)
Definition resumeSummaryOnly : str :=
  join [LF] (map lit ["Summary"; "Backend developer"; "Education";
                      "BSc in Physics"]%string).

(** A resume without any section header. *)
Definition resumePlain : str := lit "Built xyzzyx pipelines for 30 clients".

Definition jdDockerText : str := lit "Docker required".

(** An extractor that finds "docker" in the job description above and
    "xyzzyx" in any other text. *)
Definition skillsByText : str -> list str :=
  fun text => if eqb text jdDockerText then [lit "docker"] else [lit "xyzzyx"].

(** A job description whose only term is one edit away from "dockers". *)
Definition jdOnlyDocker : JdAnalysis :=
  mkJdAnalysis [lit "docker"] [] [Examples.jdDocker] [] [lit "docker"].

Definition skillsDockers : str -> list str := fun _ => [lit "Dockers"].

(** Match results with a required missing term, a strong match listed but
    not demonstrated, and a required partial match. *)
Definition mixedResults : MatchResults :=
  mkMatchResults
    (mkMatches
       [Strong.mk (lit "python") (Some (lit "python")) 1 0.3 true true false false]
       [Partial.mk (lit "react") (Some (lit "preact")) 0.5 0.3 true false]
       [Missing.mk (lit "docker") 0.3 true false])
    [(lit "skills", lit "python, preact")] [] [lit "python"; lit "preact"]
    (mkResumeMetrics false 2 2).

Definition noVerbs : str -> list str := fun _ => [].

(** Match results whose exact score before rounding is 97.5: one strong
    match that is demonstrated, one missing term that is not required,
    a skills and an experience section, no metrics. *)
Definition tieResults : MatchResults :=
  mkMatchResults
    (mkMatches
       [Strong.mk (lit "python") (Some (lit "python")) 1 0.3 true true true false]
       []
       [Missing.mk (lit "docker") 0.1 false true])
    [(lit "skills", lit "python"); (lit "experience", lit "- Built python tools")]
    [] [lit "python"] (mkResumeMetrics false 1 1).

End Samples.

(** ** Proof steps *)

Module Tactics.

(** Decides the comparisons of a goal one by one. *)
Ltac decide_comparisons :=
  repeat match goal with
         | |- context [N.eqb ?a ?b] =>
             first [ rewrite (proj2 (N.eqb_neq a b)) by lia
                   | rewrite (proj2 (N.eqb_eq a b)) by lia ]
         | |- context [N.leb ?a ?b] =>
             first [ rewrite (proj2 (N.leb_gt a b)) by lia
                   | rewrite (proj2 (N.leb_le a b)) by lia ]
         end.

(** Checks a [Forall] over a concrete list, one element at a time. *)
Ltac each_plain :=
  repeat first [apply Forall_nil | apply Forall_cons; [vm_compute; reflexivity|]].

End Tactics.

(** * Properties *)

(** ** Basic facts on strings and numbers *)

Module Facts.
Import Js.

Lemma eqb_eq (a b : str) : eqb a b = true <-> a = b.
Proof.
  revert b; induction a as [|x a IH]; intros [|y b]; simpl; split;
    try congruence; try reflexivity.
  - intros H. apply andb_true_iff in H as [Hx Hab].
    apply N.eqb_eq in Hx. apply IH in Hab. congruence.
  - intros H. injection H as -> ->. rewrite N.eqb_refl. simpl. now apply IH.
Qed.

Lemma eqb_refl (a : str) : eqb a a = true.
Proof. now apply eqb_eq. Qed.

Lemma mem_In (x : str) (l : list str) : mem x l = true <-> In x l.
Proof.
  unfold mem. rewrite existsb_exists. split.
  - intros (y & Hy & E). apply eqb_eq in E. now subst.
  - intros H. exists x. split; [assumption | apply eqb_refl].
Qed.

Lemma mem_app (x : str) (l1 l2 : list str) : mem x (l1 ++ l2) = mem x l1 || mem x l2.
Proof. unfold mem. apply existsb_app. Qed.

Lemma Qltb_lt (a b : Q) : Qltb a b = true <-> a < b.
Proof.
  unfold Qltb. rewrite negb_true_iff, <- not_true_iff_false, Qle_bool_iff.
  split; [apply Qnot_le_lt | apply Qlt_not_le].
Qed.

Lemma Qltb_ge (a b : Q) : Qltb a b = false <-> b <= a.
Proof. unfold Qltb. rewrite negb_false_iff. apply Qle_bool_iff. Qed.

Lemma num_nonneg (n : nat) : 0 <= num n.
Proof. unfold num, Qle. simpl. lia. Qed.

Lemma num_pos (n : nat) : (0 < n)%nat -> 0 < num n.
Proof. unfold num, Qlt. simpl. lia. Qed.

Lemma num_le (n m : nat) : (n <= m)%nat -> num n <= num m.
Proof. unfold num, Qle. simpl. lia. Qed.

Lemma num_add (n m : nat) : num (n + m) == num n + num m.
Proof. unfold num. rewrite Nat2Z.inj_add, inject_Z_plus. reflexivity. Qed.

(** Rounding and capping at an integer commute. *)
Lemma round_cap (k : Z) (x : Q) : round (Qmin (inject_Z k) x) = Z.min k (round x).
Proof.
  unfold round.
  assert (Hk : Qfloor (inject_Z k + (1 # 2)) = k).
  { pose proof (Qfloor_le (inject_Z k + (1 # 2))) as Hlo.
    pose proof (Qlt_floor (inject_Z k + (1 # 2))) as Hhi.
    unfold Qle, Qlt in *. simpl in *. lia. }
  destruct (Qlt_le_dec x (inject_Z k)) as [Hlt | Hge].
  - assert (Hle : x <= inject_Z k) by now apply Qlt_le_weak.
    rewrite (Qfloor_comp _ _ (Qplus_comp _ _ (Q.min_r _ _ Hle) _ _ (Qeq_refl _))).
    symmetry. apply Z.min_r. rewrite <- Hk. apply Qfloor_resp_le.
    now apply Qplus_le_l.
  - rewrite (Qfloor_comp _ _ (Qplus_comp _ _ (Q.min_l _ _ Hge) _ _ (Qeq_refl _))).
    rewrite Hk. symmetry. apply Z.min_l. rewrite <- Hk at 1. apply Qfloor_resp_le.
    now apply Qplus_le_l.
Qed.

End Facts.

(** ** Score calculation *)

Module ScoreProps.
Import Js.
Import AtsEngine.
Import Spec.
Import Facts.

Lemma weightedAverage_sum (c : ComponentScores) : weightedAverage c == weightedSum c.
Proof. unfold weightedAverage, weightedSum, WEIGHTS. cbn [fold_left fst snd]. ring. Qed.

Lemma strong_bonus (n : nat) (score : Q) :
  (if (0 <? n)%nat then score + Qmin 12 (num n * 0.8) else score)
  == score + Qmin 12 (0.8 * num n).
Proof.
  destruct n as [|n]; cbn [Nat.ltb Nat.leb].
  - assert (E : Qmin 12 (0.8 * num 0) == 0) by reflexivity. rewrite E. ring.
  - rewrite (Qmult_comm (num (S n))). reflexivity.
Qed.

Lemma partial_bonus (n : nat) (score : Q) :
  (if (0 <? n)%nat then score + Qmin 8 (num n * 0.5) else score)
  == score + Qmin 8 (0.5 * num n).
Proof.
  destruct n as [|n]; cbn [Nat.ltb Nat.leb].
  - assert (E : Qmin 8 (0.5 * num 0) == 0) by reflexivity. rewrite E. ring.
  - rewrite (Qmult_comm (num (S n))). reflexivity.
Qed.

Lemma bonuses_nonneg (mr : MatchResults) : 0 <= bonuses mr.
Proof.
  unfold bonuses.
  assert (H1 : forall n, 0 <= Qmin 12 (0.8 * num n)).
  { intros n. apply Q.min_glb; [discriminate|].
    apply Qmult_le_0_compat; [discriminate | apply num_nonneg]. }
  assert (H2 : forall n, 0 <= Qmin 8 (0.5 * num n)).
  { intros n. apply Q.min_glb; [discriminate|].
    apply Qmult_le_0_compat; [discriminate | apply num_nonneg]. }
  specialize (H1 (List.length (strongMatch (matches mr)))).
  specialize (H2 (List.length (partialMatch (matches mr)))).
  assert (H3 : 0 <= (if truthy (sectionText "skills" (sections mr))
        && truthy (sectionText "experience" (sections mr)) then 5 else 0))
    by (destruct (_ && _); discriminate).
  assert (H4 : 0 <= (if hasMetrics (resumeMetrics mr) then 3 else 0))
    by (destruct (hasMetrics _); discriminate).
  lra.
Qed.

(** The four bonus steps, as the code accumulates them. *)
Lemma accumulate_bonuses (base : Q) (n1 n2 : nat) (c3 c4 : bool) :
  (let s1 := if (0 <? n1)%nat then base + Qmin 12 (num n1 * 0.8) else base in
   let s2 := if (0 <? n2)%nat then s1 + Qmin 8 (num n2 * 0.5) else s1 in
   let s3 := if c3 then s2 + 5 else s2 in
   if c4 then s3 + 3 else s3)
  == base + (Qmin 12 (0.8 * num n1) + Qmin 8 (0.5 * num n2)
             + (if c3 then 5 else 0) + (if c4 then 3 else 0)).
Proof.
  cbv zeta.
  pose proof (strong_bonus n1 base) as E1.
  set (s1 := if (0 <? n1)%nat then _ else base) in *.
  pose proof (partial_bonus n2 s1) as E2.
  set (s2 := if (0 <? n2)%nat then _ else s1) in *.
  destruct c3, c4; lra.
Qed.

(** The score before rounding, as the code accumulates it, is the floored
    base plus the bonuses. *)
Lemma calculateATSScore_pipeline (mr : MatchResults) :
  calculateATSScore mr = scorePipeline mr.
Proof.
  unfold calculateATSScore, scorePipeline. cbv zeta.
  change (Qmin 100) with (Qmin (inject_Z 100)).
  rewrite round_cap. f_equal. unfold round. apply Qfloor_comp.
  apply Qplus_comp; [|reflexivity].
  eapply Qeq_trans; [apply accumulate_bonuses|].
  apply Qplus_comp; [|reflexivity].
  eapply Qeq_trans; [apply Q.max_comm|].
  apply Q.max_compat; [reflexivity|].
  eapply Qeq_trans; [|apply Qmult_comp; [reflexivity|apply Qmult_comp; [reflexivity|apply weightedAverage_sum]]].
  ring.
Qed.

Lemma scorePipeline_range (mr : MatchResults) : (20 <= scorePipeline mr <= 100)%Z.
Proof.
  unfold scorePipeline. split; [|apply Z.le_min_l].
  apply Z.min_glb; [lia|].
  apply Z.le_trans with (round 20); [vm_compute; discriminate|].
  unfold round. apply Qfloor_resp_le.
  pose proof (bonuses_nonneg mr) as Hb.
  pose proof (Q.le_max_l 20 (1.4 * (100 * weightedSum (componentScoresOf mr)))) as Hm.
  lra.
Qed.

(** [calculateRequiredMatchScore]: the quotient never exceeds 1, so the
    lower bound alone clamps it. *)
Lemma required_ratio_le_1 (a b c : nat) :
  (0 < a + b + c)%nat -> (num a + num b * 0.75) / num (a + b + c) <= 1.
Proof.
  intros Hpos. apply Qle_shift_div_r; [now apply num_pos|].
  rewrite !num_add.
  pose proof (num_nonneg b). pose proof (num_nonneg c). lra.
Qed.

Lemma requiredMatch_formula (mr : MatchResults) :
  calculateRequiredMatchScore mr
  == if (requiredCount (matches mr) =? 0)%nat then 1
     else clamp 0.25 1
            ((num (count Strong.isRequired (strongMatch (matches mr)))
              + 0.75 * num (count Partial.isRequired (partialMatch (matches mr))))
             / num (requiredCount (matches mr))).
Proof.
  unfold calculateRequiredMatchScore, requiredCount.
  set (a := count Strong.isRequired _). set (b := count Partial.isRequired _).
  set (c := count Missing.isRequired _).
  destruct (a + b + c =? 0)%nat eqn:E; [reflexivity|].
  apply Nat.eqb_neq in E. unfold clamp.
  assert (Hraw : (num a + 0.75 * num b) / num (a + b + c)
                 == (num a + num b * 0.75) / num (a + b + c)).
  { apply Qdiv_comp; [ring | reflexivity]. }
  rewrite Hraw. rewrite Q.min_r; [reflexivity|].
  apply Q.max_lub; [discriminate|].
  apply required_ratio_le_1. lia.
Qed.

End ScoreProps.

(** ** The matching loop *)

Module MatchProps.
Import Js.
Import AtsEngine.
Import Spec.
Import Facts.

Lemma reduceBest_In (A : Type) (sc : A -> Q) (rest : list A) (first : A) :
  In (Nlp.reduceBest sc first rest) (first :: rest).
Proof.
  unfold Nlp.reduceBest. revert first.
  induction rest as [|c rest IH]; intros first; simpl; [now left|].
  destruct (Qltb (sc first) (sc c)).
  - destruct (IH c) as [E | HIn]; [right; left; exact E | right; right; exact HIn].
  - destruct (IH first) as [E | HIn]; [left; exact E | right; right; exact HIn].
Qed.

Lemma reduceBest_max (A : Type) (sc : A -> Q) (rest : list A) (first x : A) :
  In x (first :: rest) -> sc x <= sc (Nlp.reduceBest sc first rest).
Proof.
  unfold Nlp.reduceBest. revert first x.
  induction rest as [|c rest IH]; intros first x HIn.
  - destruct HIn as [<- | []]. simpl. apply Qle_refl.
  - simpl fold_left.
    destruct (Qltb (sc first) (sc c)) eqn:Hlt.
    + apply Qltb_lt in Hlt.
      destruct HIn as [<- | [<- | HIn]].
      * apply Qle_trans with (sc c); [now apply Qlt_le_weak|]. apply IH. now left.
      * apply IH. now left.
      * apply IH. now right.
    + apply Qltb_ge in Hlt.
      destruct HIn as [<- | [<- | HIn]].
      * apply IH. now left.
      * apply Qle_trans with (sc first); [assumption|]. apply IH. now left.
      * apply IH. now right.
Qed.

Section WithSimilarity.

Variable compareTwoStrings : str -> str -> Q.

Lemma findBestMatch_null (t : str) (all : list str) :
  Nlp.match_ (Nlp.findBestMatch compareTwoStrings t all) = None ->
  Nlp.findBestMatch compareTwoStrings t all = Nlp.mkMatch None 0.
Proof.
  unfold Nlp.findBestMatch. destruct all as [|a all]; simpl; [reflexivity|discriminate].
Qed.

(** A match whose score reaches the partial threshold names a resume
    term. *)
Lemma finalMatch_names_term (jd : Term) (all : list str) :
  Qle_bool PARTIAL_THRESHOLD (Nlp.score (finalOf compareTwoStrings jd all)) = true ->
  exists s, Nlp.match_ (finalOf compareTwoStrings jd all) = Some s.
Proof.
  unfold finalOf, finalMatchOf.
  destruct (Spellcheck.match_ (bestOf compareTwoStrings jd all)) as [s|] eqn:Hm.
  - destruct (truthy s); [intros _; exists s; reflexivity|].
    destruct (Nlp.match_ (Nlp.findBestMatch compareTwoStrings (term jd) all)) as [s'|] eqn:Hf;
      [intros _; now exists s'|].
    rewrite (findBestMatch_null _ _ Hf). simpl. discriminate.
  - destruct (Nlp.match_ (Nlp.findBestMatch compareTwoStrings (term jd) all)) as [s'|] eqn:Hf;
      [intros _; now exists s'|].
    rewrite (findBestMatch_null _ _ Hf). simpl. discriminate.
Qed.

Lemma strong_reaches_partial (s : Q) :
  Qle_bool STRONG_THRESHOLD s = true -> Qle_bool PARTIAL_THRESHOLD s = true.
Proof.
  rewrite !Qle_bool_iff. unfold STRONG_THRESHOLD, PARTIAL_THRESHOLD. intros H. lra.
Qed.

(** One step never raises and files the term in exactly one bucket. *)
Lemma below_threshold (t s : Q) : Qle_bool t s = false -> s < t.
Proof.
  intros H. apply Qnot_le_lt. intros Hle. apply Qle_bool_iff in Hle. congruence.
Qed.

Lemma matchTerm_files (all explicit : list str) (jobs : list SectionDetector.Job)
  (m : Matches) (jd : Term) :
  exists m', matchTerm compareTwoStrings all explicit jobs m jd = Some m'
             /\ Filed compareTwoStrings all explicit jobs jd m m'.
Proof.
  unfold matchTerm. fold (bestOf compareTwoStrings jd all). fold (finalOf compareTwoStrings jd all).
  destruct (Qle_bool STRONG_THRESHOLD (Nlp.score (finalOf compareTwoStrings jd all))) eqn:Hs.
  - destruct (finalMatch_names_term jd all (strong_reaches_partial _ Hs)) as [s Hsome].
    assert (Hexp : exists b, isTermInExperience (Nlp.match_ (finalOf compareTwoStrings jd all)) jobs = Some b).
    { rewrite Hsome. simpl. eauto. }
    destruct Hexp as [b Hb]. rewrite Hb.
    eexists. split; [reflexivity|].
    apply FiledStrong; [now apply Qle_bool_iff in Hs | assumption].
  - apply below_threshold in Hs.
    destruct (Qle_bool PARTIAL_THRESHOLD (Nlp.score (finalOf compareTwoStrings jd all))) eqn:Hp.
    + eexists. split; [reflexivity|].
      apply FiledPartial; [now apply Qle_bool_iff in Hp | assumption].
    + eexists. split; [reflexivity|].
      apply FiledMissing. now apply below_threshold in Hp.
Qed.

Lemma count_snoc (A : Type) (p : A -> bool) (l : list A) (x : A) :
  count p (l ++ [x]) = (count p l + if p x then 1 else 0)%nat.
Proof.
  unfold count. rewrite filter_app, length_app. simpl. now destruct (p x).
Qed.

Lemma Filed_total all explicit jobs jd m m' :
  Filed compareTwoStrings all explicit jobs jd m m' ->
  totalCount m' = S (totalCount m).
Proof.
  intros H; destruct H; unfold totalCount; simpl; rewrite length_app; simpl; lia.
Qed.

Lemma Filed_required all explicit jobs jd m m' :
  Filed compareTwoStrings all explicit jobs jd m m' ->
  requiredCount m' = (requiredCount m + if isRequired jd then 1 else 0)%nat.
Proof.
  intros H; destruct H; unfold requiredCount; simpl; rewrite count_snoc; simpl; lia.
Qed.

Lemma Filed_terms all explicit jobs jd m m' :
  Filed compareTwoStrings all explicit jobs jd m m' ->
  Permutation (bucketTerms m') (term jd :: bucketTerms m).
Proof.
  intros H; destruct H; unfold bucketTerms; simpl; rewrite map_app; simpl;
    rewrite <- ?app_assoc; simpl; symmetry.
  - apply Permutation_middle.
  - rewrite !app_assoc. apply Permutation_middle.
  - rewrite !app_assoc. apply Permutation_cons_append.
Qed.

(** The whole loop never raises; it files every term once. *)
Lemma matchTerms_files (all explicit : list str) (jobs : list SectionDetector.Job)
  (jds : list Term) (m : Matches) :
  exists m', matchTerms compareTwoStrings all explicit jobs m jds = Some m'
             /\ totalCount m' = (List.length jds + totalCount m)%nat
             /\ requiredCount m' = (count isRequired jds + requiredCount m)%nat
             /\ Permutation (bucketTerms m') (map term jds ++ bucketTerms m).
Proof.
  revert m. induction jds as [|jd jds IH]; intros m.
  - exists m. simpl. repeat split; reflexivity || apply Permutation_refl.
  - destruct (matchTerm_files all explicit jobs m jd) as (m1 & E1 & F1).
    destruct (IH m1) as (m' & E' & Ht & Hr & Hp).
    exists m'. simpl matchTerms. rewrite E1. split; [exact E'|].
    rewrite Ht, Hr, (Filed_total F1), (Filed_required F1).
    split; [simpl; lia|]. split.
    + unfold count at 2. simpl filter. destruct (isRequired jd); simpl; unfold count; lia.
    + eapply Permutation_trans; [exact Hp|].
      simpl. eapply Permutation_trans;
        [apply Permutation_app_head; exact (Filed_terms F1)|].
      symmetry. apply Permutation_middle.
Qed.

End WithSimilarity.

End MatchProps.

(** ** The weighted terms of a job description *)

Module TermProps.
Import Js.
Import AtsEngine.
Import Spec.
Import Facts.

Lemma insertByWeight_perm (x : Term) (l : list Term) :
  Permutation (insertByWeight x l) (x :: l).
Proof.
  induction l as [|y l IH]; simpl; [apply Permutation_refl|].
  destruct (Qltb (weight y) (weight x)); [apply Permutation_refl|].
  eapply Permutation_trans; [apply perm_skip; exact IH | apply perm_swap].
Qed.

Lemma sortByWeight_perm (l : list Term) : Permutation (sortByWeight l) l.
Proof.
  unfold sortByWeight.
  assert (H : forall acc, Permutation (fold_left (fun s x => insertByWeight x s) l acc)
                                      (l ++ acc)).
  { induction l as [|x l IH]; intros acc; simpl; [apply Permutation_refl|].
    eapply Permutation_trans; [apply IH|].
    eapply Permutation_trans;
      [apply Permutation_app_head; apply insertByWeight_perm|].
    symmetry. apply Permutation_middle. }
  specialize (H []). now rewrite app_nil_r in H.
Qed.

Lemma removeDuplicatesFrom_fresh (l : list Term) (seen : list str) (t : Term) :
  In t (removeDuplicatesFrom seen l) -> ~ In (term t) seen.
Proof.
  revert seen. induction l as [|x l IH]; intros seen; simpl; [tauto|].
  destruct (mem (term x) seen) eqn:Hm.
  - apply IH.
  - intros [<- | HIn].
    + intros H. apply mem_In in H. congruence.
    + intros H. apply (IH _ HIn). apply in_or_app. now left.
Qed.

Lemma removeDuplicatesFrom_NoDup (l : list Term) (seen : list str) :
  NoDup (map term (removeDuplicatesFrom seen l)).
Proof.
  revert seen. induction l as [|x l IH]; intros seen; simpl; [constructor|].
  destruct (mem (term x) seen); [apply IH|].
  simpl. constructor; [|apply IH].
  intros H. apply in_map_iff in H as (t & E & HIn).
  apply (removeDuplicatesFrom_fresh _ _ _ HIn). rewrite E.
  apply in_or_app. right. now left.
Qed.

Lemma removeDuplicatesFrom_sub (l : list Term) (seen : list str) (t : Term) :
  In t (removeDuplicatesFrom seen l) -> In t l.
Proof.
  revert seen. induction l as [|x l IH]; intros seen; simpl; [tauto|].
  destruct (mem (term x) seen).
  - intros H. right. now apply (IH seen).
  - intros [<- | H]; [now left | right; now apply (IH _ H)].
Qed.

Lemma removeDuplicatesFrom_keeps (l : list Term) (seen : list str) (t : Term) :
  In t l -> In (term t) seen \/ In (term t) (map term (removeDuplicatesFrom seen l)).
Proof.
  revert seen. induction l as [|x l IH]; intros seen; simpl; [tauto|].
  intros [-> | HIn].
  - destruct (mem (term t) seen) eqn:Hm; [left; now apply mem_In|right; now left].
  - destruct (mem (term x) seen) eqn:Hm; [now apply IH|].
    destruct (IH (seen ++ [term x]) HIn) as [H | H].
    + apply in_app_or in H as [H | [<- | []]]; [now left | right; now left].
    + right. now right.
Qed.

(** The weighted terms carry pairwise different normalised terms. *)
Lemma weighTerms_NoDup (jdText : str) (allTerms : list str) :
  NoDup (map term (weighTerms jdText allTerms)).
Proof.
  unfold weighTerms.
  eapply Permutation_NoDup;
    [symmetry; apply Permutation_map; apply sortByWeight_perm|].
  apply removeDuplicatesFrom_NoDup.
Qed.

(** Every weighted term is the weighting of an extracted term. *)
Lemma weighTerms_origin (jdText : str) (allTerms : list str) (w : Term) :
  In w (weighTerms jdText allTerms) ->
  exists t, In t allTerms
            /\ w = weighTerm jdText (Nlp.calculateTFIDF jdText)
                             (categorizeSkillImportance jdText allTerms) t.
Proof.
  unfold weighTerms. intros H.
  apply (Permutation_in _ (sortByWeight_perm _)) in H.
  apply removeDuplicatesFrom_sub in H.
  apply in_map_iff in H as (t & E & HIn). exists t. now split.
Qed.

(** The normalised form of every extracted term is among them. *)
Lemma weighTerms_covers (jdText : str) (allTerms : list str) (t : str) :
  In t allTerms ->
  In (Nlp.normalizeSkill t) (map term (weighTerms jdText allTerms)).
Proof.
  unfold weighTerms. intros HIn.
  eapply Permutation_in;
    [symmetry; apply Permutation_map; apply sortByWeight_perm|].
  set (imp := categorizeSkillImportance jdText allTerms).
  set (tfidf := Nlp.calculateTFIDF jdText).
  destruct (removeDuplicatesFrom_keeps (map (weighTerm jdText tfidf imp) allTerms) []
              (weighTerm jdText tfidf imp t)) as [[] | H].
  - now apply in_map.
  - exact H.
Qed.

End TermProps.

(** ** The analysis as a whole *)

Module AnalysisProps.
Import Js.
Import AtsEngine.
Import Spec.
Import Facts.
Import MatchProps.

Section WithLibraries.

Variable compareTwoStrings : str -> str -> Q.
Variable extractSkills : str -> list str.
Variable extractPhrases : str -> list str.

(** [matchResumeToJD] never raises, and files every weighted term. *)
Lemma matchResumeToJD_files (resumeText : str) (jdAnalysis : JdAnalysis) :
  exists mr,
    matchResumeToJD compareTwoStrings extractSkills extractPhrases resumeText jdAnalysis
    = Some mr
    /\ totalCount (matches mr) = List.length (weightedTerms jdAnalysis)
    /\ requiredCount (matches mr) = count isRequired (weightedTerms jdAnalysis)
    /\ Permutation (bucketTerms (matches mr)) (map term (weightedTerms jdAnalysis)).
Proof.
  unfold matchResumeToJD.
  match goal with
  | |- context [matchTerms ?c ?a ?e ?j ?m ?l] =>
      destruct (matchTerms_files c a e j l m) as (m' & E & Ht & Hr & Hp); rewrite E
  end.
  eexists. split; [reflexivity|]. simpl.
  rewrite Ht, Hr. unfold totalCount, requiredCount, count. simpl.
  rewrite !Nat.add_0_r. repeat split.
  eapply Permutation_trans; [exact Hp|]. unfold bucketTerms. simpl.
  now rewrite app_nil_r.
Qed.

End WithLibraries.

End AnalysisProps.

(** ** Typo-tolerant matching *)

Module TypoProps.
Import Js.
Import AtsEngine.
Import Spec.
Import Facts.
Import MatchProps.

Section WithSimilarity.

Variable compareTwoStrings : str -> str -> Q.

(** The best score dominates the score of every candidate. *)
Lemma typo_best_score (t : str) (all : list str) (th : Q) (x : str) :
  In x all ->
  Spellcheck.candidateScore compareTwoStrings
    (toLowerCase (Spellcheck.autocorrectSkill t)) x
  <= Spellcheck.score (Spellcheck.findBestMatchWithTypoTolerance compareTwoStrings t all th).
Proof.
  intros HIn. unfold Spellcheck.findBestMatchWithTypoTolerance.
  set (f := fun skill => (skill, Spellcheck.candidateScore compareTwoStrings
                                   (toLowerCase (Spellcheck.autocorrectSkill t)) skill)).
  assert (Hx : In (f x) (map f all)) by now apply in_map.
  destruct (map f all) as [|first rest]; [destruct Hx|].
  simpl. apply (@reduceBest_max _ snd rest first (f x) Hx).
Qed.

(** The term reported is one of the candidates. *)
Lemma typo_best_in (t : str) (all : list str) (th : Q) (s : str) :
  Spellcheck.match_ (Spellcheck.findBestMatchWithTypoTolerance compareTwoStrings t all th)
  = Some s ->
  In s all.
Proof.
  unfold Spellcheck.findBestMatchWithTypoTolerance.
  set (f := fun skill => (skill, Spellcheck.candidateScore compareTwoStrings
                                   (toLowerCase (Spellcheck.autocorrectSkill t)) skill)).
  destruct (map f all) as [|first rest] eqn:E; simpl; [discriminate|].
  destruct (Qle_bool th _); [|discriminate].
  intros H. injection H as <-.
  pose proof (@reduceBest_In _ snd rest first) as HIn. rewrite <- E in HIn.
  apply in_map_iff in HIn as (y & Ey & Hy). rewrite <- Ey. exact Hy.
Qed.

(** The flag tells whether autocorrection changed the target, and nothing
    else. *)
Lemma typo_corrected (t : str) (all : list str) (th : Q) :
  Spellcheck.corrected (Spellcheck.findBestMatchWithTypoTolerance compareTwoStrings t all th)
  = match all with
    | [] => false
    | _ => negb (eqb (Spellcheck.autocorrectSkill t) t)
    end.
Proof.
  unfold Spellcheck.findBestMatchWithTypoTolerance. destruct all; reflexivity.
Qed.

Lemma Filed_incl all explicit jobs jd m m' :
  Filed compareTwoStrings all explicit jobs jd m m' ->
  incl (strongMatch m) (strongMatch m') /\ incl (partialMatch m) (partialMatch m')
  /\ incl (missing m) (missing m').
Proof.
  intros H; destruct H; simpl; repeat split;
    try apply incl_refl; apply incl_appl; apply incl_refl.
Qed.

Lemma matchTerms_incl all explicit jobs jds m m' :
  matchTerms compareTwoStrings all explicit jobs m jds = Some m' ->
  incl (strongMatch m) (strongMatch m') /\ incl (partialMatch m) (partialMatch m')
  /\ incl (missing m) (missing m').
Proof.
  revert m. induction jds as [|jd jds IH]; intros m; simpl.
  - intros H. injection H as <-. repeat split; apply incl_refl.
  - destruct (matchTerm_files compareTwoStrings all explicit jobs m jd) as (m1 & E & F).
    rewrite E. intros H. destruct (IH _ H) as (H1 & H2 & H3).
    destruct (Filed_incl F) as (F1 & F2 & F3).
    repeat split; eapply incl_tran; eassumption.
Qed.

(** Every term of the list is filed by its own score. *)
Lemma matchTerms_filed all explicit jobs jds m m' jd :
  matchTerms compareTwoStrings all explicit jobs m jds = Some m' ->
  In jd jds ->
  0.65 <= Nlp.score (finalOf compareTwoStrings jd all) ->
  exists inExp,
    In (strongRecord compareTwoStrings jd all explicit inExp) (strongMatch m').
Proof.
  revert m. induction jds as [|x jds IH]; intros m; simpl; [tauto|].
  destruct (matchTerm_files compareTwoStrings all explicit jobs m x) as (m1 & E & F).
  rewrite E. intros H [-> | HIn] Hs.
  - destruct (matchTerms_incl _ _ _ _ _ H) as (H1 & _).
    destruct F as [inExp _ _ | _ Hlt | Hlt]; [|lra|lra].
    exists inExp. apply H1. simpl. apply in_or_app. right. now left.
  - now apply (IH m1).
Qed.

(** Where the records of the strong and partial buckets come from. *)
Lemma matchTerms_origin all explicit jobs jds m m' :
  matchTerms compareTwoStrings all explicit jobs m jds = Some m' ->
  (forall r, In r (strongMatch m') ->
     In r (strongMatch m)
     \/ exists jd inExp, In jd jds /\ r = strongRecord compareTwoStrings jd all explicit inExp)
  /\ (forall r, In r (partialMatch m') ->
        In r (partialMatch m)
        \/ exists jd, In jd jds /\ r = partialRecord compareTwoStrings jd all).
Proof.
  revert m. induction jds as [|x jds IH]; intros m; simpl.
  - intros H. injection H as <-. split; intros r Hr; now left.
  - destruct (matchTerm_files compareTwoStrings all explicit jobs m x) as (m1 & E & F).
    rewrite E. intros H. destruct (IH _ H) as (Hs & Hp).
    split; intros r Hr.
    + destruct (Hs r Hr) as [H1 | (jd & inExp & HIn & ->)].
      * destruct F as [inExp _ _ | _ _ | _]; simpl in H1; [|now left|now left].
        apply in_app_or in H1 as [H1 | [<- | []]]; [now left|].
        right. exists x, inExp. split; [now left|reflexivity].
      * right. exists jd, inExp. split; [now right|reflexivity].
    + destruct (Hp r Hr) as [H1 | (jd & HIn & ->)].
      * destruct F as [inExp _ _ | _ _ | _]; simpl in H1; [now left| |now left].
        apply in_app_or in H1 as [H1 | [<- | []]]; [now left|].
        right. exists x. split; [now left|reflexivity].
      * right. exists jd. split; [now right|reflexivity].
Qed.

(** The JD term "kubernetes" against a list that holds "kuberntes". *)
Lemma kubernetes_candidate :
  Spellcheck.candidateScore compareTwoStrings
    (toLowerCase (Spellcheck.autocorrectSkill (lit "kubernetes"))) (lit "kuberntes")
  = Qmax (compareTwoStrings (lit "kubernetes") (lit "kuberntes"))
         (1 - inject_Z 1 / inject_Z 10).
Proof. vm_compute. reflexivity. Qed.

Lemma kubernetes_final (jd : Term) (all : list str) :
  term jd = lit "kubernetes" ->
  In (lit "kuberntes") all ->
  Forall (fun t => truthy t = true) all ->
  0.9 <= Nlp.score (finalOf compareTwoStrings jd all)
  /\ Spellcheck.corrected (bestOf compareTwoStrings jd all) = false.
Proof.
  intros Ht HIn Hall.
  assert (Hscore : 0.9 <= Spellcheck.score (bestOf compareTwoStrings jd all)).
  { unfold bestOf. rewrite Ht.
    eapply Qle_trans; [|apply (typo_best_score (lit "kubernetes") all 0.70 _ HIn)].
    rewrite kubernetes_candidate.
    eapply Qle_trans; [|apply Q.le_max_r]. vm_compute. discriminate. }
  split.
  - unfold finalOf, finalMatchOf.
    destruct (Spellcheck.match_ (bestOf compareTwoStrings jd all)) as [s|] eqn:Hm.
    + assert (Hs : truthy s = true).
      { rewrite Forall_forall in Hall. apply Hall.
        apply (typo_best_in (term jd) all 0.70). exact Hm. }
      rewrite Hs. exact Hscore.
    + exfalso. revert Hm Hscore. unfold bestOf, Spellcheck.findBestMatchWithTypoTolerance.
      destruct (map _ all) as [|first rest]; simpl.
      * intros _ H. vm_compute in H. now apply H.
      * destruct (Qle_bool 0.70 _) eqn:Hth; [discriminate|].
        intros _ H. apply below_threshold in Hth. lra.
  - unfold bestOf. rewrite typo_corrected, Ht.
    destruct all; reflexivity.
Qed.

End WithSimilarity.

End TypoProps.

(** ** Required and preferred terms *)

Module ImportanceProps.
Import Js.
Import AtsEngine.
Import Spec.
Import Facts.

Lemma setAdd_mem (x y : str) (s : list str) :
  mem x (setAdd y s) = mem x s || eqb x y.
Proof.
  unfold setAdd. destruct (mem y s) eqn:Hy.
  - destruct (eqb x y) eqn:E; [|now rewrite orb_false_r].
    apply eqb_eq in E. subst. now rewrite Hy.
  - rewrite mem_app. simpl. now rewrite orb_false_r.
Qed.

Lemma categorizeTerm_keeps (lowerText : str) (acc : Importance) (t x : str) :
  (mem x (required acc) = true ->
   mem x (required (categorizeTerm lowerText acc t)) = true)
  /\ (mem x (preferred acc) = true ->
      mem x (preferred (categorizeTerm lowerText acc t)) = true).
Proof.
  unfold categorizeTerm.
  destruct (indexOf (toLowerCase t) lowerText) as [i|]; [|tauto].
  cbv zeta.
  destruct (hasIndicator requiredIndicators _);
    [|destruct (hasIndicator preferredIndicators _)];
    simpl; rewrite ?setAdd_mem; split; intros ->; reflexivity.
Qed.

Lemma categorize_keeps (lowerText : str) (terms : list str) (acc : Importance) (x : str) :
  (mem x (required acc) = true ->
   mem x (required (fold_left (categorizeTerm lowerText) terms acc)) = true)
  /\ (mem x (preferred acc) = true ->
      mem x (preferred (fold_left (categorizeTerm lowerText) terms acc)) = true).
Proof.
  revert acc. induction terms as [|t terms IH]; intros acc; simpl; [tauto|].
  destruct (IH (categorizeTerm lowerText acc t)) as [IHr IHp].
  destruct (categorizeTerm_keeps lowerText acc t x) as [Hr Hp].
  split; intros H; [apply IHr, Hr, H | apply IHp, Hp, H].
Qed.

Lemma categorizeTerm_adds (lowerText : str) (acc : Importance) (t : str) (i : nat) :
  indexOf (toLowerCase t) lowerText = Some i ->
  if goesToPreferred lowerText t i
  then mem (Nlp.normalizeSkill t) (preferred (categorizeTerm lowerText acc t)) = true
  else mem (Nlp.normalizeSkill t) (required (categorizeTerm lowerText acc t)) = true.
Proof.
  intros Hi. unfold categorizeTerm, goesToPreferred. rewrite Hi. cbv zeta.
  destruct (hasIndicator requiredIndicators _);
    [|destruct (hasIndicator preferredIndicators _)];
    simpl; rewrite setAdd_mem, eqb_refl; apply orb_true_r.
Qed.

Lemma categorize_adds (jdText : str) (terms : list str) (t : str) (i : nat) :
  In t terms ->
  indexOf (toLowerCase t) (toLowerCase jdText) = Some i ->
  if goesToPreferred (toLowerCase jdText) t i
  then mem (Nlp.normalizeSkill t) (preferred (categorizeSkillImportance jdText terms)) = true
  else mem (Nlp.normalizeSkill t) (required (categorizeSkillImportance jdText terms)) = true.
Proof.
  unfold categorizeSkillImportance. generalize (mkImportance [] []).
  induction terms as [|x terms IH]; intros acc HIn Hi; [destruct HIn|].
  simpl. destruct HIn as [-> | HIn]; [|now apply IH].
  pose proof (categorizeTerm_adds (toLowerCase jdText) acc t Hi) as H.
  destruct (goesToPreferred (toLowerCase jdText) t i).
  - now apply categorize_keeps.
  - now apply categorize_keeps.
Qed.

(** A term that is not found in the text changes nothing. *)
Lemma categorizeTerm_skips (lowerText : str) (acc : Importance) (t : str) :
  indexOf (toLowerCase t) lowerText = None -> categorizeTerm lowerText acc t = acc.
Proof. intros H. unfold categorizeTerm. now rewrite H. Qed.

End ImportanceProps.

(** ** Text normalisation *)

Module TextProps.
Import Js.
Import Nlp.
Import Spec.
Import Facts.

Lemma isWhiteSpace_SP : isWhiteSpace SP = true.
Proof. reflexivity. Qed.

Lemma replaceOthers_cons (c : char) (s : str) :
  replaceOthers (c :: s) = (if isKept c then c else SP) :: replaceOthers s.
Proof. reflexivity. Qed.

Lemma isKept_ws (c : char) : isWhiteSpace c = true -> isKept c = true.
Proof. intros H. unfold isKept. rewrite H. now rewrite orb_true_r. Qed.

Lemma replaceWsRuns_ws (b : bool) (c : char) (t : str) :
  isWhiteSpace c = true ->
  replaceWsRuns b (c :: t)
  = if b then replaceWsRuns true t else SP :: replaceWsRuns true t.
Proof. intros H. simpl. now rewrite H. Qed.

Lemma replaceWsRuns_other (b : bool) (c : char) (t : str) :
  isWhiteSpace c = false -> replaceWsRuns b (c :: t) = c :: replaceWsRuns false t.
Proof. intros H. simpl. now rewrite H. Qed.

(** Collapsing before the replacement is subsumed by collapsing after it. *)
Lemma collapse_replace_collapse (s : str) (b b' : bool) :
  (b' = true -> b = true) ->
  replaceWsRuns b (replaceOthers (replaceWsRuns b' s)) = replaceWsRuns b (replaceOthers s).
Proof.
  revert b b'. induction s as [|c s IH]; intros b b' Hb; [reflexivity|].
  rewrite (replaceOthers_cons c s).
  destruct (isWhiteSpace c) eqn:Hc.
  - rewrite (isKept_ws _ Hc), !(replaceWsRuns_ws _ _ _ Hc).
    destruct b'.
    + rewrite (Hb eq_refl). now apply IH.
    + rewrite replaceOthers_cons, (isKept_ws _ isWhiteSpace_SP).
      rewrite (replaceWsRuns_ws _ _ _ isWhiteSpace_SP).
      destruct b; [|f_equal]; now apply IH.
  - rewrite (replaceWsRuns_other _ _ _ Hc), replaceOthers_cons.
    destruct (isKept c).
    + rewrite !(replaceWsRuns_other _ _ _ Hc). f_equal. now apply IH.
    + rewrite !(replaceWsRuns_ws _ _ _ isWhiteSpace_SP).
      destruct b; [|f_equal]; apply IH; discriminate.
Qed.

(** On collapsed text the fourth replacement changes nothing. *)
Lemma boundary_after_collapse (s : str) (b prevWord inMatch : bool) :
  (inMatch = true -> b = true) ->
  replaceBoundaryWs prevWord inMatch (replaceWsRuns b s) = replaceWsRuns b s.
Proof.
  revert b prevWord inMatch. induction s as [|c s IH]; intros b pw im Hb; [reflexivity|].
  destruct (isWhiteSpace c) eqn:Hc.
  - rewrite (replaceWsRuns_ws _ _ _ Hc). destruct b.
    + now apply IH.
    + assert (im = false) as -> by (destruct im; [discriminate (Hb eq_refl)|reflexivity]).
      simpl. destruct pw; f_equal; now apply IH.
  - rewrite (replaceWsRuns_other _ _ _ Hc). simpl. rewrite Hc. f_equal. apply IH. discriminate.
Qed.

Lemma preprocessText_string (s : str) :
  preprocessText (VString s) = trim (replaceWsRuns false (replaceOthers s)).
Proof.
  unfold preprocessText. destruct s as [|c s]; [reflexivity|].
  cbn [truthy eqb negb].
  rewrite boundary_after_collapse by discriminate.
  now rewrite collapse_replace_collapse.
Qed.

(** *** What trimming keeps *)

Lemma dropWhile_suffix (p : char -> bool) (s : str) :
  exists pre, s = pre ++ dropWhile p s.
Proof.
  induction s as [|c s [pre IH]]; [now exists []|].
  simpl. destruct (p c); [|now exists []].
  exists (c :: pre). simpl. now f_equal.
Qed.

Lemma dropWhile_head (p : char -> bool) (s : str) :
  match dropWhile p s with c :: _ => p c = false | [] => True end.
Proof.
  induction s as [|c s IH]; simpl; [exact I|].
  destruct (p c) eqn:E; [exact IH | exact E].
Qed.

Lemma dropWhile_snoc (p : char -> bool) (s : str) (c : char) :
  p c = false -> dropWhile p (s ++ [c]) = dropWhile p s ++ [c].
Proof.
  intros Hc. induction s as [|x s IH]; simpl; [now rewrite Hc|].
  now destruct (p x).
Qed.

Lemma trimEnd_cons (c : char) (s : str) :
  isWhiteSpace c = false -> trimEnd (c :: s) = c :: trimEnd s.
Proof.
  intros Hc. unfold trimEnd. simpl rev.
  rewrite (dropWhile_snoc _ _ _ Hc), rev_app_distr. reflexivity.
Qed.

(** The trimmed text is a segment of the text. *)
Lemma trim_segment (s : str) : exists pre post, s = pre ++ trim s ++ post.
Proof.
  unfold trim, trimEnd, trimStart.
  destruct (dropWhile_suffix isWhiteSpace s) as [pre Hpre].
  destruct (dropWhile_suffix isWhiteSpace (rev (dropWhile isWhiteSpace s))) as [post Hpost].
  exists pre, (rev post).
  rewrite <- rev_app_distr, <- Hpost, rev_involutive. exact Hpre.
Qed.

Lemma trim_ends (s : str) :
  match trim s with c :: _ => isWhiteSpace c = false | [] => True end
  /\ match rev (trim s) with c :: _ => isWhiteSpace c = false | [] => True end.
Proof.
  unfold trim, trimStart. split.
  - pose proof (dropWhile_head isWhiteSpace s) as H.
    destruct (dropWhile isWhiteSpace s) as [|c t]; [exact I|].
    now rewrite (trimEnd_cons _ _ H).
  - unfold trimEnd. rewrite rev_involutive. apply dropWhile_head.
Qed.

Lemma noWsRun_spec (s : str) :
  noWsRun s = true
  <-> forall l1 a b l2, s = l1 ++ a :: b :: l2 -> isWhiteSpace a && isWhiteSpace b = false.
Proof.
  induction s as [|x s IH].
  - split; [|reflexivity]. intros _ [|? ?] a b l2 H; discriminate H.
  - destruct s as [|y s].
    + split; [|reflexivity].
      intros _ [|? [|? ?]] a b l2 H; discriminate H.
    + change (noWsRun (x :: y :: s))
        with (negb (isWhiteSpace x && isWhiteSpace y) && noWsRun (y :: s)).
      rewrite andb_true_iff, negb_true_iff, IH. split.
      * intros [Hxy Hrest] [|z l1] a b l2 H.
        -- injection H as -> -> _. exact Hxy.
        -- injection H as _ H. exact (Hrest l1 a b l2 H).
      * intros H. split.
        -- exact (H [] x y s eq_refl).
        -- intros l1 a b l2 E. apply (H (x :: l1) a b l2). simpl. now f_equal.
Qed.

Lemma noWsRun_segment (pre s post : str) :
  noWsRun (pre ++ s ++ post) = true -> noWsRun s = true.
Proof.
  rewrite !noWsRun_spec. intros H l1 a b l2 E.
  apply (H (pre ++ l1) a b (l2 ++ post)). rewrite E.
  rewrite <- !app_assoc. reflexivity.
Qed.

(** *** What collapsing produces *)

Lemma collapsed_noWsRun (s : str) (b : bool) :
  noWsRun (replaceWsRuns b s) = true
  /\ (b = true ->
      match replaceWsRuns b s with c :: _ => isWhiteSpace c = false | [] => True end).
Proof.
  revert b. induction s as [|c s IH]; intros b; [split; [reflexivity | intros _; exact I]|].
  simpl. destruct (isWhiteSpace c) eqn:Hc.
  - destruct b.
    + apply IH.
    + split; [|discriminate].
      destruct (IH true) as [Hrun Hhd]. specialize (Hhd eq_refl).
      destruct (replaceWsRuns true s) as [|d t]; [reflexivity|].
      change (negb (isWhiteSpace SP && isWhiteSpace d) && noWsRun (d :: t) = true).
      now rewrite Hhd, andb_false_r, Hrun.
  - split; [|intros _; exact Hc].
    destruct (IH false) as [Hrun _].
    destruct (replaceWsRuns false s) as [|d t]; [reflexivity|].
    change (negb (isWhiteSpace c && isWhiteSpace d) && noWsRun (d :: t) = true).
    now rewrite Hc, Hrun.
Qed.

Lemma collapsed_chars (P : char -> bool) (s : str) (b : bool) :
  P SP = true ->
  (forall c, In c s -> isWhiteSpace c = false -> P c = true) ->
  forallb P (replaceWsRuns b s) = true.
Proof.
  intros HSP. revert b. induction s as [|c s IH]; intros b H; [reflexivity|].
  simpl. destruct (isWhiteSpace c) eqn:Hc.
  - destruct b; simpl; rewrite ?HSP; apply IH; intros d Hd; apply H; now right.
  - simpl. rewrite (H c (or_introl eq_refl) Hc). apply IH. intros d Hd. apply H. now right.
Qed.

Lemma forallb_segment (P : char -> bool) (pre s post : str) :
  forallb P (pre ++ s ++ post) = true -> forallb P s = true.
Proof.
  rewrite !forallb_app, !andb_true_iff. tauto.
Qed.

Lemma replaceOthers_chars (s : str) (c : char) :
  In c (replaceOthers s) -> isWhiteSpace c = false ->
  isWordChar c || isTechnicalPunct c = true.
Proof.
  unfold replaceOthers. intros HIn Hc.
  apply in_map_iff in HIn as (x & E & _).
  destruct (isKept x) eqn:Hk; subst c; [|discriminate Hc].
  unfold isKept in Hk. rewrite Hc, orb_false_r in Hk. exact Hk.
Qed.

(** The normalised text is collapsed and holds allowed characters only. *)
Lemma preprocessText_shape (s : str) :
  whitespaceCollapsed (preprocessText (VString s)) = true
  /\ forallb isAllowed (preprocessText (VString s)) = true.
Proof.
  rewrite preprocessText_string.
  set (y := replaceWsRuns false (replaceOthers s)).
  destruct (trim_segment y) as (pre & post & Hy).
  destruct (trim_ends y) as [Hhd Hlast].
  assert (Hrun : noWsRun (trim y) = true).
  { apply (noWsRun_segment pre _ post). rewrite <- Hy. apply collapsed_noWsRun. }
  assert (Hsp : forallb (fun c => negb (isWhiteSpace c) || N.eqb c SP) (trim y) = true).
  { apply (forallb_segment _ pre _ post). rewrite <- Hy.
    apply collapsed_chars; [reflexivity|]. intros c _ ->. reflexivity. }
  assert (Hal : forallb isAllowed (trim y) = true).
  { apply (forallb_segment _ pre _ post). rewrite <- Hy.
    apply collapsed_chars; [reflexivity|]. intros c Hc Hws.
    pose proof (replaceOthers_chars _ _ Hc Hws) as H. unfold isAllowed.
    apply orb_true_iff in H as [H | H]; rewrite H; [reflexivity|apply orb_true_r]. }
  split; [|exact Hal].
  unfold whitespaceCollapsed. rewrite Hsp, Hrun. cbn [andb].
  apply andb_true_iff; split.
  - destruct (trim y); [reflexivity | now rewrite Hhd].
  - destruct (rev (trim y)); [reflexivity | now rewrite Hlast].
Qed.

End TextProps.

(** ** The experience section *)

Module ExperienceProps.
Import Js.
Import SectionDetector.
Import Spec.
Import Facts.

Lemma linesOf_app (a b : list Job) : linesOf (a ++ b) = linesOf a ++ linesOf b.
Proof. unfold linesOf. now rewrite map_app, concat_app. Qed.

Lemma linesOf_one (j : Job) :
  linesOf [j] = TitleLine (title j) :: map BulletLine (bullets j).
Proof. unfold linesOf. simpl. now rewrite app_nil_r. Qed.

(** The loop invariant: the jobs built so far, the open one included, read
    as the lines retained so far. *)
Lemma parseLines_retained (lines : list str) (st : ParseState) :
  linesOf (pushCurrent (fold_left parseLine lines st))
  = linesOf (pushCurrent st) ++ retained (seenTitle st) (map trim lines).
Proof.
  revert st. induction lines as [|l lines IH]; intros st.
  - simpl. now rewrite app_nil_r.
  - simpl fold_left. rewrite IH. simpl map. simpl retained.
    unfold parseLine.
    destruct (isJobTitleLine (trim l)) eqn:Ht.
    + unfold pushCurrent at 1. cbn [currentJob jobs seenTitle].
      rewrite linesOf_app, linesOf_one. cbn [title bullets map].
      now rewrite <- app_assoc.
    + unfold seenTitle at 2. destruct (currentJob st) as [job|] eqn:Hj.
      * destruct (isBulletPoint (trim l)) eqn:Hb.
        -- unfold pushCurrent, seenTitle. cbn [currentJob jobs andb]. rewrite Hj.
           rewrite !linesOf_app, !linesOf_one. cbn [title bullets].
           rewrite map_app. cbn [map]. rewrite <- !app_assoc.
           f_equal. simpl. f_equal. now rewrite <- app_assoc.
        -- unfold seenTitle. now rewrite Hj.
      * unfold seenTitle. now rewrite Hj.
Qed.

(** A cleaned bullet does not start with a marker. *)
Lemma cleanBullet_head (b : str) :
  match cleanBullet b with c :: _ => isBulletLead c = false | [] => True end.
Proof.
  unfold cleanBullet.
  pose proof (TextProps.dropWhile_head isBulletLead b) as H.
  destruct (dropWhile isBulletLead b) as [|c t]; [exact I|].
  assert (Hws : isWhiteSpace c = false).
  { unfold isBulletLead in H. destruct (isWhiteSpace c); [discriminate H|reflexivity]. }
  unfold trim, trimStart. simpl dropWhile. rewrite Hws.
  now rewrite (TextProps.trimEnd_cons _ _ Hws).
Qed.

(** The bullets of the jobs returned are cleaned bullets. *)
Lemma parseLines_bullets (lines : list str) (st : ParseState) (P : str -> Prop) :
  (forall b, P (cleanBullet b)) ->
  (forall job, In job (pushCurrent st) -> Forall P (bullets job)) ->
  forall job, In job (pushCurrent (fold_left parseLine lines st)) -> Forall P (bullets job).
Proof.
  intros HP. revert st. induction lines as [|l lines IH]; intros st Hst; [exact Hst|].
  simpl fold_left. apply IH. intros job. unfold parseLine.
  destruct (isJobTitleLine (trim l)).
  - unfold pushCurrent at 1. cbn [currentJob jobs].
    intros H. apply in_app_or in H as [H | [<- | []]]; [now apply Hst | constructor].
  - destruct (currentJob st) as [cur|] eqn:Hj; [|exact (Hst job)].
    destruct (isBulletPoint (trim l)); [|exact (Hst job)].
    unfold pushCurrent. cbn [currentJob jobs].
    intros H. apply in_app_or in H as [H | [<- | []]].
    + apply Hst. unfold pushCurrent. rewrite Hj. apply in_or_app. now left.
    + cbn [bullets]. apply Forall_app. split; [|constructor; [apply HP | constructor]].
      apply (Hst cur). unfold pushCurrent. rewrite Hj. apply in_or_app. right. now left.
Qed.

End ExperienceProps.

(** ** Main results *)

Module Results.
Import Js.
Import AtsEngine.
Import Spec.
Import Facts.
Import Examples.



(** C2. When at least one term was matched, the score is an integer
    between 20 and 100, and it follows the pipeline in its order: the
    weighted sum of the five sub-scores times 100 times 1.4, floored at
    20, plus the bonuses, capped at 100, then rounded.  The program
    computes in doubles: its score is always less than 1 away from the
    exact value of the pipeline before the rounding, and it is the
    rounding of that value wherever this is not within a thousandth of a
    rounding tie. *)
Theorem atsScore_bounds_and_order (mr : MatchResults) :
  (0 < totalCount (matches mr))%nat ->
  (20 <= calculateATSScore mr <= 100)%Z
  /\ (scoreBeforeRounding mr - 1 < inject_Z (calculateATSScore mr)
      /\ inject_Z (calculateATSScore mr) < scoreBeforeRounding mr + 1)
  /\ (awayFromTie (scoreBeforeRounding mr) ->
      calculateATSScore mr = round (scoreBeforeRounding mr)).
Proof.
  intros _.
  assert (E : calculateATSScore mr = round (scoreBeforeRounding mr)).
  { rewrite ScoreProps.calculateATSScore_pipeline. unfold scorePipeline, scoreBeforeRounding.
    symmetry. apply (round_cap 100). }
  split; [|split].
  - rewrite ScoreProps.calculateATSScore_pipeline. apply ScoreProps.scorePipeline_range.
  - rewrite E. unfold round.
    pose proof (Qfloor_le (scoreBeforeRounding mr + (1 # 2))) as Hlo.
    pose proof (Qlt_floor (scoreBeforeRounding mr + (1 # 2))) as Hhi.
    rewrite inject_Z_plus in Hhi.
    set (x := scoreBeforeRounding mr) in *.
    set (k := inject_Z (Qfloor (x + (1 # 2)))) in *.
    change (inject_Z 1) with 1 in Hhi. clearbody k x. split; lra.
  - intros _. exact E.
Qed.

Lemma atsScore_bounds_and_order_witness :
  (0 < totalCount (matches oneMissing))%nat
  /\ awayFromTie (scoreBeforeRounding oneMissing)
  /\ (20 <= calculateATSScore oneMissing <= 100)%Z
  /\ calculateATSScore oneMissing = round (scoreBeforeRounding oneMissing).
Proof.
  assert (H1 : (0 < totalCount (matches oneMissing))%nat) by (vm_compute; lia).
  assert (H2 : awayFromTie (scoreBeforeRounding oneMissing))
    by (split; vm_compute; discriminate).
  destruct (@atsScore_bounds_and_order oneMissing H1) as (Hb & _ & He).
  split; [exact H1|]. split; [exact H2|]. split; [exact Hb | exact (He H2)].
Defined.

(** At a rounding tie the exact arithmetic of the model rounds up, here
    97.5 to 98, while the doubles of the program may fall on either side
    of the tie; the last part of C2 leaves such values out. *)
Example rounding_tie_left_out :
  scoreBeforeRounding Samples.tieResults == 97.5
  /\ calculateATSScore Samples.tieResults = 98%Z
  /\ ~ awayFromTie (scoreBeforeRounding Samples.tieResults).
Proof.
  split; [vm_compute; reflexivity|]. split; [vm_compute; reflexivity|].
  intros [H _]. vm_compute in H. apply H. reflexivity.
Qed.



(** The boundary scores: 1.0 and 0.65 are strong, 0.649 and 0.45 are
    partial, 0.449 is missing. *)
Example score_1_is_strong :
  option_map (fun m => map Strong.score (strongMatch m))
             (matchTerm (constSim 0) [lit "python"] [] [] emptyMatches jdPython)
  = Some [1].
Proof. vm_compute. reflexivity. Qed.

Example score_065_is_strong :
  option_map (fun m => map Strong.score (strongMatch m))
             (matchTerm (constSim 0.65) resumeXyz [] [] emptyMatches jdAbc)
  = Some [0.65].
Proof. vm_compute. reflexivity. Qed.

Example score_0649_is_partial :
  option_map (fun m => (strongMatch m, map Partial.score (partialMatch m)))
             (matchTerm (constSim 0.649) resumeXyz [] [] emptyMatches jdAbc)
  = Some ([], [0.649]).
Proof. vm_compute. reflexivity. Qed.

Example score_045_is_partial :
  option_map (fun m => (strongMatch m, map Partial.score (partialMatch m)))
             (matchTerm (constSim 0.45) resumeXyz [] [] emptyMatches jdAbc)
  = Some ([], [0.45]).
Proof. vm_compute. reflexivity. Qed.

Example score_0449_is_missing :
  option_map (fun m => (strongMatch m, partialMatch m, map Missing.term (missing m)))
             (matchTerm (constSim 0.449) resumeXyz [] [] emptyMatches jdAbc)
  = Some ([], [], [lit "abc"]).
Proof. vm_compute. reflexivity. Qed.

(** C4 (the code departs from the claim). Normalising twice is not
    normalising once: the table maps "aws" to "amazon web services" and
    back, and likewise walks on from "html", "rest" and "machine
    learning". *)
Theorem normalizeSkill_not_idempotent :
  map (fun x => (Nlp.normalizeSkill (lit x), Nlp.normalizeSkill (Nlp.normalizeSkill (lit x))))
      ["aws"; "html"; "rest"; "machine learning"]%string
  = [(lit "amazon web services", lit "aws");
     (lit "html5", lit "html");
     (lit "restful", lit "rest api");
     (lit "ml", lit "machine learning")].
Proof. vm_compute. reflexivity. Qed.

(** C5 (the code departs from the claim). "python" is classified
    preferred through the term "python2" and required through the term
    "python3", which has the same normal form; its base weight, 0.1, is
    multiplied by 3 and by 1.5. *)
Theorem both_multipliers_applied :
  map (fun w => (term w, isRequired w, isPreferred w, frequency w,
                 Qeq_bool (weight w) (0.1 * 3 * 1.5)))
      (weighTerms jdPythonTwice [lit "python2"; lit "python3"])
  = [(lit "python", true, true, 1%nat, true)].
Proof. vm_compute. reflexivity. Qed.

(** C6, as the code has it. A weighted term whose original form occurs in
    the lower-cased job description is classified: required when the 100
    code units on either side of its first occurrence hold a requirement
    indicator, preferred when they hold a preference indicator only, and
    required when they hold neither; so one of its two flags is set. *)
Theorem occurring_terms_classified
  (extractSkills extractPhrases : str -> list str) (jdText : str) (w : Term) (i : nat) :
  let jd := analyzeJobDescription extractSkills extractPhrases jdText in
  let context :=
    contextOf (toLowerCase jdText) (toLowerCase (originalTerm w)) i in
  In w (weightedTerms jd) ->
  indexOf (toLowerCase (originalTerm w)) (toLowerCase jdText) = Some i ->
  (hasIndicator requiredIndicators context = true -> isRequired w = true)
  /\ (hasIndicator requiredIndicators context = false ->
      hasIndicator preferredIndicators context = true -> isPreferred w = true)
  /\ (hasIndicator requiredIndicators context = false ->
      hasIndicator preferredIndicators context = false -> isRequired w = true)
  /\ isRequired w || isPreferred w = true.
Proof.
  intros jd context HIn Hi.
  unfold jd, analyzeJobDescription in HIn. cbn [weightedTerms] in HIn.
  apply TermProps.weighTerms_origin in HIn as (t & Ht & Hw).
  subst w. cbn [originalTerm weighTerm] in Hi, context.
  cbn [isRequired isPreferred weighTerm].
  pose proof (ImportanceProps.categorize_adds jdText _ t Ht Hi) as H.
  unfold goesToPreferred in H. cbv zeta in H. fold context in H.
  destruct (hasIndicator requiredIndicators context);
    destruct (hasIndicator preferredIndicators context);
    cbn [negb andb] in H; rewrite H;
    (split; [|split; [|split]]); intros; try reflexivity; try discriminate;
    apply orb_true_r.
Qed.

Lemma occurring_terms_classified_witness : isRequired weightedPython = true.
Proof.
  assert (HIn : In weightedPython
                   (weightedTerms (analyzeJobDescription skillsPythonAws noTerms jdShort)))
    by (vm_compute; left; reflexivity).
  assert (Hi : indexOf (toLowerCase (originalTerm weightedPython)) (toLowerCase jdShort)
               = Some 10%nat)
    by (vm_compute; reflexivity).
  destruct (@occurring_terms_classified skillsPythonAws noTerms jdShort weightedPython
              10%nat HIn Hi) as (Hreq & _).
  apply Hreq. vm_compute. reflexivity.
Defined.

(** C6 as stated fails: the term "machine learning", found in the cleaned
    text, does not occur in a job description that writes it with two
    spaces; it enters neither set, and both its flags are false. *)
Lemma unfound_term_unclassified :
  (required (categorizeSkillImportance jdTwoSpaces [lit "machine learning"]),
   preferred (categorizeSkillImportance jdTwoSpaces [lit "machine learning"]))
  = ([], [])
  /\ map (fun w => (term w, isRequired w, isPreferred w))
         (weighTerms jdTwoSpaces [lit "machine learning"])
     = [(lit "ml", false, false)].
Proof. split; vm_compute; reflexivity. Qed.

(** C7. With the weighted terms of the job description filed by
    [matchResumeToJD], the required-match score is 1 when none of them is
    required, and otherwise the share of required terms matched, a partial
    match counting for 0.75, clamped to the interval from 0.25 to 1. *)
Theorem requiredMatch_score
  (compareTwoStrings : str -> str -> Q) (extractSkills extractPhrases : str -> list str)
  (resumeText : str) (jd : JdAnalysis) (mr : MatchResults) :
  matchResumeToJD compareTwoStrings extractSkills extractPhrases resumeText jd = Some mr ->
  let totalRequired := count isRequired (weightedTerms jd) in
  let requiredStrong := count Strong.isRequired (strongMatch (matches mr)) in
  let requiredPartial := count Partial.isRequired (partialMatch (matches mr)) in
  calculateRequiredMatchScore mr
  == if (totalRequired =? 0)%nat then 1
     else clamp 0.25 1
            ((num requiredStrong + 0.75 * num requiredPartial) / num totalRequired).
Proof.
  intros E.
  destruct (AnalysisProps.matchResumeToJD_files compareTwoStrings extractSkills
              extractPhrases resumeText jd) as (mr' & E' & _ & Hr & _).
  rewrite E in E'. injection E' as <-.
  cbv zeta. rewrite <- Hr. apply ScoreProps.requiredMatch_formula.
Qed.

Lemma requiredMatch_score_witness :
  exists mr,
    matchResumeToJD (constSim 0) noTerms noTerms (lit "plain text") jdNoRequired = Some mr
    /\ calculateRequiredMatchScore mr == 1.
Proof.
  destruct (matchResumeToJD (constSim 0) noTerms noTerms (lit "plain text") jdNoRequired)
    as [mr|] eqn:E.
  - exists mr. split; [reflexivity|].
    exact (@requiredMatch_score (constSim 0) noTerms noTerms (lit "plain text")
             jdNoRequired mr E).
  - exfalso. revert E. vm_compute. discriminate.
Defined.

(** C8, as the code has it. When the weighted terms hold "kubernetes" and
    the terms extracted from the resume hold "kuberntes", the term is
    filed as a strong match with a score of 0.9 at least; autocorrection
    is applied to the job-description term, which it leaves as it is, so
    no strong or partial record of that term carries the typo-correction
    flag.  The weighted terms and the terms extracted from the resume are
    taken to spell no key that every object inherits. *)
Theorem kubernetes_typo_is_strong_match
  (compareTwoStrings : str -> str -> Q) (extractSkills extractPhrases : str -> list str)
  (resumeText : str) (jdAnalysis : JdAnalysis) (jd : Term) :
  Forall (fun w => plainTerm (term w) = true) (weightedTerms jdAnalysis) ->
  Forall (fun t => plainTerm t = true)
         (extractSkills resumeText ++ extractPhrases resumeText) ->
  In jd (weightedTerms jdAnalysis) ->
  term jd = Nlp.normalizeSkill (lit "Kubernetes") ->
  In (lit "kuberntes") (extractSkills resumeText ++ extractPhrases resumeText) ->
  exists mr,
    matchResumeToJD compareTwoStrings extractSkills extractPhrases resumeText jdAnalysis
    = Some mr
    /\ (exists r, In r (strongMatch (matches mr))
                  /\ Strong.jdTerm r = lit "kubernetes"
                  /\ 0.9 <= Strong.score r
                  /\ Strong.typoCorrection r = false)
    /\ (forall r, In r (strongMatch (matches mr)) ->
                  Strong.jdTerm r = lit "kubernetes" -> Strong.typoCorrection r = false)
    /\ (forall r, In r (partialMatch (matches mr)) ->
                  Partial.jdTerm r = lit "kubernetes" -> Partial.typoCorrection r = false).
Proof.
  intros _ _ HIn Hterm Hres.
  assert (Hnorm : Nlp.normalizeSkill (lit "Kubernetes") = lit "kubernetes")
    by (vm_compute; reflexivity).
  rewrite Hnorm in Hterm. clear Hnorm.
  unfold matchResumeToJD.
  set (all := filter _ (map Nlp.normalizeSkill _)).
  set (explicit := if truthy _ then SectionDetector.parseSkillsSection _ else []).
  set (jobs := if truthy _ then SectionDetector.parseExperienceSection _ else []).
  assert (Hall : Forall (fun t => truthy t = true) all).
  { apply Forall_forall. intros t Ht. unfold all in Ht.
    apply filter_In in Ht as [_ Ht]. now apply andb_true_iff in Ht as [Ht _]. }
  assert (Hk : In (lit "kuberntes") all).
  { unfold all. apply filter_In. split; [|reflexivity].
    assert (Hn : Nlp.normalizeSkill (lit "kuberntes") = lit "kuberntes")
      by (vm_compute; reflexivity).
    rewrite <- Hn at 1. now apply in_map. }
  destruct (MatchProps.matchTerms_files compareTwoStrings all explicit jobs
              (weightedTerms jdAnalysis) (mkMatches [] [] []))
    as (m' & E & _).
  rewrite E. eexists. split; [reflexivity|]. simpl.
  destruct (TypoProps.matchTerms_origin _ _ _ _ _ _ E) as (Hs & Hp).
  split; [|split].
  - destruct (TypoProps.kubernetes_final compareTwoStrings jd Hterm Hk Hall) as [Hscore Hc].
    assert (H065 : 0.65 <= Nlp.score (finalOf compareTwoStrings jd all)) by lra.
    destruct (TypoProps.matchTerms_filed _ _ _ _ _ _ jd E HIn H065) as (inExp & Hr).
    eexists. split; [exact Hr|]. simpl. rewrite Hc. repeat split; assumption.
  - intros r Hr Hjd. destruct (Hs r Hr) as [[] | (jd' & inExp & _ & ->)].
    simpl in Hjd |- *.
    destruct (TypoProps.kubernetes_final compareTwoStrings jd' Hjd Hk Hall) as [_ Hc].
    now rewrite Hc.
  - intros r Hr Hjd. destruct (Hp r Hr) as [[] | (jd' & _ & ->)].
    simpl in Hjd |- *.
    destruct (TypoProps.kubernetes_final compareTwoStrings jd' Hjd Hk Hall) as [_ Hc].
    now rewrite Hc.
Qed.

Lemma kubernetes_typo_is_strong_match_witness :
  exists mr,
    matchResumeToJD (constSim 0) skillsTypo noTerms resumeTypo jdOnlyKubernetes = Some mr
    /\ exists r, In r (strongMatch (matches mr))
                 /\ Strong.jdTerm r = lit "kubernetes"
                 /\ Strong.typoCorrection r = false.
Proof.
  assert (H1 : Forall (fun w => plainTerm (term w) = true) (weightedTerms jdOnlyKubernetes))
    by (repeat (apply Forall_cons; [vm_compute; reflexivity|]); apply Forall_nil).
  assert (H2 : Forall (fun t => plainTerm t = true)
                      (skillsTypo resumeTypo ++ noTerms resumeTypo))
    by (repeat (apply Forall_cons; [vm_compute; reflexivity|]); apply Forall_nil).
  assert (HIn : In jdKubernetes (weightedTerms jdOnlyKubernetes)) by (left; reflexivity).
  assert (Hterm : term jdKubernetes = Nlp.normalizeSkill (lit "Kubernetes"))
    by reflexivity.
  assert (Hres : In (lit "kuberntes") (skillsTypo resumeTypo ++ noTerms resumeTypo))
    by (right; left; reflexivity).
  destruct (@kubernetes_typo_is_strong_match (constSim 0) skillsTypo noTerms resumeTypo
              jdOnlyKubernetes jdKubernetes H1 H2 HIn Hterm Hres)
    as (mr & E & (r & Hr & Hjd & _ & Hflag) & _).
  exists mr. split; [exact E|]. exists r. repeat split; assumption.
Defined.

(** Called with the capitalised term, the function reports a correction,
    the canonical form differing by its case; the engine passes the
    normalised, lower-cased term. *)
Example capitalised_target_reported_corrected :
  Spellcheck.corrected
    (Spellcheck.findBestMatchWithTypoTolerance (constSim 0) (lit "Kubernetes")
                                               [lit "kuberntes"] 0.70)
  = true
  /\ Spellcheck.corrected
       (Spellcheck.findBestMatchWithTypoTolerance (constSim 0) (term jdKubernetes)
                                                  [lit "kuberntes"] 0.70)
     = false.
Proof. split; vm_compute; reflexivity. Qed.

(** C8 as stated fails: whatever the similarity coefficient answers, the
    record of "Kubernetes" matched against "kuberntes" does not carry the
    typo-correction flag. *)
Lemma kubernetes_typo_flag_not_set :
  ~ exists (compareTwoStrings : str -> str -> Q) (m' : Matches),
      matchTerm compareTwoStrings [lit "kuberntes"] [] [] emptyMatches jdKubernetes
      = Some m'
      /\ existsb Strong.typoCorrection (strongMatch m')
         || existsb Partial.typoCorrection (partialMatch m') = true.
Proof.
  intros (cmp & m' & E & H).
  destruct (MatchProps.matchTerm_files cmp [lit "kuberntes"] [] [] emptyMatches jdKubernetes)
    as (m1 & E1 & F).
  rewrite E in E1. injection E1 as <-.
  destruct (TypoProps.kubernetes_final cmp jdKubernetes (all := [lit "kuberntes"]))
    as [_ Hc]; [reflexivity | now left | repeat constructor |].
  destruct F; unfold emptyMatches, strongRecord, partialRecord in H;
    cbn [strongMatch partialMatch missing app existsb orb
         Strong.typoCorrection Partial.typoCorrection] in H;
    rewrite ?Hc in H; discriminate H.
Qed.

(** C9, as the code has it. The text normaliser is total: an input that is
    not a string gives the empty string; a string gives its text with
    every code unit other than a word character (letter, digit or
    underscore), white space and [. + # - / ( )] replaced by a space,
    white space collapsed and trimmed, so that the result holds word
    characters, technical punctuation and single inner spaces only. *)
Theorem preprocessText_total (text : value) :
  match text with
  | VString s =>
      Nlp.preprocessText text = trim (Nlp.replaceWsRuns false (Nlp.replaceOthers s))
      /\ whitespaceCollapsed (Nlp.preprocessText text) = true
      /\ forallb isAllowed (Nlp.preprocessText text) = true
  | _ => Nlp.preprocessText text = []
  end.
Proof.
  destruct text as [| | b | q | s |]; try reflexivity.
  split; [apply TextProps.preprocessText_string | apply TextProps.preprocessText_shape].
Qed.

(** C9 as stated fails: the underscore is punctuation outside the seven
    characters listed, and it is kept. *)
Lemma underscore_is_kept :
  Nlp.preprocessText (VString (lit "snake_case, ok")) = lit "snake_case ok"
  /\ existsb (fun c => isAsciiPunctuation c && negb (Nlp.isTechnicalPunct c))
             (Nlp.preprocessText (VString (lit "snake_case, ok"))) = true.
Proof. split; vm_compute; reflexivity. Qed.

(** C10. The jobs returned for an experience section, read as lines, are
    the title lines and, from the first title line on, the bullet lines
    of the section, in their order, the bullets stripped of their leading
    markers; every other line is dropped. *)
Theorem experience_lines_retained (experienceText : str) :
  linesOf (SectionDetector.parseExperienceSection experienceText)
  = retained false (map trim (SectionDetector.contentLines experienceText))
  /\ forall job, In job (SectionDetector.parseExperienceSection experienceText) ->
       Forall (fun b => match b with
                        | c :: _ => SectionDetector.isBulletLead c = false
                        | [] => True
                        end)
              (SectionDetector.bullets job).
Proof.
  unfold SectionDetector.parseExperienceSection.
  destruct experienceText as [|c t]; [split; [reflexivity | intros job []]|].
  cbn [truthy eqb negb]. split.
  - now rewrite ExperienceProps.parseLines_retained.
  - apply ExperienceProps.parseLines_bullets.
    + apply ExperienceProps.cleanBullet_head.
    + intros job [].
Qed.

Lemma experience_lines_retained_witness :
  linesOf (SectionDetector.parseExperienceSection experienceExample)
  = [TitleLine (lit "Software Engineer | Acme 2020");
     BulletLine (lit "Built services using Python");
     BulletLine (lit "Improved latency by 40%")]
  /\ Forall (fun b => match b with
                      | c :: _ => SectionDetector.isBulletLead c = false
                      | [] => True
                      end)
            (SectionDetector.bullets jobExample).
Proof.
  destruct (experience_lines_retained experienceExample) as [Hlines Hbullets].
  split.
  - rewrite Hlines. vm_compute. reflexivity.
  - apply (Hbullets jobExample). vm_compute. left. reflexivity.
Defined.

End Results.

(** ** Ranges of the sub-scores *)

Module RangeProps.
Import Js.
Import AtsEngine.
Import Spec.
Import Facts.

Lemma count_le_length (A : Type) (p : A -> bool) (l : list A) :
  (count p l <= List.length l)%nat.
Proof. unfold count. apply filter_length_le. Qed.

Lemma ratio_in_unit (a b : Q) : 0 <= a -> a <= b -> 0 < b -> 0 <= a / b /\ a / b <= 1.
Proof.
  intros Ha Hab Hb. split.
  - apply Qle_shift_div_l; [assumption|]. lra.
  - apply Qle_shift_div_r; [assumption|]. lra.
Qed.

Lemma skillMatch_range (mr : MatchResults) :
  0.3 <= calculateSkillMatchScore mr /\ calculateSkillMatchScore mr <= 1.
Proof.
  unfold calculateSkillMatchScore. cbv zeta.
  destruct (_ =? 0)%nat; [split; discriminate|].
  split.
  - apply Q.min_glb; [discriminate | apply Q.le_max_l].
  - eapply Qle_trans; [apply Q.le_min_l | discriminate].
Qed.

Lemma requiredMatch_range (mr : MatchResults) :
  0.25 <= calculateRequiredMatchScore mr /\ calculateRequiredMatchScore mr <= 1.
Proof.
  unfold calculateRequiredMatchScore. cbv zeta.
  set (a := count Strong.isRequired _). set (b := count Partial.isRequired _).
  set (c := count Missing.isRequired _).
  destruct (a + b + c =? 0)%nat eqn:E; [split; discriminate|].
  apply Nat.eqb_neq in E. split; [apply Q.le_max_l|].
  apply Q.max_lub; [discriminate|].
  apply ScoreProps.required_ratio_le_1. lia.
Qed.

Lemma demonstration_range (mr : MatchResults) :
  0 <= calculateDemonstrationScore mr /\ calculateDemonstrationScore mr <= 1.
Proof.
  unfold calculateDemonstrationScore. cbv zeta.
  destruct (_ =? 0)%nat eqn:E; [split; discriminate|].
  apply Nat.eqb_neq in E.
  apply ratio_in_unit.
  - apply num_nonneg.
  - apply num_le, count_le_length.
  - apply num_pos. lia.
Qed.

Lemma addSection_bounds (key : string) (w : Q) (secs : list (str * str)) (acc : Q * Q) :
  0 < w ->
  0 <= fst acc /\ fst acc <= snd acc ->
  0 <= fst (addSection key w secs acc)
  /\ fst (addSection key w secs acc) <= snd (addSection key w secs acc).
Proof.
  intros Hw [H0 H1]. unfold addSection.
  destruct (objGet (lit key) secs) as [s|]; [|now split].
  destruct (truthy s); simpl; split; lra.
Qed.

Lemma structure_range (mr : MatchResults) :
  0 <= calculateStructureScore mr /\ calculateStructureScore mr <= 1.
Proof.
  unfold calculateStructureScore. cbv zeta.
  set (acc := addSection "summary" 0.2 _ _).
  assert (H : 0 <= fst acc /\ fst acc <= snd acc).
  { unfold acc. repeat (apply addSection_bounds; [reflexivity|]).
    simpl. split; apply Qle_refl. }
  destruct (Qltb 0 (snd acc)) eqn:E; [|split; discriminate].
  apply Qltb_lt in E. destruct H. now apply ratio_in_unit.
Qed.

(** The weighted average is bounded below by what the two clamped
    sub-scores contribute. *)
Lemma weightedAverage_range (mr : MatchResults) :
  0.21 <= weightedAverage (componentScoresOf mr)
  /\ weightedAverage (componentScoresOf mr) <= 1.
Proof.
  rewrite ScoreProps.weightedAverage_sum. unfold weightedSum, componentScoresOf.
  cbn [skillMatch requiredMatch demonstration structure metrics].
  pose proof (skillMatch_range mr) as [? ?].
  pose proof (requiredMatch_range mr) as [? ?].
  pose proof (demonstration_range mr) as [? ?].
  pose proof (structure_range mr) as [? ?].
  assert (0 <= (if hasMetrics (resumeMetrics mr) then 1.0 else 0.0)
          /\ (if hasMetrics (resumeMetrics mr) then 1.0 else 0.0) <= 1)
    as [? ?] by (destruct (hasMetrics _); split; discriminate).
  split; lra.
Qed.

End RangeProps.

(** ** What the buckets hold *)

Module BucketProps.
Import Js.
Import AtsEngine.
Import Spec.
Import Facts.
Import MatchProps.

Section WithSimilarity.

Variable compareTwoStrings : str -> str -> Q.

Lemma findBestMatch_in (t : str) (all : list str) (s : str) :
  Nlp.match_ (Nlp.findBestMatch compareTwoStrings t all) = Some s -> In s all.
Proof.
  unfold Nlp.findBestMatch.
  set (f := fun skill => (skill, Nlp.calculateSimilarity compareTwoStrings t skill)).
  destruct (map f all) as [|first rest] eqn:E; simpl; [discriminate|].
  intros H. injection H as <-.
  pose proof (@reduceBest_In _ snd rest first) as HIn. rewrite <- E in HIn.
  apply in_map_iff in HIn as (y & Ey & Hy). rewrite <- Ey. exact Hy.
Qed.

Lemma finalOf_in (jd : Term) (all : list str) (s : str) :
  Nlp.match_ (finalOf compareTwoStrings jd all) = Some s -> In s all.
Proof.
  unfold finalOf, finalMatchOf.
  destruct (Spellcheck.match_ (bestOf compareTwoStrings jd all)) as [s0|] eqn:Hm.
  - destruct (truthy s0).
    + simpl. intros H. injection H as <-.
      exact (TypoProps.typo_best_in compareTwoStrings (term jd) all 0.70 Hm).
    + apply findBestMatch_in.
  - apply findBestMatch_in.
Qed.

Lemma Filed_ok all explicit jobs jd m m' :
  Filed compareTwoStrings all explicit jobs jd m m' ->
  Forall (strongOk all) (strongMatch m) -> Forall (partialOk all) (partialMatch m) ->
  Forall (strongOk all) (strongMatch m') /\ Forall (partialOk all) (partialMatch m').
Proof.
  intros F Hs Hp. destruct F as [inExp H65 _ | H45 H65 | _]; simpl.
  - split; [|assumption]. apply Forall_app. split; [assumption|].
    constructor; [|constructor]. split; [exact H65|].
    destruct (finalMatch_names_term compareTwoStrings jd all) as [s Hsome].
    { apply Qle_bool_iff. unfold PARTIAL_THRESHOLD. lra. }
    exists s. split; [exact Hsome | exact (finalOf_in _ _ Hsome)].
  - split; [assumption|]. apply Forall_app. split; [assumption|].
    constructor; [|constructor]. split; [exact H45|]. split; [exact H65|].
    destruct (finalMatch_names_term compareTwoStrings jd all) as [s Hsome].
    { apply Qle_bool_iff. exact H45. }
    exists s. split; [exact Hsome | exact (finalOf_in _ _ Hsome)].
  - now split.
Qed.

Lemma matchTerms_ok all explicit jobs jds m m' :
  matchTerms compareTwoStrings all explicit jobs m jds = Some m' ->
  Forall (strongOk all) (strongMatch m) -> Forall (partialOk all) (partialMatch m) ->
  Forall (strongOk all) (strongMatch m') /\ Forall (partialOk all) (partialMatch m').
Proof.
  revert m. induction jds as [|jd jds IH]; intros m; simpl.
  - intros H. injection H as <-. now split.
  - destruct (matchTerm_files compareTwoStrings all explicit jobs m jd) as (m1 & E & F).
    rewrite E. intros H Hs Hp.
    destruct (Filed_ok F Hs Hp) as [Hs1 Hp1]. now apply (IH m1).
Qed.

End WithSimilarity.

Lemma round_Z (k : Z) : round (inject_Z k) = k.
Proof.
  unfold round.
  pose proof (Qfloor_le (inject_Z k + (1 # 2))) as Hlo.
  pose proof (Qlt_floor (inject_Z k + (1 # 2))) as Hhi.
  unfold Qle, Qlt in *. simpl in *. lia.
Qed.

Lemma round_mono (x y : Q) : x <= y -> (round x <= round y)%Z.
Proof. intros H. unfold round. apply Qfloor_resp_le. lra. Qed.

Lemma round_between (lo hi : Z) (x : Q) :
  inject_Z lo <= x -> x <= inject_Z hi -> (lo <= round x <= hi)%Z.
Proof.
  intros Hlo Hhi. split.
  - rewrite <- (round_Z lo). now apply round_mono.
  - rewrite <- (round_Z hi). now apply round_mono.
Qed.

End BucketProps.

(** ** Order and weights of the weighted terms *)

Module WeightProps.
Import Js.
Import AtsEngine.
Import Spec.
Import Facts.

Lemma insertByWeight_sorted (x : Term) (l : list Term) :
  StronglySorted heavierFirst l -> StronglySorted heavierFirst (insertByWeight x l).
Proof.
  induction l as [|y l IH]; intros Hs; simpl.
  - constructor; constructor.
  - apply StronglySorted_inv in Hs as [Hl Hy].
    destruct (Qltb (weight y) (weight x)) eqn:E.
    + apply Qltb_lt in E. constructor; [constructor; assumption|].
      constructor; [unfold heavierFirst; lra|].
      eapply Forall_impl; [|exact Hy]. unfold heavierFirst. intros z Hz. lra.
    + apply Qltb_ge in E. constructor; [now apply IH|].
      apply (Permutation_Forall (Permutation_sym (TermProps.insertByWeight_perm x l))).
      constructor; assumption.
Qed.

Lemma sortByWeight_sorted (l : list Term) : StronglySorted heavierFirst (sortByWeight l).
Proof.
  unfold sortByWeight.
  assert (H : forall acc, StronglySorted heavierFirst acc ->
                          StronglySorted heavierFirst
                            (fold_left (fun s x => insertByWeight x s) l acc)).
  { induction l as [|x l IH]; intros acc Hacc; simpl; [exact Hacc|].
    apply IH. now apply insertByWeight_sorted. }
  apply H. constructor.
Qed.

(** Equal weights keep their order: the sort is stable. *)
Lemma insertByWeight_after_ties (x : Term) (l : list Term) :
  Forall (fun y => weight x <= weight y) l -> insertByWeight x l = l ++ [x].
Proof.
  induction l as [|y l IH]; intros H; simpl; [reflexivity|].
  inversion H as [|? ? Hy Hl]; subst.
  destruct (Qltb (weight y) (weight x)) eqn:E.
  - apply Qltb_lt in E. lra.
  - now rewrite IH.
Qed.

(** *** First occurrence wins *)

Lemma removeDuplicatesFrom_first (l : list Term) (seen : list str) (x : Term) :
  In x (removeDuplicatesFrom seen l)
  <-> exists l1 l2, l = l1 ++ x :: l2
                    /\ ~ In (term x) seen /\ ~ In (term x) (map term l1).
Proof.
  revert seen. induction l as [|y l IH]; intros seen; simpl.
  - split; [tauto|]. intros ([|? ?] & l2 & E & _); discriminate E.
  - destruct (mem (term y) seen) eqn:Hm.
    + rewrite IH. split.
      * intros (l1 & l2 & -> & Hs & H1). exists (y :: l1), l2. repeat split; try assumption.
        simpl. intros [E | H]; [|tauto]. apply Hs. rewrite <- E. now apply mem_In.
      * intros ([|z l1] & l2 & E & Hs & H1); simpl in E; injection E as -> ->.
        -- exfalso. apply Hs. now apply mem_In.
        -- exists l1, l2. repeat split; try assumption.
           intros H. apply H1. now right.
    + assert (Hy : ~ In (term y) seen).
      { intros H. apply mem_In in H. congruence. }
      split.
      * intros [<- | H].
        -- exists [], l. repeat split; [assumption | tauto].
        -- apply IH in H as (l1 & l2 & -> & Hs & H1).
           exists (y :: l1), l2. split; [reflexivity|]. split.
           ++ intros H. apply Hs. apply in_or_app. now left.
           ++ simpl. intros [E | H]; [|tauto]. apply Hs. apply in_or_app. right.
              left. exact E.
      * intros ([|z l1] & l2 & E & Hs & H1); simpl in E; injection E as -> ->.
        -- now left.
        -- right. apply IH. exists l1, l2. split; [reflexivity|]. split.
           ++ intros H. apply in_app_or in H as [H | [H | []]]; [tauto|].
              apply H1. left. exact H.
           ++ intros H. apply H1. now right.
Qed.

(** *** Term frequencies *)

Lemma objGet_In (A : Type) (k : str) (o : list (str * A)) (v : A) :
  objGet k o = Some v -> In (k, v) o.
Proof.
  induction o as [|[k' v'] o IH]; simpl; [discriminate|].
  destruct (eqb k k') eqn:E.
  - intros H. injection H as ->. apply eqb_eq in E. subst. now left.
  - intros H. right. now apply IH.
Qed.

Lemma objSet_Forall (A : Type) (P : str * A -> Prop) (k : str) (v : A)
  (o : list (str * A)) :
  P (k, v) -> Forall P o -> Forall P (objSet k v o).
Proof.
  intros Hkv. induction o as [|[k' v'] o IH]; intros H; simpl.
  - constructor; [assumption|constructor].
  - inversion H; subst. destruct (eqb k k'); constructor; auto.
Qed.

Lemma splitWs_nonempty (s cur : str) (inRun : bool) : splitWs cur inRun s <> [].
Proof.
  revert cur inRun. induction s as [|c s IH]; intros cur inRun; simpl; [discriminate|].
  destruct (isWhiteSpace c); [destruct inRun|]; try discriminate; apply IH.
Qed.

Lemma calculateTFIDF_positive (text : str) :
  Forall (fun e => 0 < snd e) (Nlp.calculateTFIDF text).
Proof.
  unfold Nlp.calculateTFIDF. cbv zeta.
  set (words := splitWs [] false _).
  assert (Hlen : (0 < List.length words)%nat).
  { pose proof (@splitWs_nonempty (Nlp.preprocessText (VString text)) [] false) as H.
    fold words in H. destruct words; [congruence | simpl; lia]. }
  set (step := fun o word => if (2 <? List.length word)%nat then _ else o).
  assert (Hcounts : forall ws o, Forall (fun e : str * nat => (0 < snd e)%nat) o ->
                                 Forall (fun e : str * nat => (0 < snd e)%nat)
                                        (fold_left step ws o)).
  { induction ws as [|w ws IH]; intros o Ho; simpl; [exact Ho|].
    apply IH. unfold step. destruct (2 <? List.length w)%nat; [|exact Ho].
    apply objSet_Forall; [simpl; lia | exact Ho]. }
  specialize (Hcounts words [] (Forall_nil _)).
  apply Forall_map. eapply Forall_impl; [|exact Hcounts].
  intros [k n] Hn. simpl in *.
  apply Qlt_shift_div_l; [now apply num_pos|].
  rewrite Qmult_0_l. now apply num_pos.
Qed.

Lemma weighTerm_positive (jdText : str) (imp : Importance) (t : str) :
  0 < weight (weighTerm jdText (Nlp.calculateTFIDF jdText) imp t).
Proof.
  unfold weighTerm. cbv zeta. cbn [weight].
  set (base := match objGet _ _ with Some w => _ | None => 0.1 end).
  assert (Hbase : 0 < base).
  { unfold base. destruct (objGet _ _) as [w|] eqn:E; [|reflexivity].
    destruct (Qeq_bool w 0); [reflexivity|].
    apply objGet_In in E.
    pose proof (calculateTFIDF_positive jdText) as H.
    rewrite Forall_forall in H. exact (H _ E). }
  set (w1 := if mem _ (required imp) then base * 3 else base).
  assert (H1 : 0 < w1) by (unfold w1; destruct (mem _ (required imp)); lra).
  set (w2 := if mem _ (preferred imp) then w1 * 1.5 else w1).
  assert (H2 : 0 < w2) by (unfold w2; destruct (mem _ (preferred imp)); lra).
  set (w3 := if (2 <? _)%nat then w2 * 1.3 else w2).
  assert (H3 : 0 < w3) by (unfold w3; destruct (2 <? _)%nat; lra).
  destruct (Nlp.isGenericWord t); lra.
Qed.

End WeightProps.

(** ** Detected sections *)

Module SectionProps.
Import Js.
Import SectionDetector.
Import Spec.
Import Facts.

Lemma objSet_keys (A : Type) (k k' : str) (v : A) (o : list (str * A)) :
  In k' (map fst (objSet k v o)) <-> k' = k \/ In k' (map fst o).
Proof.
  induction o as [|[k0 v0] o IH]; simpl.
  - split; [intros [<- | []]; now left | intros [-> | []]; now left].
  - destruct (eqb k k0) eqn:E; simpl.
    + apply eqb_eq in E. subst k0. intuition congruence.
    + rewrite IH. intuition congruence.
Qed.

Lemma objSet_NoDup (A : Type) (k : str) (v : A) (o : list (str * A)) :
  NoDup (map fst o) -> NoDup (map fst (objSet k v o)).
Proof.
  induction o as [|[k0 v0] o IH]; simpl; intros H.
  - constructor; [tauto | constructor].
  - inversion H as [|? ? Hk0 Ho]; subst.
    destruct (eqb k k0) eqn:E; simpl.
    + apply eqb_eq in E. subst k0. now constructor.
    + constructor; [|now apply IH].
      rewrite objSet_keys. intros [-> | H1]; [|tauto].
      rewrite eqb_refl in E. discriminate.
Qed.

Lemma objGet_objSet_same (A : Type) (k : str) (v : A) (o : list (str * A)) :
  objGet k (objSet k v o) = Some v.
Proof.
  induction o as [|[k0 v0] o IH]; simpl; [now rewrite eqb_refl|].
  destruct (eqb k k0) eqn:E; simpl; [now rewrite eqb_refl | now rewrite E].
Qed.

Lemma objGet_objSet_other (A : Type) (k k' : str) (v : A) (o : list (str * A)) :
  eqb k' k = false -> objGet k' (objSet k v o) = objGet k' o.
Proof.
  intros Hk. induction o as [|[k0 v0] o IH]; simpl; [now rewrite Hk|].
  destruct (eqb k k0) eqn:E; simpl.
  - apply eqb_eq in E. subst k0. now rewrite Hk.
  - now rewrite IH.
Qed.

Lemma join_truthy (sep x : str) (l : list str) :
  truthy x = true -> truthy (join sep (x :: l)) = true.
Proof.
  destruct x as [|c x]; [discriminate|]. intros _. destruct l; reflexivity.
Qed.

Lemma detectSectionHeader_name (line name : str) :
  detectSectionHeader line = Some name -> In name sectionNames.
Proof.
  unfold detectSectionHeader. cbv zeta.
  set (exact := fun e : str * list str => existsb _ (snd e)).
  set (partial := fun e : str * list str => existsb _ (snd e) && _).
  intros H. right.
  destruct (find exact SECTION_HEADERS) as [e|] eqn:E.
  - injection H as <-. apply find_some in E as [E _]. now apply in_map.
  - destruct (find partial SECTION_HEADERS) as [e|] eqn:E'; [|discriminate].
    injection H as <-. apply find_some in E' as [E' _]. now apply in_map.
Qed.

Lemma saveSection_ok (st : DetectState) :
  detectOk st ->
  NoDup (map fst (saveSection st))
  /\ Forall (fun e => In (fst e) sectionNames /\ truthy (snd e) = true) (saveSection st).
Proof.
  intros (Hnd & Hall & Hcur & Hcont). unfold saveSection.
  destruct (currentContent st) as [|l ls] eqn:E; [now split|].
  split; [now apply objSet_NoDup|].
  apply WeightProps.objSet_Forall; [|assumption].
  cbn [fst snd]. split; [assumption|].
  inversion Hcont; subst. now apply join_truthy.
Qed.

Lemma detectLine_ok (st : DetectState) (line : str) :
  detectOk st -> detectOk (detectLine st line).
Proof.
  intros Hst. unfold detectLine. cbv zeta.
  destruct (truthy (trim line)) eqn:Ht; [|exact Hst]. simpl.
  destruct (detectSectionHeader (trim line)) as [name|] eqn:Hd.
  - destruct (saveSection_ok Hst) as [H1 H2].
    repeat split; simpl; try assumption.
    + exact (detectSectionHeader_name _ Hd).
    + constructor.
  - destruct Hst as (Hnd & Hall & Hcur & Hcont).
    repeat split; simpl; try assumption.
    apply Forall_app. split; [assumption|]. constructor; [assumption|constructor].
Qed.

Lemma detectSections_ok (resumeText : str) :
  NoDup (map fst (detectSections resumeText))
  /\ Forall (fun e => In (fst e) sectionNames /\ truthy (snd e) = true)
            (detectSections resumeText).
Proof.
  unfold detectSections. destruct (truthy resumeText); simpl; [|split; constructor].
  apply saveSection_ok.
  assert (H : forall lines st, detectOk st -> detectOk (fold_left detectLine lines st)).
  { induction lines as [|l lines IH]; intros st Hst; simpl; [exact Hst|].
    apply IH. now apply detectLine_ok. }
  apply H. repeat split; simpl; try constructor. reflexivity.
Qed.

End SectionProps.

(** ** Structure of the resume, as the engine sees it *)

Module StructureProps.
Import Js.
Import AtsEngine.
Import Spec.
Import Facts.

Section WithLibraries.

Variable compareTwoStrings : str -> str -> Q.
Variable extractSkills : str -> list str.
Variable extractPhrases : str -> list str.

Lemma matchResumeToJD_sections (resumeText : str) (jd : JdAnalysis) (mr : MatchResults) :
  matchResumeToJD compareTwoStrings extractSkills extractPhrases resumeText jd = Some mr ->
  sections mr = sectionsWithFallback resumeText
  /\ hasMetrics (resumeMetrics mr)
     = SectionDetector.hasQuantifiableMetrics
         (sectionText "experience" (sectionsWithFallback resumeText)).
Proof.
  unfold matchResumeToJD. cbv zeta. fold (sectionsWithFallback resumeText).
  destruct (matchTerms _ _ _ _ _ _) as [m|]; [|discriminate].
  intros H. injection H as <-. split; reflexivity.
Qed.

End WithLibraries.

Lemma sectionsWithFallback_truthy (resumeText : str) :
  truthy resumeText = true ->
  Forall (fun e => truthy (snd e) = true) (sectionsWithFallback resumeText).
Proof.
  intros Ht. unfold sectionsWithFallback. cbv zeta.
  destruct (SectionProps.detectSections_ok resumeText) as [_ H].
  assert (H' : Forall (fun e : str * str => truthy (snd e) = true)
                      (SectionDetector.detectSections resumeText)).
  { eapply Forall_impl; [|exact H]. intros e [_ He]. exact He. }
  destruct (_ <=? 1)%nat; [|exact H'].
  repeat (apply WeightProps.objSet_Forall; [exact Ht|]). exact H'.
Qed.

Lemma sectionText_truthy (key : string) (secs : list (str * str)) (s : str) :
  Forall (fun e => truthy (snd e) = true) secs ->
  objGet (lit key) secs = Some s -> truthy s = true.
Proof.
  intros H E. apply WeightProps.objGet_In in E.
  rewrite Forall_forall in H. exact (H _ E).
Qed.

Lemma addSection_all_present (key : string) (w : Q) (secs : list (str * str))
  (acc : Q * Q) :
  Forall (fun e => truthy (snd e) = true) secs ->
  fst acc == snd acc ->
  fst (addSection key w secs acc) == snd (addSection key w secs acc)
  /\ snd (addSection key w secs acc)
     == snd acc + (match objGet (lit key) secs with Some _ => w | None => 0 end).
Proof.
  intros H Hacc. unfold addSection.
  destruct (objGet (lit key) secs) as [s|] eqn:E.
  - rewrite (sectionText_truthy key H E). simpl. split; lra.
  - split; [exact Hacc | lra].
Qed.

(** When every section that is defined has text, the structure score is 1
    as soon as one of the three sections is defined, and 0 otherwise. *)
Lemma structure_all_or_nothing (mr : MatchResults) :
  Forall (fun e => truthy (snd e) = true) (sections mr) ->
  calculateStructureScore mr == if hasCoreSection (sections mr) then 1 else 0.
Proof.
  intros H. unfold calculateStructureScore, hasCoreSection. cbv zeta.
  set (a1 := addSection "skills" 0.4 (sections mr) (0, 0)).
  set (a2 := addSection "experience" 0.4 (sections mr) a1).
  set (a3 := addSection "summary" 0.2 (sections mr) a2).
  destruct (@addSection_all_present "skills" 0.4 (sections mr) (0, 0) H) as [E1 S1];
    [reflexivity|]. fold a1 in E1, S1.
  destruct (@addSection_all_present "experience" 0.4 (sections mr) a1 H E1) as [E2 S2].
  fold a2 in E2, S2.
  destruct (@addSection_all_present "summary" 0.2 (sections mr) a2 H E2) as [E3 S3].
  fold a3 in E3, S3. cbn [snd] in S1.
  assert (Hmax : snd a3 ==
                 (match objGet (lit "skills") (sections mr) with Some _ => 0.4 | None => 0 end)
                 + (match objGet (lit "experience") (sections mr) with
                    | Some _ => 0.4 | None => 0 end)
                 + (match objGet (lit "summary") (sections mr) with
                    | Some _ => 0.2 | None => 0 end)) by lra.
  destruct (Qltb 0 (snd a3)) eqn:Hpos.
  - apply Qltb_lt in Hpos.
    assert (Hone : fst a3 / snd a3 == 1).
    { unfold Qdiv. rewrite E3. apply Qmult_inv_r. lra. }
    rewrite Hone.
    destruct (objGet (lit "skills") (sections mr));
      destruct (objGet (lit "experience") (sections mr));
      destruct (objGet (lit "summary") (sections mr)); try reflexivity.
    exfalso. lra.
  - apply Qltb_ge in Hpos.
    destruct (objGet (lit "skills") (sections mr));
      destruct (objGet (lit "experience") (sections mr));
      destruct (objGet (lit "summary") (sections mr)); try reflexivity;
      exfalso; lra.
Qed.

End StructureProps.

(** ** Edit distance *)

Module DistanceProps.
Import Js.
Import Spellcheck.
Import Spec.
Import Facts.

Lemma last_cons_default (x d : nat) (l : list nat) : last (x :: l) d = last l x.
Proof.
  revert x d. induction l as [|y l IH]; intros x d; [reflexivity|].
  change (last (x :: y :: l) d) with (last (y :: l) d).
  rewrite IH. symmetry. apply (IH y).
Qed.

Lemma fillRow_length (c1 : char) (s2 : str) (up : list nat) (diag left : nat) :
  List.length up = List.length s2 ->
  List.length (fillRow c1 s2 diag up left) = List.length s2.
Proof.
  revert up diag left. induction s2 as [|c2 s2 IH]; intros [|u up] diag left H;
    simpl in *; try reflexivity; try discriminate.
  f_equal. apply IH. lia.
Qed.

Lemma fillRow_cons (c1 c2 : char) (s2 : str) (u : nat) (up : list nat) (diag left : nat) :
  fillRow c1 (c2 :: s2) diag (u :: up) left
  = cell u left diag c1 c2 :: fillRow c1 s2 u up (cell u left diag c1 c2).
Proof. reflexivity. Qed.

(** A longer second string adds one cell at the end of the row. *)
Lemma fillRow_snoc (c1 b : char) (s2 : str) (up : list nat) (u diag left : nat) :
  List.length up = List.length s2 ->
  fillRow c1 (s2 ++ [b]) diag (up ++ [u]) left
  = fillRow c1 s2 diag up left
    ++ [cell u (last (fillRow c1 s2 diag up left) left) (last up diag) c1 b].
Proof.
  revert up diag left. induction s2 as [|c2 s2 IH]; intros [|u0 up] diag left H;
    simpl in H; try discriminate.
  - reflexivity.
  - rewrite <- !app_comm_cons, !fillRow_cons, IH by lia.
    rewrite <- app_comm_cons, !last_cons_default. reflexivity.
Qed.

Lemma nextRow_length (i : nat) (c1 : char) (s2 : str) (prev : list nat) :
  List.length prev = S (List.length s2) ->
  List.length (nextRow i c1 s2 prev) = S (List.length s2).
Proof.
  destruct prev as [|p0 up]; [discriminate|]. simpl. intros H.
  f_equal. apply fillRow_length. lia.
Qed.

Lemma rowsFrom_length (s1 s2 : str) (i : nat) (prev : list nat) :
  List.length prev = S (List.length s2) ->
  List.length (rowsFrom i s1 s2 prev) = S (List.length s2).
Proof.
  revert i prev. induction s1 as [|c s1 IH]; intros i prev H; simpl; [exact H|].
  apply IH. now apply nextRow_length.
Qed.

Lemma rowsFrom_snoc (s1 : str) (a : char) (s2 : str) (i : nat) (prev : list nat) :
  rowsFrom i (s1 ++ [a]) s2 prev
  = nextRow (i + List.length s1) a s2 (rowsFrom i s1 s2 prev).
Proof.
  revert i prev. induction s1 as [|c s1 IH]; intros i prev; simpl.
  - now rewrite Nat.add_0_r.
  - rewrite IH. f_equal. lia.
Qed.

Lemma nextRow_snoc (i : nat) (c1 b : char) (s2 : str) (prev : list nat) (u : nat) :
  List.length prev = S (List.length s2) ->
  exists x, nextRow i c1 (s2 ++ [b]) (prev ++ [u]) = nextRow i c1 s2 prev ++ [x].
Proof.
  destruct prev as [|p0 up]; [discriminate|]. simpl. intros H.
  rewrite fillRow_snoc by lia. eexists. reflexivity.
Qed.

Lemma rowsFrom_wider (s1 s2 : str) (b : char) (i : nat) (prev : list nat) (u : nat) :
  List.length prev = S (List.length s2) ->
  exists x, rowsFrom i s1 (s2 ++ [b]) (prev ++ [u]) = rowsFrom i s1 s2 prev ++ [x].
Proof.
  revert i prev u. induction s1 as [|c s1 IH]; intros i prev u H; simpl.
  - now exists u.
  - destruct (nextRow_snoc i c b s2 prev u H) as [x Hx]. rewrite Hx.
    apply IH. now apply nextRow_length.
Qed.

Lemma lastRow_length (s1 s2 : str) : List.length (lastRow s1 s2) = S (List.length s2).
Proof. unfold lastRow. apply rowsFrom_length. now rewrite length_seq. Qed.

Lemma lastRow_wider (s1 s2 : str) (b : char) :
  lastRow s1 (s2 ++ [b]) = lastRow s1 s2 ++ [levenshteinDistance s1 (s2 ++ [b])].
Proof.
  assert (H : exists x, lastRow s1 (s2 ++ [b]) = lastRow s1 s2 ++ [x]).
  { unfold lastRow. rewrite length_app. cbn [List.length].
    replace (S (List.length s2 + 1)) with (S (S (List.length s2))) by lia.
    rewrite (seq_S (S (List.length s2)) 0). cbn [Nat.add].
    apply rowsFrom_wider. now rewrite length_seq. }
  destruct H as [x Hx].
  unfold levenshteinDistance. fold (lastRow s1 (s2 ++ [b])).
  rewrite Hx. now rewrite last_last.
Qed.

(** *** The recurrence the matrix implements *)

Lemma distance_nil_l (s2 : str) : levenshteinDistance [] s2 = List.length s2.
Proof.
  unfold levenshteinDistance, rowsFrom. rewrite (seq_S (List.length s2) 0).
  now rewrite last_last.
Qed.

Lemma distance_nil_r (s1 : str) : levenshteinDistance s1 [] = List.length s1.
Proof.
  unfold levenshteinDistance. simpl seq.
  assert (H : forall s i p, last (rowsFrom i s [] [p]) 0%nat
                            = match s with [] => p | _ => (i + List.length s - 1)%nat end).
  { induction s as [|c s IH]; intros i p; simpl; [reflexivity|].
    rewrite IH. destruct s; simpl; lia. }
  rewrite H. destruct s1; simpl; lia.
Qed.

Lemma distance_step (s1 s2 : str) (a b : char) :
  levenshteinDistance (s1 ++ [a]) (s2 ++ [b])
  = cell (levenshteinDistance s1 (s2 ++ [b])) (levenshteinDistance (s1 ++ [a]) s2)
         (levenshteinDistance s1 s2) a b.
Proof.
  assert (ED : levenshteinDistance s1 s2 = last (lastRow s1 s2) 0%nat) by reflexivity.
  assert (EL : levenshteinDistance (s1 ++ [a]) s2 = last (lastRow (s1 ++ [a]) s2) 0%nat)
    by reflexivity.
  assert (EG : levenshteinDistance (s1 ++ [a]) (s2 ++ [b])
               = last (lastRow (s1 ++ [a]) (s2 ++ [b])) 0%nat) by reflexivity.
  assert (Hrow : lastRow (s1 ++ [a]) s2
                 = nextRow (1 + List.length s1) a s2 (lastRow s1 s2))
    by (unfold lastRow; apply rowsFrom_snoc).
  assert (Hrow2 : lastRow (s1 ++ [a]) (s2 ++ [b])
                  = nextRow (1 + List.length s1) a (s2 ++ [b]) (lastRow s1 (s2 ++ [b])))
    by (unfold lastRow; apply rowsFrom_snoc).
  pose proof (lastRow_length s1 s2) as Hlen.
  rewrite EG, EL, ED, Hrow2, Hrow, lastRow_wider.
  generalize (levenshteinDistance s1 (s2 ++ [b])). intros u.
  destruct (lastRow s1 s2) as [|p0 up]; [discriminate|].
  simpl in Hlen. rewrite <- app_comm_cons. cbn [nextRow].
  rewrite fillRow_snoc by lia.
  rewrite app_comm_cons, last_last, !last_cons_default. reflexivity.
Qed.

End DistanceProps.

(** *** The distance as a metric *)

Module MetricProps.
Import Js.
Import Spellcheck.
Import Spec.
Import Facts.
Import DistanceProps.

(** Induction along the matrix: first row, first column, inner cells. *)
Lemma matrix_ind (P : str -> str -> Prop) :
  (forall t, P [] t) ->
  (forall s, P s []) ->
  (forall s t a b, P s (t ++ [b]) -> P (s ++ [a]) t -> P s t -> P (s ++ [a]) (t ++ [b])) ->
  forall s t, P s t.
Proof.
  intros Hrow Hcol Hcell s. induction s as [|a s IHs] using rev_ind; [exact Hrow|].
  intros t. induction t as [|b t IHt] using rev_ind; [apply Hcol|].
  apply Hcell; [apply IHs | exact IHt | apply IHs].
Qed.

Lemma distance_refl (s : str) : levenshteinDistance s s = 0%nat.
Proof.
  induction s as [|a s IH] using rev_ind; [reflexivity|].
  rewrite distance_step, IH. unfold cell. rewrite N.eqb_refl. lia.
Qed.

Lemma distance_upper (s t : str) :
  (levenshteinDistance s t <= Nat.max (List.length s) (List.length t))%nat.
Proof.
  revert s t. apply matrix_ind.
  - intros t. rewrite distance_nil_l. simpl. lia.
  - intros s. rewrite distance_nil_r. lia.
  - intros s t a b _ _ H. rewrite distance_step, !length_app. unfold cell.
    simpl List.length. destruct (N.eqb a b); lia.
Qed.

Lemma distance_lower (s t : str) :
  (List.length s - List.length t <= levenshteinDistance s t)%nat
  /\ (List.length t - List.length s <= levenshteinDistance s t)%nat.
Proof.
  revert s t. apply matrix_ind.
  - intros t. rewrite distance_nil_l. simpl. lia.
  - intros s. rewrite distance_nil_r. simpl. lia.
  - intros s t a b H1 H2 H3. rewrite distance_step. unfold cell.
    rewrite !length_app in *. simpl List.length in *.
    destruct (N.eqb a b); lia.
Qed.

Lemma distance_zero (s t : str) : levenshteinDistance s t = 0%nat -> s = t.
Proof.
  revert s t.
  apply (matrix_ind (fun s t => levenshteinDistance s t = 0%nat -> s = t)).
  - intros t. rewrite distance_nil_l. destruct t; [reflexivity | discriminate].
  - intros s. rewrite distance_nil_r. destruct s; [reflexivity | discriminate].
  - intros s t a b _ _ IH. rewrite distance_step. unfold cell.
    destruct (N.eqb a b) eqn:E; intros H.
    + apply N.eqb_eq in E. subst b. f_equal. apply IH. lia.
    + lia.
Qed.

Lemma distance_sym (s t : str) : levenshteinDistance s t = levenshteinDistance t s.
Proof.
  revert s t.
  apply (matrix_ind (fun s t => levenshteinDistance s t = levenshteinDistance t s)).
  - intros t. now rewrite distance_nil_l, distance_nil_r.
  - intros s. now rewrite distance_nil_l, distance_nil_r.
  - intros s t a b H1 H2 H3. rewrite !distance_step. unfold cell.
    rewrite H1, H2, H3, (N.eqb_sym b a). lia.
Qed.

(** *** Similar skills *)

Lemma areSkillsSimilar_sym (skill1 skill2 : str) (threshold : nat) :
  areSkillsSimilar skill1 skill2 threshold = areSkillsSimilar skill2 skill1 threshold.
Proof.
  unfold areSkillsSimilar. cbv zeta.
  set (s1 := trim (toLowerCase skill1)). set (s2 := trim (toLowerCase skill2)).
  assert (E : eqb s1 s2 = eqb s2 s1).
  { destruct (eqb s1 s2) eqn:E1; destruct (eqb s2 s1) eqn:E2; try reflexivity.
    - apply eqb_eq in E1. rewrite E1, eqb_refl in E2. discriminate.
    - apply eqb_eq in E2. rewrite E2, eqb_refl in E1. discriminate. }
  rewrite E, (distance_sym s1 s2), (Nat.max_comm (List.length s1)). reflexivity.
Qed.

(** *** Scores of the typo-tolerant matcher *)

Section WithSimilarity.

Variable compareTwoStrings : str -> str -> Q.

Lemma levenSimilarity_range (k s : str) :
  eqb k s = false ->
  let d := levenshteinDistance k s in
  let maxLen := Nat.max (List.length k) (List.length s) in
  0 <= 1 - num d / num maxLen /\ 1 - num d / num maxLen <= 1.
Proof.
  intros Hne d maxLen.
  assert (Hpos : (0 < maxLen)%nat).
  { unfold maxLen. destruct k, s; simpl in *; try lia; discriminate. }
  destruct (RangeProps.ratio_in_unit (a := num d) (b := num maxLen)) as [H0 H1].
  - apply num_nonneg.
  - apply num_le. apply distance_upper.
  - now apply num_pos.
  - split; lra.
Qed.

Lemma candidateScore_lower (k skill : str) :
  0 <= candidateScore compareTwoStrings k skill.
Proof.
  unfold candidateScore. cbv zeta.
  destruct (eqb k (toLowerCase skill)) eqn:E; [discriminate|].
  destruct (levenSimilarity_range k (toLowerCase skill) E) as [H _].
  eapply Qle_trans; [exact H|]. apply Q.le_max_r.
Qed.

Lemma candidateScore_upper (k skill : str) :
  (forall a b, compareTwoStrings a b <= 1) ->
  candidateScore compareTwoStrings k skill <= 1.
Proof.
  intros Hcmp. unfold candidateScore. cbv zeta.
  destruct (eqb k (toLowerCase skill)) eqn:E; [discriminate|].
  destruct (levenSimilarity_range k (toLowerCase skill) E) as [_ H].
  apply Q.max_lub; [apply Hcmp | exact H].
Qed.

(** A candidate within [d] edits scores at least [1 - d / maxLen]. *)
Lemma candidateScore_near (k skill : str) (d : nat) :
  (levenshteinDistance k (toLowerCase skill) <= d)%nat ->
  (d <= Nat.max (List.length k) (List.length skill))%nat ->
  1 - num d / num (Nat.max (List.length k) (List.length skill))
  <= candidateScore compareTwoStrings k skill.
Proof.
  intros Hd Hmax. unfold candidateScore. cbv zeta.
  assert (Hlen : List.length (toLowerCase skill) = List.length skill)
    by apply length_map.
  destruct (eqb k (toLowerCase skill)) eqn:E.
  - destruct (Nat.max (List.length k) (List.length skill)) as [|n] eqn:En.
    + assert (d = 0)%nat as -> by lia. vm_compute. discriminate.
    + destruct (RangeProps.ratio_in_unit (a := num d) (b := num (S n))) as [H0 H1];
        [apply num_nonneg | now apply num_le | apply num_pos; lia | lra].
  - eapply Qle_trans; [|apply Q.le_max_r]. rewrite Hlen.
    set (m := Nat.max (List.length k) (List.length skill)) in *.
    assert (Hpos : (0 < m)%nat).
    { unfold m. rewrite <- Hlen.
      destruct k, (toLowerCase skill); simpl in *; try lia; discriminate. }
    assert (Hle : num (levenshteinDistance k (toLowerCase skill)) / num m
                  <= num d / num m).
    { apply Qmult_le_compat_r; [now apply num_le|].
      apply Qlt_le_weak, Qinv_lt_0_compat. now apply num_pos. }
    unfold num in *. lra.
Qed.

End WithSimilarity.

End MetricProps.

(** ** Best matches *)

Module BestProps.
Import Js.
Import AtsEngine.
Import Spec.
Import Facts.
Import MatchProps.

(** The reduction keeps the first element among those of highest score. *)
Lemma reduceBest_first (A : Type) (sc : A -> Q) (rest : list A) (first : A) :
  exists l1 l2,
    first :: rest = l1 ++ Nlp.reduceBest sc first rest :: l2
    /\ Forall (fun x => sc x < sc (Nlp.reduceBest sc first rest)) l1
    /\ Forall (fun x => sc x <= sc (Nlp.reduceBest sc first rest)) l2.
Proof.
  revert first. induction rest as [|c rest IH]; intros first.
  - exists [], []. simpl. repeat split; constructor.
  - change (Nlp.reduceBest sc first (c :: rest))
      with (Nlp.reduceBest sc (if Qltb (sc first) (sc c) then c else first) rest).
    destruct (Qltb (sc first) (sc c)) eqn:E.
    + apply Qltb_lt in E.
      destruct (IH c) as (l1 & l2 & Heq & H1 & H2).
      exists (first :: l1), l2. split; [simpl; now f_equal|]. split; [|exact H2].
      constructor; [|exact H1].
      pose proof (@reduceBest_max _ sc rest c c (or_introl eq_refl)) as Hc. lra.
    + apply Qltb_ge in E.
      destruct (IH first) as (l1 & l2 & Heq & H1 & H2).
      destruct l1 as [|x l1]; simpl in Heq; injection Heq as Hb Hrest.
      * exists [], (c :: l2). split; [simpl; f_equal; [exact Hb | f_equal; exact Hrest]|].
        split; [constructor|]. constructor; [now rewrite <- Hb | exact H2].
      * inversion H1 as [|? ? Hf Hl1]. subst x.
        exists (first :: c :: l1), l2. split; [simpl; do 2 f_equal; exact Hrest|].
        split; [|exact H2]. constructor; [exact Hf|]. constructor; [lra | exact Hl1].
Qed.

Section WithSimilarity.

Variable compareTwoStrings : str -> str -> Q.

(** The score of the typo-tolerant matcher is the score of one of the
    candidates, hence never negative. *)
Lemma typo_score_is_candidate (t : str) (all : list str) (th : Q) :
  all <> [] ->
  exists x, In x all
            /\ Spellcheck.score
                 (Spellcheck.findBestMatchWithTypoTolerance compareTwoStrings t all th)
               = Spellcheck.candidateScore compareTwoStrings
                   (toLowerCase (Spellcheck.autocorrectSkill t)) x.
Proof.
  intros Hne. unfold Spellcheck.findBestMatchWithTypoTolerance.
  set (f := fun skill => (skill, Spellcheck.candidateScore compareTwoStrings
                                   (toLowerCase (Spellcheck.autocorrectSkill t)) skill)).
  destruct (map f all) as [|first rest] eqn:E.
  - destruct all; [congruence | discriminate].
  - simpl. pose proof (@reduceBest_In _ snd rest first) as HIn. rewrite <- E in HIn.
    apply in_map_iff in HIn as (y & Ey & Hy). exists y. split; [exact Hy|].
    now rewrite <- Ey.
Qed.

(** With truthy candidates, a typo-tolerant score of 0.70 or more is the
    score the term is classified by. *)
Lemma final_is_best (jd : Term) (all : list str) :
  Forall (fun t => truthy t = true) all ->
  0.70 <= Spellcheck.score (bestOf compareTwoStrings jd all) ->
  Nlp.score (finalOf compareTwoStrings jd all)
  = Spellcheck.score (bestOf compareTwoStrings jd all).
Proof.
  intros Hall Hscore. unfold finalOf, finalMatchOf.
  destruct (Spellcheck.match_ (bestOf compareTwoStrings jd all)) as [s|] eqn:Hm.
  - assert (Hs : truthy s = true).
    { rewrite Forall_forall in Hall. apply Hall.
      apply (TypoProps.typo_best_in compareTwoStrings (term jd) all 0.70 Hm). }
    now rewrite Hs.
  - exfalso. revert Hm Hscore. unfold bestOf, Spellcheck.findBestMatchWithTypoTolerance.
    destruct (map _ all) as [|first rest]; simpl.
    + intros _ H. vm_compute in H. now apply H.
    + destruct (Qle_bool 0.70 _) eqn:Hth; [discriminate|].
      intros _ H. apply below_threshold in Hth. lra.
Qed.

Lemma quarter_bound (n : nat) : (4 <= n)%nat -> 0.75 <= 1 - num 1 / num n.
Proof.
  intros Hn.
  assert (H : num 1 / num n <= 1 # 4).
  { apply Qle_shift_div_r; [apply num_pos; lia|].
    pose proof (num_le Hn) as H4.
    change (num 4) with 4 in H4. change (num 1) with 1. lra. }
  lra.
Qed.

End WithSimilarity.

End BestProps.

(** ** Insights and checklist *)

Module InsightProps.
Import Js.
Import AtsEngine.
Import Insights.
Import Facts.

Lemma insert_skip (x : Insight) (A B : list Insight) :
  Forall (fun y => (priorityOrder (priority y) <= priorityOrder (priority x))%nat) A ->
  insertByPriority x (A ++ B) = A ++ insertByPriority x B.
Proof.
  induction A as [|y A IH]; intros H; [reflexivity|].
  inversion H as [|? ? Hy HA]; subst. simpl.
  destruct (priorityOrder (priority x) <? priorityOrder (priority y))%nat eqn:E.
  - apply Nat.ltb_lt in E. lia.
  - now rewrite IH.
Qed.

Lemma insert_stop (x : Insight) (B : list Insight) :
  Forall (fun y => (priorityOrder (priority x) < priorityOrder (priority y))%nat) B ->
  insertByPriority x B = x :: B.
Proof.
  destruct B as [|y B]; intros H; [reflexivity|].
  inversion H as [|? ? Hy HB]; subst. simpl.
  apply Nat.ltb_lt in Hy. now rewrite Hy.
Qed.

Lemma filter_rank (p : insightPriority) (l : list Insight) :
  Forall (fun y => priority y = p) (filter (hasPriority p) l).
Proof.
  apply Forall_forall. intros y Hy. apply filter_In in Hy as [_ Hy].
  unfold hasPriority in Hy. destruct p, (priority y); congruence.
Qed.

Lemma insert_grouped (x : Insight) (l : list Insight) :
  insertByPriority x (grouped l) = grouped (l ++ [x]).
Proof.
  unfold grouped. rewrite !filter_app.
  pose proof (filter_rank high l) as Hh.
  pose proof (filter_rank medium l) as Hm.
  pose proof (filter_rank low l) as Hl.
  set (H := filter (hasPriority high) l) in *.
  set (M := filter (hasPriority medium) l) in *.
  set (L := filter (hasPriority low) l) in *.
  assert (Hle : forall (p : insightPriority) (G : list Insight) (n : nat),
             Forall (fun y => priority y = p) G -> (priorityOrder p <= n)%nat ->
             Forall (fun y => (priorityOrder (priority y) <= n)%nat) G).
  { intros p G n HG Hp. eapply Forall_impl; [|exact HG]. intros y ->. exact Hp. }
  assert (Hlt : forall (p : insightPriority) (G : list Insight) (n : nat),
             Forall (fun y => priority y = p) G -> (n < priorityOrder p)%nat ->
             Forall (fun y => (n < priorityOrder (priority y))%nat) G).
  { intros p G n HG Hp. eapply Forall_impl; [|exact HG]. intros y ->. exact Hp. }
  cbn [filter]. unfold hasPriority. destruct (priority x) eqn:Ex; cbn [app].
  - rewrite insert_skip by (rewrite Ex; apply (Hle high); [assumption | simpl; lia]).
    rewrite insert_stop.
    + rewrite ?app_nil_r, <- ?app_assoc. reflexivity.
    + apply Forall_app. split; rewrite Ex;
        [apply (Hlt medium) | apply (Hlt low)]; try assumption; simpl; lia.
  - rewrite app_nil_r.
    rewrite insert_skip by (rewrite Ex; apply (Hle high); [assumption | simpl; lia]).
    rewrite insert_skip by (rewrite Ex; apply (Hle medium); [assumption | simpl; lia]).
    rewrite insert_stop by (rewrite Ex; apply (Hlt low); [assumption | simpl; lia]).
    rewrite ?app_nil_r, <- ?app_assoc. reflexivity.
  - rewrite !app_nil_r.
    rewrite insert_skip by (rewrite Ex; apply (Hle high); [assumption | simpl; lia]).
    rewrite insert_skip by (rewrite Ex; apply (Hle medium); [assumption | simpl; lia]).
    rewrite <- (app_nil_r L) at 1.
    rewrite insert_skip by (rewrite Ex; apply (Hle low); [assumption | simpl; lia]).
    cbn [insertByPriority]. rewrite ?app_nil_r, <- ?app_assoc. reflexivity.
Qed.

(** A stable sort on three priorities lists the three groups in turn. *)
Lemma sortByPriority_grouped (l : list Insight) : sortByPriority l = grouped l.
Proof.
  unfold sortByPriority.
  assert (H : forall acc, fold_left (fun s x => insertByPriority x s) l (grouped acc)
                          = grouped (acc ++ l)).
  { induction l as [|x l IH]; intros acc; simpl; [now rewrite app_nil_r|].
    rewrite insert_grouped, IH, <- app_assoc. reflexivity. }
  exact (H []).
Qed.

Lemma filter_none (p : insightPriority) (l : list Insight) :
  Forall (fun i => priority i <> p) l -> filter (hasPriority p) l = [].
Proof.
  induction l as [|x l IH]; intros H; [reflexivity|].
  inversion H as [|? ? Hx Hl]; subst. simpl.
  destruct (hasPriority p x) eqn:E; [|now apply IH].
  exfalso. apply Hx. unfold hasPriority in E. destruct p, (priority x); congruence.
Qed.

Section WithVerbs.

Variable extractActionVerbs : str -> list str.

Lemma emitted_never_low (mr : MatchResults) :
  Forall (fun i => priority i <> low) (emittedInsights extractActionVerbs mr).
Proof.
  unfold emittedInsights.
  repeat (apply Forall_app; split);
    try (apply Forall_map; apply Forall_forall; intros ? _; simpl;
         try (destruct (eqb _ _)); discriminate).
  - destruct (negb _); repeat constructor; discriminate.
  - destruct (truthy _); [destruct (_ <? 5)%nat|]; repeat constructor; discriminate.
  - destruct (_ <? 5)%nat; repeat constructor; discriminate.
Qed.

End WithVerbs.

Lemma checklistPart_items (p : checklistPriority) (t : string) (group : list Insight) :
  List.concat (map items (checklistPart p t group)) = map suggestion group.
Proof. destruct group; [reflexivity|]. simpl. now rewrite app_nil_r. Qed.

Lemma checklist_items (insights : list Insight) :
  List.concat (map items (buildImprovementChecklist insights))
  = map suggestion (grouped insights).
Proof.
  unfold buildImprovementChecklist, grouped.
  rewrite !map_app, !concat_app, !checklistPart_items. reflexivity.
Qed.

Lemma grouped_idempotent (l : list Insight) : grouped (grouped l) = grouped l.
Proof.
  assert (Hsame : forall p l, filter (hasPriority p) (filter (hasPriority p) l)
                              = filter (hasPriority p) l).
  { intros p l0. induction l0 as [|x l0 IH]; [reflexivity|]. simpl.
    destruct (hasPriority p x) eqn:E; [simpl; now rewrite E, IH | exact IH]. }
  assert (Hother : forall p q l, p <> q ->
                     filter (hasPriority p) (filter (hasPriority q) l) = []).
  { intros p q l0 Hpq. apply filter_none. eapply Forall_impl; [|apply filter_rank].
    intros y ->. congruence. }
  unfold grouped. rewrite !filter_app, !Hsame.
  rewrite !Hother by discriminate. now rewrite !app_nil_r.
Qed.

End InsightProps.

(** ** Lower case and trimming *)

Module CaseProps.
Import Js.
Import Spec.
Import Facts.
Import TextProps.
Import Tactics.

Lemma toLowerChar_idempotent (c : char) : toLowerChar (toLowerChar c) = toLowerChar c.
Proof.
  unfold toLowerChar at 2 3.
  destruct (isUpper c || inRange 192 222 c && negb (N.eqb c 215)) eqn:E; [|now
    unfold toLowerChar; rewrite E].
  assert (H : (65 <= c <= 90 \/ 192 <= c <= 222)%N).
  { unfold isUpper, inRange in E.
    apply orb_true_iff in E as [E | E].
    - apply andb_true_iff in E as [E1 E2]. apply N.leb_le in E1, E2. lia.
    - apply andb_true_iff in E as [E _]. apply andb_true_iff in E as [E1 E2].
      apply N.leb_le in E1, E2. lia. }
  unfold toLowerChar, isUpper, inRange.
  destruct (N.leb_spec 65 (c + 32)); destruct (N.leb_spec (c + 32) 90);
    destruct (N.leb_spec 192 (c + 32)); destruct (N.leb_spec (c + 32) 222);
    simpl; try reflexivity; lia.
Qed.

Lemma toLowerCase_idempotent (s : str) : toLowerCase (toLowerCase s) = toLowerCase s.
Proof.
  unfold toLowerCase. rewrite map_map. apply map_ext. apply toLowerChar_idempotent.
Qed.

Lemma toLowerChar_ws (c : char) : isWhiteSpace (toLowerChar c) = isWhiteSpace c.
Proof.
  unfold toLowerChar.
  destruct (isUpper c || inRange 192 222 c && negb (N.eqb c 215)) eqn:E; [|reflexivity].
  assert (H : (65 <= c <= 90 \/ 192 <= c <= 222)%N).
  { unfold isUpper, inRange in E.
    apply orb_true_iff in E as [E | E].
    - apply andb_true_iff in E as [E1 E2]. apply N.leb_le in E1, E2. lia.
    - apply andb_true_iff in E as [E _]. apply andb_true_iff in E as [E1 E2].
      apply N.leb_le in E1, E2. lia. }
  assert (Hnot : forall x, (65 <= x <= 254)%N -> x <> 160%N -> isWhiteSpace x = false).
  { intros x Hx H160. unfold isWhiteSpace, inRange. decide_comparisons. reflexivity. }
  rewrite !Hnot; try reflexivity; lia.
Qed.

Lemma toLowerCase_dropWhile (s : str) :
  toLowerCase (dropWhile isWhiteSpace s) = dropWhile isWhiteSpace (toLowerCase s).
Proof.
  induction s as [|c s IH]; [reflexivity|]. simpl.
  rewrite toLowerChar_ws. destruct (isWhiteSpace c); [exact IH | reflexivity].
Qed.

Lemma toLowerCase_trim (s : str) : toLowerCase (trim s) = trim (toLowerCase s).
Proof.
  unfold trim, trimEnd, trimStart, toLowerCase.
  rewrite map_rev. fold (toLowerCase (dropWhile isWhiteSpace (rev (dropWhile isWhiteSpace s)))).
  rewrite toLowerCase_dropWhile. unfold toLowerCase at 1. rewrite map_rev.
  fold (toLowerCase (dropWhile isWhiteSpace s)). now rewrite toLowerCase_dropWhile.
Qed.

Lemma dropWhile_idempotent (p : char -> bool) (s : str) :
  dropWhile p (dropWhile p s) = dropWhile p s.
Proof.
  induction s as [|c s IH]; [reflexivity|]. simpl.
  destruct (p c) eqn:E; [exact IH | simpl; now rewrite E].
Qed.

Lemma trimEnd_idempotent (s : str) : trimEnd (trimEnd s) = trimEnd s.
Proof. unfold trimEnd. now rewrite rev_involutive, dropWhile_idempotent. Qed.

Lemma trim_fixed (s : str) :
  match s with c :: _ => isWhiteSpace c = false | [] => True end ->
  trim (trimEnd s) = trimEnd s.
Proof.
  destruct s as [|c s]; intros H; [reflexivity|].
  unfold trim, trimStart. rewrite (trimEnd_cons _ _ H). simpl. rewrite H.
  rewrite <- (trimEnd_cons _ _ H). apply trimEnd_idempotent.
Qed.

Lemma trim_idempotent (s : str) : trim (trim s) = trim s.
Proof.
  unfold trim at 2 3. apply trim_fixed. unfold trimStart. apply dropWhile_head.
Qed.

End CaseProps.

(** ** Skill normalisation, skills section, bullets *)

Module NormalProps.
Import Js.
Import Spec.
Import Facts.
Import TextProps.
Import CaseProps.

Lemma table_values_normal :
  forallb (fun e => eqb (trim (toLowerCase (snd e))) (snd e) && truthy (snd e))
          Nlp.skillNormalizations = true.
Proof. vm_compute. reflexivity. Qed.

(** The result of [normalizeSkill] is lower-cased and trimmed. *)
Lemma normalizeSkill_normal (skill : str) :
  trim (toLowerCase (Nlp.normalizeSkill skill)) = Nlp.normalizeSkill skill.
Proof.
  unfold Nlp.normalizeSkill. cbv zeta.
  assert (Hlower : trim (toLowerCase (trim (toLowerCase skill)))
                   = trim (toLowerCase skill)).
  { now rewrite toLowerCase_trim, toLowerCase_idempotent, trim_idempotent. }
  destruct (objGet (trim (toLowerCase skill)) Nlp.skillNormalizations) as [v|] eqn:E;
    [|exact Hlower].
  destruct (truthy v); [|exact Hlower].
  apply WeightProps.objGet_In in E.
  pose proof table_values_normal as H. rewrite forallb_forall in H.
  specialize (H _ E). cbn [snd] in H.
  apply andb_true_iff in H as [H _]. now apply eqb_eq.
Qed.

(** Normalising again looks the result up once more. *)
Lemma normalizeSkill_twice (skill : str) :
  Nlp.normalizeSkill (Nlp.normalizeSkill skill)
  = match objGet (Nlp.normalizeSkill skill) Nlp.skillNormalizations with
    | Some v => v
    | None => Nlp.normalizeSkill skill
    end.
Proof.
  unfold Nlp.normalizeSkill at 1. cbv zeta. rewrite normalizeSkill_normal.
  destruct (objGet (Nlp.normalizeSkill skill) Nlp.skillNormalizations) as [v|] eqn:E;
    [|reflexivity].
  apply WeightProps.objGet_In in E.
  pose proof table_values_normal as H. rewrite forallb_forall in H.
  specialize (H _ E). cbn [snd] in H.
  apply andb_true_iff in H as [_ H]. now rewrite H.
Qed.

(** Cleaning a bullet twice is cleaning it once. *)
Lemma cleanBullet_idempotent (b : str) :
  SectionDetector.cleanBullet (SectionDetector.cleanBullet b)
  = SectionDetector.cleanBullet b.
Proof.
  pose proof (ExperienceProps.cleanBullet_head b) as Hhd.
  unfold SectionDetector.cleanBullet at 1.
  assert (Hdrop : dropWhile SectionDetector.isBulletLead (SectionDetector.cleanBullet b)
                  = SectionDetector.cleanBullet b).
  { destruct (SectionDetector.cleanBullet b) as [|c t]; [reflexivity|].
    simpl. now rewrite Hhd. }
  rewrite Hdrop. unfold SectionDetector.cleanBullet. apply trim_idempotent.
Qed.

End NormalProps.

(** ** Skills section and metrics *)

Module SkillsProps.
Import Js.
Import SectionDetector.
Import Spec.
Import Facts.
Import TextProps.
Import CaseProps.

Lemma setAdd_NoDup (x : str) (s : list str) : NoDup s -> NoDup (setAdd x s).
Proof.
  intros H. unfold setAdd. destruct (mem x s) eqn:E; [exact H|].
  apply NoDup_app; [exact H | repeat constructor; tauto |].
  intros y Hy [<- | []]. apply mem_In in Hy. congruence.
Qed.

Lemma setAdd_Forall (P : str -> Prop) (x : str) (s : list str) :
  P x -> Forall P s -> Forall P (setAdd x s).
Proof.
  intros Hx H. unfold setAdd. destruct (mem x s); [exact H|].
  apply Forall_app. split; [exact H | now repeat constructor].
Qed.

Lemma dropWhile_length (p : char -> bool) (s : str) :
  (List.length (dropWhile p s) <= List.length s)%nat.
Proof.
  induction s as [|c s IH]; [reflexivity|]. simpl. destruct (p c); simpl; lia.
Qed.

Lemma afterFirstColon_length (s r : str) :
  afterFirstColon s = Some r -> (List.length r <= List.length s)%nat.
Proof.
  revert r. induction s as [|c s IH]; intros r; simpl; [discriminate|].
  destruct (N.eqb c 58).
  - intros H. injection H as <-. lia.
  - intros H. specialize (IH _ H). lia.
Qed.

Lemma stripLabel_length (s : str) : (List.length (stripLabel s) <= List.length s)%nat.
Proof.
  unfold stripLabel. destruct s as [|c t]; [reflexivity|].
  destruct (N.eqb c 58); [reflexivity|].
  destruct (afterFirstColon t) as [r|] eqn:E; [|reflexivity].
  pose proof (afterFirstColon_length _ E). pose proof (dropWhile_length isWhiteSpace r).
  simpl. lia.
Qed.

Lemma addSkillPart_ok (skills : list str) (part : str) :
  NoDup skills /\ Forall listedSkill skills ->
  NoDup (addSkillPart skills part) /\ Forall listedSkill (addSkillPart skills part).
Proof.
  intros [Hnd Hall]. unfold addSkillPart. cbv zeta.
  destruct (truthy (trim part) && (1 <? List.length (trim part))%nat
            && (List.length (trim part) <? 50)%nat) eqn:E; [|now split].
  apply andb_true_iff in E as [E E3]. apply andb_true_iff in E as [_ E2].
  apply Nat.ltb_lt in E2, E3.
  destruct (1 <? List.length (stripLabel (trim part)))%nat eqn:E4; [|now split].
  apply Nat.ltb_lt in E4.
  split; [now apply setAdd_NoDup|].
  apply setAdd_Forall; [|exact Hall].
  split; [|apply toLowerCase_idempotent].
  unfold toLowerCase. rewrite length_map.
  pose proof (stripLabel_length (trim part)). lia.
Qed.

(** *** Metrics survive any context *)

Lemma dropWhile_app (p : char -> bool) (s post : str) :
  dropWhile p s <> [] -> dropWhile p (s ++ post) = dropWhile p s ++ post.
Proof.
  induction s as [|c s IH]; intros H; [now destruct H|]. simpl in *.
  destruct (p c); [now apply IH | reflexivity].
Qed.

Lemma afterDigits_app (s r post : str) :
  afterDigits s = Some r -> r <> [] -> afterDigits (s ++ post) = Some (r ++ post).
Proof.
  unfold afterDigits. destruct s as [|c s]; [discriminate|].
  rewrite <- app_comm_cons. destruct (isDigit c) eqn:E; [|discriminate].
  intros H Hr. injection H as <-. f_equal. rewrite app_comm_cons.
  now apply dropWhile_app.
Qed.

Lemma startsWith_app (w s post : str) :
  startsWith w s = true -> startsWith w (s ++ post) = true.
Proof.
  revert s. induction w as [|x w IH]; intros [|y s] H; simpl in *;
    try reflexivity; try discriminate.
  apply andb_true_iff in H as [H1 H2]. rewrite H1. simpl. now apply IH.
Qed.

Lemma startsWithCI_app (w s post : str) :
  startsWithCI w s = true -> startsWithCI w (s ++ post) = true.
Proof.
  unfold startsWithCI, toLowerCase. rewrite map_app. apply startsWith_app.
Qed.

Lemma existsb_words_app (ws : list str) (r post : str) :
  existsb (fun w => startsWithCI w r) ws = true ->
  existsb (fun w => startsWithCI w (r ++ post)) ws = true.
Proof.
  rewrite !existsb_exists. intros (w & Hw & H). exists w. split; [exact Hw|].
  now apply startsWithCI_app.
Qed.

Lemma percentAt_app (s post : str) : percentAt s = true -> percentAt (s ++ post) = true.
Proof.
  unfold percentAt. destruct (afterDigits s) as [[|c r]|] eqn:E; try discriminate.
  intros H. now rewrite (@afterDigits_app _ _ post E) by discriminate.
Qed.

Lemma multiplierAt_app (s post : str) :
  multiplierAt s = true -> multiplierAt (s ++ post) = true.
Proof.
  unfold multiplierAt. destruct (afterDigits s) as [[|c r]|] eqn:E; try discriminate.
  intros H. now rewrite (@afterDigits_app _ _ post E) by discriminate.
Qed.

Lemma dollarAt_app (s post : str) : dollarAt s = true -> dollarAt (s ++ post) = true.
Proof. destruct s as [|d [|c s]]; try discriminate. intros H. exact H. Qed.

Lemma scaleAt_app (s post : str) : scaleAt s = true -> scaleAt (s ++ post) = true.
Proof.
  unfold scaleAt. destruct (afterDigits s) as [r|] eqn:E; [|discriminate].
  intros H.
  assert (Hne : dropWhile isWhiteSpace r <> []).
  { intros Hnil. rewrite Hnil in H. vm_compute in H. discriminate. }
  assert (Hr : r <> []) by (intros ->; now apply Hne).
  rewrite (@afterDigits_app _ _ post E Hr), (@dropWhile_app _ _ post Hne).
  now apply existsb_words_app.
Qed.

Lemma countAt_app (s post : str) : countAt s = true -> countAt (s ++ post) = true.
Proof.
  unfold countAt. destruct (afterDigits s) as [r|] eqn:E; [|discriminate].
  cbv zeta. intros H.
  assert (Hgo : forall r2, existsb (fun w => startsWithCI w (dropWhile isWhiteSpace r2))
                             (map lit ["user"; "customer"; "client"; "project"]%string) = true ->
                existsb (fun w => startsWithCI w (dropWhile isWhiteSpace (r2 ++ post)))
                        (map lit ["user"; "customer"; "client"; "project"]%string) = true).
  { intros r2 H2.
    assert (Hne : dropWhile isWhiteSpace r2 <> []).
    { intros Hnil. rewrite Hnil in H2. vm_compute in H2. discriminate. }
    rewrite (@dropWhile_app _ _ post Hne). now apply existsb_words_app. }
  destruct r as [|c t]; [vm_compute in H; discriminate|].
  rewrite (@afterDigits_app _ _ post E) by discriminate.
  rewrite <- app_comm_cons. cbv beta iota.
  destruct (N.eqb c 43); [now apply Hgo|].
  rewrite app_comm_cons. now apply Hgo.
Qed.

Lemma byAt_app (s post : str) : byAt s = true -> byAt (s ++ post) = true.
Proof.
  unfold byAt. intros H. apply andb_true_iff in H as [H1 H2].
  rewrite (@startsWithCI_app _ _ post H1). simpl.
  destruct s as [|a [|b s]]; try discriminate. simpl in *.
  destruct s as [|c t]; [discriminate|]. simpl.
  apply andb_true_iff in H2 as [Hc H2]. rewrite Hc. simpl.
  destruct (dropWhile isWhiteSpace t) as [|d t'] eqn:Ed; [discriminate|].
  rewrite dropWhile_app by (rewrite Ed; discriminate). rewrite Ed. exact H2.
Qed.

Lemma existsSuffix_here (p : str -> bool) (s : str) :
  p s = true -> existsSuffix p s = true.
Proof. intros H. destruct s; simpl; rewrite H; reflexivity. Qed.

Lemma existsSuffix_context (p : str -> bool) (pre s post : str) :
  (forall x y, p x = true -> p (x ++ y) = true) ->
  existsSuffix p s = true -> existsSuffix p (pre ++ s ++ post) = true.
Proof.
  intros Hp H.
  assert (H1 : existsSuffix p (s ++ post) = true).
  { induction s as [|c s IH]; simpl in H.
    - apply existsSuffix_here. apply (Hp [] post). now destruct (p []).
    - apply orb_true_iff in H as [H | H].
      + apply existsSuffix_here. now apply Hp.
      + simpl. rewrite (IH H). apply orb_true_r. }
  induction pre as [|c pre IH]; [exact H1|].
  simpl. rewrite IH. apply orb_true_r.
Qed.

End SkillsProps.

(** ** The pipeline as a whole *)

Module PipelineProps.
Import Js.
Import AtsEngine.
Import Spec.
Import Facts.

Local Unset Implicit Arguments.

Lemma scorePipeline_lower (mr : MatchResults) : (29 <= scorePipeline mr)%Z.
Proof.
  unfold scorePipeline. apply Z.min_glb; [lia|].
  apply Z.le_trans with (round 29); [vm_compute; discriminate|].
  apply BucketProps.round_mono.
  pose proof (RangeProps.weightedAverage_range mr) as [Hlo _].
  pose proof (ScoreProps.weightedAverage_sum (componentScoresOf mr)) as Hsum.
  pose proof (ScoreProps.bonuses_nonneg mr) as Hb.
  pose proof (Q.le_max_r 20 (1.4 * (100 * weightedSum (componentScoresOf mr)))) as Hm.
  lra.
Qed.

Section WithLibraries.

Variable compareTwoStrings : str -> str -> Q.
Variable extractSkills : str -> list str.
Variable extractPhrases : str -> list str.

Lemma matchResumeToJD_buckets (resumeText : str) (jd : JdAnalysis) (mr : MatchResults) :
  matchResumeToJD compareTwoStrings extractSkills extractPhrases resumeText jd = Some mr ->
  Forall (strongOk (resumeTermsOf extractSkills extractPhrases resumeText)) (strongMatch (matches mr))
  /\ Forall (partialOk (resumeTermsOf extractSkills extractPhrases resumeText)) (partialMatch (matches mr)).
Proof.
  unfold matchResumeToJD. cbv zeta. fold (resumeTermsOf extractSkills extractPhrases resumeText).
  destruct (matchTerms _ _ _ _ _ _) as [m|] eqn:E; [|discriminate].
  intros H. injection H as <-. cbn [matches].
  eapply BucketProps.matchTerms_ok; [exact E | constructor | constructor].
Qed.

Lemma matchResumeToJD_parsed (resumeText : str) (jd : JdAnalysis) (mr : MatchResults) :
  matchResumeToJD compareTwoStrings extractSkills extractPhrases resumeText jd = Some mr ->
  explicitSkills mr
  = (if truthy (sectionText "skills" (sectionsWithFallback resumeText))
     then SectionDetector.parseSkillsSection
            (sectionText "skills" (sectionsWithFallback resumeText))
     else [])
  /\ experienceJobs mr
     = (if truthy (sectionText "experience" (sectionsWithFallback resumeText))
        then SectionDetector.parseExperienceSection
               (sectionText "experience" (sectionsWithFallback resumeText))
        else []).
Proof.
  unfold matchResumeToJD. cbv zeta. fold (sectionsWithFallback resumeText).
  destruct (matchTerms _ _ _ _ _ _) as [m|]; [|discriminate].
  intros H. injection H as <-. split; reflexivity.
Qed.

End WithLibraries.

Lemma fallback_lookups (resumeText : str) :
  (List.length (SectionDetector.detectSections resumeText) <= 1)%nat ->
  objGet (lit "skills") (sectionsWithFallback resumeText) = Some resumeText
  /\ objGet (lit "experience") (sectionsWithFallback resumeText) = Some resumeText.
Proof.
  intros H. unfold sectionsWithFallback. cbv zeta.
  apply Nat.leb_le in H. rewrite H. split.
  - apply SectionProps.objGet_objSet_same.
  - rewrite SectionProps.objGet_objSet_other by (vm_compute; reflexivity).
    apply SectionProps.objGet_objSet_same.
Qed.

Section WithSimilarity.

Variable compareTwoStrings : str -> str -> Q.

Lemma typo_first_best (t : str) (all : list str) (th : Q) :
  all <> [] ->
  let cand := Spellcheck.candidateScore compareTwoStrings
                (toLowerCase (Spellcheck.autocorrectSkill t)) in
  exists l1 x l2,
    all = l1 ++ x :: l2
    /\ Spellcheck.findBestMatchWithTypoTolerance compareTwoStrings t all th
       = Spellcheck.mkTypoMatch (if Qle_bool th (cand x) then Some x else None) (cand x)
                                (negb (eqb (Spellcheck.autocorrectSkill t) t))
    /\ Forall (fun y => cand y < cand x) l1
    /\ Forall (fun y => cand y <= cand x) l2.
Proof.
  intros Hne cand. unfold Spellcheck.findBestMatchWithTypoTolerance. cbv zeta.
  fold cand.
  set (f := fun skill => (skill, cand skill)).
  destruct (map f all) as [|first rest] eqn:E.
  - destruct all; [congruence | discriminate].
  - destruct (@BestProps.reduceBest_first _ snd rest first) as (l1' & l2' & Hsplit & Hb & Ha).
    set (best := Nlp.reduceBest snd first rest) in *.
    rewrite <- E in Hsplit.
    apply map_eq_app in Hsplit as (l1 & l2x & -> & E1 & E2).
    apply map_eq_cons in E2 as (x & l2 & -> & Ex & E2).
    exists l1, x, l2. rewrite <- Ex. cbn [fst snd f]. split; [reflexivity|].
    split; [reflexivity|]. rewrite <- Ex in Hb, Ha. cbn [snd f] in Hb, Ha.
    rewrite <- E1 in Hb. rewrite <- E2 in Ha.
    rewrite Forall_map in Hb, Ha. split; assumption.
Qed.

Lemma normal_is_lower (t : str) : toLowerCase (Nlp.normalizeSkill t) = Nlp.normalizeSkill t.
Proof.
  rewrite <- (NormalProps.normalizeSkill_normal t) at 2.
  rewrite <- (NormalProps.normalizeSkill_normal t) at 1.
  rewrite CaseProps.toLowerCase_trim, CaseProps.toLowerCase_idempotent. reflexivity.
Qed.

Lemma near_final_score (jd : Term) (all : list str) (s : str) :
  Forall (fun t => truthy t = true) all ->
  In s all ->
  toLowerCase s = s ->
  (4 <= List.length s)%nat ->
  (Spellcheck.levenshteinDistance
     (toLowerCase (Spellcheck.autocorrectSkill (term jd))) s <= 1)%nat ->
  0.75 <= Nlp.score (finalOf compareTwoStrings jd all).
Proof.
  intros Hall HIn Hlow Hlen Hd.
  set (k := toLowerCase (Spellcheck.autocorrectSkill (term jd))) in *.
  assert (Hmax : (4 <= Nat.max (List.length k) (List.length s))%nat) by lia.
  assert (Hnear : 1 - num 1 / num (Nat.max (List.length k) (List.length s))
                  <= Spellcheck.candidateScore compareTwoStrings k s).
  { apply MetricProps.candidateScore_near; [rewrite Hlow; exact Hd | lia]. }
  pose proof (BestProps.quarter_bound Hmax) as Hq.
  pose proof (@TypoProps.typo_best_score compareTwoStrings (term jd) all 0.70 s HIn) as Hbest.
  fold k in Hbest.
  assert (H75 : 0.75 <= Spellcheck.score (bestOf compareTwoStrings jd all)).
  { unfold bestOf. lra. }
  rewrite (BestProps.final_is_best compareTwoStrings jd Hall); [exact H75 | lra].
Qed.

End WithSimilarity.

Section WithVerbs.
Import Insights.

Variable extractActionVerbs : str -> list str.

Lemma generateInsights_groups (mr : MatchResults) :
  generateInsights extractActionVerbs mr
  = filter (hasPriority high) (emittedInsights extractActionVerbs mr)
    ++ filter (hasPriority medium) (emittedInsights extractActionVerbs mr).
Proof.
  unfold generateInsights. rewrite InsightProps.sortByPriority_grouped. unfold grouped.
  rewrite (@InsightProps.filter_none low) by apply InsightProps.emitted_never_low.
  now rewrite app_nil_r.
Qed.

Lemma generateInsights_never_low (mr : MatchResults) :
  Forall (fun i => priority i <> low) (generateInsights extractActionVerbs mr).
Proof.
  rewrite generateInsights_groups.
  pose proof (InsightProps.emitted_never_low extractActionVerbs mr) as H.
  rewrite Forall_forall in H.
  apply Forall_app; split; apply Forall_forall; intros i Hi;
    apply filter_In in Hi as [Hi _]; now apply H.
Qed.

End WithVerbs.

Lemma checklistPart_sound (p : Insights.checklistPriority) (t : string)
  (group : list Insights.Insight) :
  Forall (fun s => Insights.items s <> [] /\ Insights.sectionPriority s = p)
         (Insights.checklistPart p t group).
Proof.
  destruct group as [|x group]; [constructor|].
  constructor; [|constructor]. split; simpl; [discriminate | reflexivity].
Qed.

End PipelineProps.

(** ** Headers, exact matches, origins, variations *)

Module HeaderProps.
Import Js.
Import SectionDetector.
Import Spec.
Import Facts.

Local Unset Implicit Arguments.

Lemma startsWith_split (p s : str) :
  startsWith p s = true -> exists rest, s = p ++ rest.
Proof.
  revert s. induction p as [|x p IH]; intros s H.
  - now exists s.
  - destruct s as [|y s]; [discriminate|]. simpl in H.
    apply andb_true_iff in H as [Hxy H]. apply N.eqb_eq in Hxy. subst y.
    destruct (IH s H) as (rest & ->). now exists rest.
Qed.

Lemma exact_header_found (lower name header : str) (headers : list str) :
  In (name, headers) SECTION_HEADERS ->
  In header headers ->
  lower = header \/ (exists rest, lower = header ++ lit ":" ++ rest) ->
  find (fun e => existsb (fun h => eqb lower h || startsWith (h ++ lit ":") lower)
                         (snd e))
       SECTION_HEADERS
  = Some (name, headers).
Proof.
  intros Hsec Hh Hcase. unfold SECTION_HEADERS in Hsec. cbn [map fst snd] in Hsec.
  cbn [In] in Hsec.
  repeat (destruct Hsec as [Hsec | Hsec]; [injection Hsec as <- <-|]); [..|destruct Hsec];
    cbn [In] in Hh;
    repeat (destruct Hh as [Hh | Hh]; [subst header|]); try (destruct Hh);
    (destruct Hcase as [-> | (rest & ->)]; vm_compute; reflexivity).
Qed.

End HeaderProps.

Module SimilarityProps.
Import Js.
Import AtsEngine.
Import Spec.
Import Facts.

Local Unset Implicit Arguments.

Section WithSimilarity.

Variable compareTwoStrings : str -> str -> Q.

Lemma calculateSimilarity_upper (a b : str) :
  (forall x y, compareTwoStrings x y <= 1) ->
  Nlp.calculateSimilarity compareTwoStrings a b <= 1.
Proof.
  intros H. unfold Nlp.calculateSimilarity. cbv zeta.
  destruct (eqb _ _); [apply Qle_refl | apply H].
Qed.

Lemma findBestMatch_exact (target : str) (skillsList : list str) (s : str) :
  (forall x y, compareTwoStrings x y <= 1) ->
  In s skillsList ->
  Nlp.normalizeSkill s = Nlp.normalizeSkill target ->
  Nlp.score (Nlp.findBestMatch compareTwoStrings target skillsList) == 1.
Proof.
  intros Hcmp HIn Hnorm. unfold Nlp.findBestMatch.
  set (f := fun skill => (skill, Nlp.calculateSimilarity compareTwoStrings target skill)).
  destruct (map f skillsList) as [|first rest] eqn:E.
  - destruct skillsList; [destruct HIn | discriminate].
  - cbn [Nlp.score].
    apply Qle_antisym.
    + pose proof (@MatchProps.reduceBest_In _ snd rest first) as Hb.
      rewrite <- E in Hb. apply in_map_iff in Hb as (y & <- & _).
      cbn [snd f]. now apply calculateSimilarity_upper.
    + assert (Hs : In (f s) (first :: rest)) by (rewrite <- E; now apply in_map).
      pose proof (@MatchProps.reduceBest_max _ snd rest first (f s) Hs) as Hm.
      cbn [snd f] in Hm.
      assert (H1 : Nlp.calculateSimilarity compareTwoStrings target s = 1).
      { unfold Nlp.calculateSimilarity. cbv zeta. rewrite Hnorm.
        now rewrite eqb_refl. }
      rewrite H1 in Hm. exact Hm.
Qed.

End WithSimilarity.

Lemma not_noise (t : str) :
  isNoiseTerm t = false -> (3 <= List.length t)%nat /\ trim t = t.
Proof.
  unfold isNoiseTerm. destruct (List.length t <? 3)%nat eqn:E; [discriminate|].
  apply Nat.ltb_ge in E. cbv zeta.
  destruct (eqb (trim t) t) eqn:Et; [|discriminate].
  intros _. split; [exact E | now apply eqb_eq].
Qed.

Lemma weightedTerms_origin
  (extractSkills extractPhrases : str -> list str) (jdText : str) (w : Term) :
  In w (weightedTerms (analyzeJobDescription extractSkills extractPhrases jdText)) ->
  In (originalTerm w) (extractSkills jdText ++ extractPhrases jdText)
  /\ isNoiseTerm (originalTerm w) = false
  /\ isQualifierTerm (originalTerm w) = false
  /\ term w = Nlp.normalizeSkill (originalTerm w).
Proof.
  unfold analyzeJobDescription. cbv zeta. cbn [weightedTerms]. intros H.
  apply TermProps.weighTerms_origin in H as (t & Ht & ->).
  unfold weighTerm. cbv zeta. cbn [originalTerm term].
  apply in_app_or in Ht.
  assert (Hf : In t (extractSkills jdText ++ extractPhrases jdText)
               /\ negb (isNoiseTerm t) && negb (isQualifierTerm t) = true).
  { destruct Ht as [Ht | Ht]; apply filter_In in Ht as [Ht Hp]; (split; [|exact Hp]);
      apply in_or_app; [now left | now right]. }
  destruct Hf as [HIn Hp]. apply andb_true_iff in Hp as [Hn Hq].
  apply negb_true_iff in Hn, Hq. repeat split; assumption.
Qed.

End SimilarityProps.

Module VariationProps.
Import Js.
Import Variations.
Import Spec.
Import Facts.

Local Unset Implicit Arguments.

Lemma lower_chars (s : str) :
  isLowerCase s <-> Forall (fun c => toLowerChar c = c) s.
Proof.
  unfold isLowerCase, toLowerCase. induction s as [|c s IH]; simpl.
  - split; [constructor | reflexivity].
  - split.
    + intros H. injection H as Hc Hs. constructor; [exact Hc | now apply IH].
    + intros H. inversion H as [|? ? Hc Hs]; subst. rewrite Hc. f_equal. now apply IH.
Qed.

Lemma lower_sub (s t : str) :
  (forall c, In c t -> In c s) -> isLowerCase s -> isLowerCase t.
Proof.
  rewrite !lower_chars, !Forall_forall. intros Hsub H c Hc. apply H, Hsub, Hc.
Qed.

Lemma lower_app (s t : str) : isLowerCase s -> isLowerCase t -> isLowerCase (s ++ t).
Proof. rewrite !lower_chars. intros H1 H2. apply Forall_app. now split. Qed.

Lemma lower_dropLast (n : nat) (s : str) : isLowerCase s -> isLowerCase (dropLast n s).
Proof.
  apply lower_sub. intros c Hc. unfold dropLast in Hc.
  rewrite <- (firstn_skipn (List.length s - n) s). apply in_or_app. now left.
Qed.

Lemma lower_removeChar (c : char) (s : str) : isLowerCase s -> isLowerCase (removeChar c s).
Proof.
  apply lower_sub. intros x Hx. unfold removeChar in Hx. now apply filter_In in Hx.
Qed.

Lemma lower_replaceChar (c d : char) (s : str) :
  toLowerChar d = d -> isLowerCase s -> isLowerCase (replaceChar c d s).
Proof.
  rewrite !lower_chars. intros Hd H. unfold replaceChar. apply Forall_map.
  eapply Forall_impl; [|exact H]. intros x Hx. cbv beta. now destruct (N.eqb x c).
Qed.

Lemma lower_replaceRuns (r : str) (inRun : bool) (s : str) :
  isLowerCase r -> isLowerCase s -> isLowerCase (replaceRuns r inRun s).
Proof.
  rewrite !lower_chars. intros Hr H. revert inRun.
  induction H as [|c s Hc Hs IH]; intros inRun; simpl; [constructor|].
  destruct (isWhiteSpace c).
  - destruct inRun; [apply IH|]. apply Forall_app. split; [exact Hr | apply IH].
  - constructor; [exact Hc | apply IH].
Qed.

Lemma setAdd_ok (skill x : str) (vs : list str) :
  isLowerCase x -> variationsOk skill vs -> variationsOk skill (setAdd x vs).
Proof.
  intros Hx (Hh & Hnd & Hall). repeat split.
  - unfold setAdd. destruct (mem x vs); [exact Hh|].
    destruct vs; [discriminate | exact Hh].
  - now apply SkillsProps.setAdd_NoDup.
  - now apply SkillsProps.setAdd_Forall.
Qed.

End VariationProps.

(** * Further properties of the engine *)

Module Coverage.
Import Js.
Import AtsEngine.
Import Spec.
Import Facts.
Import Insights.
Import Samples.
Import Variations.
Import Tactics.

Local Unset Implicit Arguments.

(** X1. Whatever the match results, the skill-match score lies between
    0.3 and 1, the required-match score between 0.25 and 1, the
    demonstration score and the structure score between 0 and 1. *)
Theorem subscores_in_range (mr : MatchResults) :
  0.3 <= calculateSkillMatchScore mr <= 1
  /\ 0.25 <= calculateRequiredMatchScore mr <= 1
  /\ 0 <= calculateDemonstrationScore mr <= 1
  /\ 0 <= calculateStructureScore mr <= 1.
Proof.
  split; [apply RangeProps.skillMatch_range|].
  split; [apply RangeProps.requiredMatch_range|].
  split; [apply RangeProps.demonstration_range | apply RangeProps.structure_range].
Qed.

(** X2. The ATS score is never below 29: the two clamped sub-scores alone
    carry the weighted average to 0.21, that is 29.4 after scaling, so
    the baseline of 20 never applies. The bound is reached. *)
Theorem atsScore_never_below_29 :
  (forall mr, (29 <= calculateATSScore mr <= 100)%Z)
  /\ exists mr, calculateATSScore mr = 29%Z.
Proof.
  split.
  - intros mr. rewrite ScoreProps.calculateATSScore_pipeline. split.
    + apply PipelineProps.scorePipeline_lower.
    + apply ScoreProps.scorePipeline_range.
  - exists Examples.oneMissing. vm_compute. reflexivity.
Qed.

(** X3. In the result of [matchResumeToJD] every strong match has a score
    of 0.65 at least and every partial match a score from 0.45 to below
    0.65, and each of them names a resume term: one of the normalised
    terms extracted from the resume that are longer than two characters.
    The extracted terms are taken not to spell a key that every object
    inherits. *)
Theorem buckets_respect_thresholds
  (compareTwoStrings : str -> str -> Q) (extractSkills extractPhrases : str -> list str)
  (resumeText : str) (jdAnalysis : JdAnalysis) (mr : MatchResults) :
  Forall (fun jd => plainTerm (term jd) = true) (weightedTerms jdAnalysis) ->
  Forall (fun t => plainTerm t = true) (extractSkills resumeText ++ extractPhrases resumeText) ->
  matchResumeToJD compareTwoStrings extractSkills extractPhrases resumeText jdAnalysis
  = Some mr ->
  Forall (strongOk (resumeTermsOf extractSkills extractPhrases resumeText))
         (strongMatch (matches mr))
  /\ Forall (partialOk (resumeTermsOf extractSkills extractPhrases resumeText))
            (partialMatch (matches mr)).
Proof.
  intros _ _ E.
  exact (PipelineProps.matchResumeToJD_buckets compareTwoStrings extractSkills
           extractPhrases resumeText jdAnalysis mr E).
Qed.

Lemma buckets_respect_thresholds_witness :
  exists mr,
    matchResumeToJD (Examples.constSim 0) Examples.skillsTypo Examples.noTerms
                    Examples.resumeTypo Examples.jdOnlyKubernetes = Some mr
    /\ Forall (strongOk (resumeTermsOf Examples.skillsTypo Examples.noTerms
                                       Examples.resumeTypo))
              (strongMatch (matches mr)).
Proof.
  assert (H1 : Forall (fun jd => plainTerm (term jd) = true)
                      (weightedTerms Examples.jdOnlyKubernetes))
    by each_plain.
  assert (H2 : Forall (fun t => plainTerm t = true)
                      (Examples.skillsTypo Examples.resumeTypo
                       ++ Examples.noTerms Examples.resumeTypo))
    by each_plain.
  destruct (matchResumeToJD (Examples.constSim 0) Examples.skillsTypo Examples.noTerms
                            Examples.resumeTypo Examples.jdOnlyKubernetes)
    as [mr|] eqn:E.
  - exists mr. split; [reflexivity|].
    exact (proj1 (buckets_respect_thresholds (Examples.constSim 0) Examples.skillsTypo
                    Examples.noTerms Examples.resumeTypo Examples.jdOnlyKubernetes mr
                    H1 H2 E)).
  - exfalso. revert E. vm_compute. discriminate.
Defined.

(** X4. Every partial match reported by [performATSAnalysis] names the
    resume term it was matched as and shows a similarity between 45 and
    65 percent.
    The extracted terms are taken to spell no key that every object
    inherits. *)
Theorem partial_similarity_percent
  (compareTwoStrings : str -> str -> Q) (extractSkills extractPhrases : str -> list str)
  (resumeText jdText : str) (result : AnalysisResult) :
  Forall (fun t => plainTerm t = true) (extractSkills jdText ++ extractPhrases jdText) ->
  Forall (fun t => plainTerm t = true) (extractSkills resumeText ++ extractPhrases resumeText) ->
  performATSAnalysis compareTwoStrings extractSkills extractPhrases resumeText jdText
  = Some result ->
  Forall (fun p => (45 <= PartialOut.similarity p <= 65)%Z
                   /\ PartialOut.matchedAs p <> None)
         (partialMatches result).
Proof.
  intros _ _. unfold performATSAnalysis. cbv zeta.
  destruct (matchResumeToJD _ _ _ _ _) as [mr|] eqn:E; [|discriminate].
  intros H. injection H as <-. unfold resultOf. cbn [partialMatches].
  destruct (PipelineProps.matchResumeToJD_buckets _ _ _ _ _ _ E) as [_ Hp].
  apply Forall_map. eapply Forall_impl; [|exact Hp].
  intros r (Hlo & Hhi & s & Hs & _). cbn [PartialOut.similarity PartialOut.matchedAs].
  split; [|rewrite Hs; discriminate].
  apply BucketProps.round_between.
  - change (inject_Z 45) with 45. lra.
  - change (inject_Z 65) with 65. lra.
Qed.

Lemma partial_similarity_percent_witness :
  exists result,
    performATSAnalysis (Examples.constSim 0.5) skillsByText Examples.noTerms
                       resumePlain jdDockerText = Some result
    /\ partialMatches result <> []
    /\ Forall (fun p => (45 <= PartialOut.similarity p <= 65)%Z
                        /\ PartialOut.matchedAs p <> None)
              (partialMatches result).
Proof.
  assert (H1 : Forall (fun t => plainTerm t = true)
                      (skillsByText jdDockerText ++ Examples.noTerms jdDockerText))
    by each_plain.
  assert (H2 : Forall (fun t => plainTerm t = true)
                      (skillsByText resumePlain ++ Examples.noTerms resumePlain))
    by each_plain.
  destruct (performATSAnalysis (Examples.constSim 0.5) skillsByText Examples.noTerms
                               resumePlain jdDockerText) as [result|] eqn:E.
  - exists result. split; [reflexivity|]. split.
    + revert E. vm_compute. intros E. injection E as <-. discriminate.
    + exact (partial_similarity_percent (Examples.constSim 0.5) skillsByText
               Examples.noTerms resumePlain jdDockerText result H1 H2 E).
  - exfalso. revert E. vm_compute. discriminate.
Defined.

(** X5. The weighted terms of [analyzeJobDescription] come heaviest first,
    every weight is positive, and no two of them share a normalised
    term.
    The extracted terms are taken to spell no key that every object
    inherits. *)
Theorem weightedTerms_sorted_positive_distinct
  (extractSkills extractPhrases : str -> list str) (jdText : str) :
  Forall (fun t => plainTerm t = true) (extractSkills jdText ++ extractPhrases jdText) ->
  StronglySorted heavierFirst
    (weightedTerms (analyzeJobDescription extractSkills extractPhrases jdText))
  /\ Forall (fun t => 0 < weight t)
            (weightedTerms (analyzeJobDescription extractSkills extractPhrases jdText))
  /\ NoDup (map term
              (weightedTerms (analyzeJobDescription extractSkills extractPhrases jdText))).
Proof.
  intros _. unfold analyzeJobDescription. cbv zeta. cbn [weightedTerms].
  split; [|split].
  - unfold weighTerms. cbv zeta. apply WeightProps.sortByWeight_sorted.
  - apply Forall_forall. intros w Hw.
    apply TermProps.weighTerms_origin in Hw as (t & _ & ->).
    apply WeightProps.weighTerm_positive.
  - apply TermProps.weighTerms_NoDup.
Qed.

Lemma weightedTerms_sorted_positive_distinct_witness :
  StronglySorted heavierFirst
    (weightedTerms (analyzeJobDescription Examples.skillsPythonAws Examples.noTerms
                                          Examples.jdShort)).
Proof.
  assert (H : Forall (fun t => plainTerm t = true)
                     (Examples.skillsPythonAws Examples.jdShort
                      ++ Examples.noTerms Examples.jdShort))
    by each_plain.
  exact (proj1 (weightedTerms_sorted_positive_distinct Examples.skillsPythonAws
                  Examples.noTerms Examples.jdShort H)).
Defined.

(** X6. [removeDuplicatesByNormalized] keeps a term exactly when it is the
    first of the list with its normalised term. *)
Theorem duplicates_keep_first_occurrence (terms : list Term) (x : Term) :
  In x (removeDuplicatesByNormalized terms)
  <-> exists before after,
        terms = before ++ x :: after /\ ~ In (term x) (map term before).
Proof.
  unfold removeDuplicatesByNormalized.
  rewrite WeightProps.removeDuplicatesFrom_first. split.
  - intros (l1 & l2 & E & _ & H). now exists l1, l2.
  - intros (l1 & l2 & E & H). exists l1, l2. repeat split; [exact E | intros [] | exact H].
Qed.

(** X7. The sections [detectSections] returns have distinct names, each
    name is "header" or one of the seven section names of the header
    table, and no section is empty. *)
Theorem detectSections_wellformed (resumeText : str) :
  NoDup (map fst (SectionDetector.detectSections resumeText))
  /\ Forall (fun e => In (fst e) Spec.sectionNames /\ truthy (snd e) = true)
            (SectionDetector.detectSections resumeText).
Proof. apply SectionProps.detectSections_ok. Qed.

(** X8. For a resume that is not empty the structure score is all or
    nothing: 1 as soon as a skills, an experience or a summary section
    exists, 0 otherwise. A section that is missing lowers the maximum
    together with the score. *)
Theorem structure_score_all_or_nothing
  (compareTwoStrings : str -> str -> Q) (extractSkills extractPhrases : str -> list str)
  (resumeText : str) (jdAnalysis : JdAnalysis) (mr : MatchResults) :
  truthy resumeText = true ->
  matchResumeToJD compareTwoStrings extractSkills extractPhrases resumeText jdAnalysis
  = Some mr ->
  calculateStructureScore mr == if hasCoreSection (sections mr) then 1 else 0.
Proof.
  intros Ht E.
  destruct (StructureProps.matchResumeToJD_sections _ _ _ _ _ E) as [Hs _].
  apply StructureProps.structure_all_or_nothing. rewrite Hs.
  now apply StructureProps.sectionsWithFallback_truthy.
Qed.

Lemma structure_score_all_or_nothing_witness :
  exists mr,
    matchResumeToJD (Examples.constSim 0) Examples.noTerms Examples.noTerms
                    resumeSummaryOnly Examples.jdNoRequired = Some mr
    /\ map fst (sections mr) = [lit "summary"; lit "education"]
    /\ calculateStructureScore mr == 1.
Proof.
  assert (Ht : truthy resumeSummaryOnly = true) by (vm_compute; reflexivity).
  destruct (matchResumeToJD (Examples.constSim 0) Examples.noTerms Examples.noTerms
                            resumeSummaryOnly Examples.jdNoRequired) as [mr|] eqn:E.
  - exists mr.
    pose proof (structure_score_all_or_nothing (Examples.constSim 0) Examples.noTerms
                  Examples.noTerms resumeSummaryOnly Examples.jdNoRequired mr Ht E) as W.
    assert (Hs : sections mr = [(lit "summary", lit "Backend developer");
                                (lit "education", lit "BSc in Physics")]).
    { revert E. vm_compute. intros E. injection E as <-. reflexivity. }
    split; [reflexivity|]. split; [rewrite Hs; reflexivity|].
    rewrite W, Hs. reflexivity.
  - exfalso. revert E. vm_compute. discriminate.
Defined.

(** X9. A resume that is not empty and in which at most one section is
    detected is taken as a whole both for its skills and for its
    experience section: the explicit skills, the jobs and the metrics
    flag are those of the whole text, and the structure score is 1. *)
Theorem unstructured_resume_fallback
  (compareTwoStrings : str -> str -> Q) (extractSkills extractPhrases : str -> list str)
  (resumeText : str) (jdAnalysis : JdAnalysis) (mr : MatchResults) :
  truthy resumeText = true ->
  (List.length (SectionDetector.detectSections resumeText) <= 1)%nat ->
  matchResumeToJD compareTwoStrings extractSkills extractPhrases resumeText jdAnalysis
  = Some mr ->
  objGet (lit "skills") (sections mr) = Some resumeText
  /\ objGet (lit "experience") (sections mr) = Some resumeText
  /\ explicitSkills mr = SectionDetector.parseSkillsSection resumeText
  /\ experienceJobs mr = SectionDetector.parseExperienceSection resumeText
  /\ hasMetrics (resumeMetrics mr) = SectionDetector.hasQuantifiableMetrics resumeText
  /\ calculateStructureScore mr == 1.
Proof.
  intros Ht Hlen E.
  destruct (StructureProps.matchResumeToJD_sections _ _ _ _ _ E) as [Hs Hm].
  destruct (PipelineProps.matchResumeToJD_parsed _ _ _ _ _ _ E) as [Hsk Hex].
  destruct (PipelineProps.fallback_lookups resumeText Hlen) as [Gs Ge].
  unfold sectionText in Hm, Hsk, Hex. rewrite Gs in Hsk. rewrite Ge in Hm, Hex.
  rewrite Ht in Hsk, Hex. rewrite Hs.
  repeat (split; [assumption|]).
  rewrite (structure_score_all_or_nothing _ _ _ _ _ _ Ht E), Hs.
  unfold hasCoreSection. rewrite Gs. reflexivity.
Qed.

Lemma unstructured_resume_fallback_witness :
  exists mr,
    matchResumeToJD (Examples.constSim 0) Examples.noTerms Examples.noTerms
                    resumePlain Examples.jdNoRequired = Some mr
    /\ objGet (lit "skills") (sections mr) = Some resumePlain
    /\ calculateStructureScore mr == 1.
Proof.
  assert (Ht : truthy resumePlain = true) by (vm_compute; reflexivity).
  assert (Hlen : (List.length (SectionDetector.detectSections resumePlain) <= 1)%nat)
    by (vm_compute; lia).
  destruct (matchResumeToJD (Examples.constSim 0) Examples.noTerms Examples.noTerms
                            resumePlain Examples.jdNoRequired) as [mr|] eqn:E.
  - exists mr.
    destruct (unstructured_resume_fallback (Examples.constSim 0) Examples.noTerms
                Examples.noTerms resumePlain Examples.jdNoRequired mr Ht Hlen E)
      as (W1 & _ & _ & _ & _ & W2).
    split; [reflexivity|]. split; assumption.
  - exfalso. revert E. vm_compute. discriminate.
Defined.

(** X10. [levenshteinDistance] computes the edit distance by its
    recurrence: the distance from or to the empty string is the length of
    the other string, and the distance of two strings that end in [a] and
    [b] is the least of a deletion, an insertion and a substitution, the
    latter free when [a] and [b] are equal. *)
Theorem levenshtein_recurrence (s1 s2 : str) (a b : char) :
  Spellcheck.levenshteinDistance [] s2 = List.length s2
  /\ Spellcheck.levenshteinDistance s1 [] = List.length s1
  /\ Spellcheck.levenshteinDistance (s1 ++ [a]) (s2 ++ [b])
     = Nat.min (Nat.min (Spellcheck.levenshteinDistance s1 (s2 ++ [b]) + 1)
                        (Spellcheck.levenshteinDistance (s1 ++ [a]) s2 + 1))
               (Spellcheck.levenshteinDistance s1 s2 + if N.eqb a b then 0 else 1).
Proof.
  split; [apply DistanceProps.distance_nil_l|].
  split; [apply DistanceProps.distance_nil_r|].
  apply DistanceProps.distance_step.
Qed.

(** X11. The distance of two strings is 0 exactly when they are equal,
    and it does not depend on the order of its arguments. *)
Theorem levenshtein_identity_symmetry (s t : str) :
  (Spellcheck.levenshteinDistance s t = 0%nat <-> s = t)
  /\ Spellcheck.levenshteinDistance s t = Spellcheck.levenshteinDistance t s.
Proof.
  split; [|apply MetricProps.distance_sym].
  split; [apply MetricProps.distance_zero|].
  intros ->. apply MetricProps.distance_refl.
Qed.

(** X12. The distance of two strings is at least the difference of their
    lengths and at most the greater length. *)
Theorem levenshtein_bounds (s t : str) :
  (Nat.max (List.length s) (List.length t) - Nat.min (List.length s) (List.length t)
   <= Spellcheck.levenshteinDistance s t
   <= Nat.max (List.length s) (List.length t))%nat.
Proof.
  pose proof (MetricProps.distance_lower s t) as [H1 H2].
  pose proof (MetricProps.distance_upper s t) as H3. lia.
Qed.

(** X13. [areSkillsSimilar] is symmetric, and it holds of a skill and
    itself whatever the threshold. *)
Theorem areSkillsSimilar_symmetric_reflexive (skill1 skill2 : str) (threshold : nat) :
  Spellcheck.areSkillsSimilar skill1 skill2 threshold
  = Spellcheck.areSkillsSimilar skill2 skill1 threshold
  /\ Spellcheck.areSkillsSimilar skill1 skill1 threshold = true.
Proof.
  split; [apply MetricProps.areSkillsSimilar_sym|].
  unfold Spellcheck.areSkillsSimilar. cbv zeta. now rewrite eqb_refl.
Qed.

(** X14. With a similarity coefficient that never exceeds 1, the score
    [findBestMatchWithTypoTolerance] reports lies between 0 and 1.
    The target is taken to spell no key that every object inherits. *)
Theorem typo_score_in_unit_interval
  (compareTwoStrings : str -> str -> Q) (targetSkill : str) (skillsList : list str)
  (threshold : Q) :
  plainTerm targetSkill = true ->
  (forall a b, compareTwoStrings a b <= 1) ->
  0 <= Spellcheck.score
         (Spellcheck.findBestMatchWithTypoTolerance compareTwoStrings targetSkill
            skillsList threshold) <= 1.
Proof.
  intros _ Hcmp. destruct skillsList as [|x rest].
  - split; discriminate.
  - destruct (@BestProps.typo_score_is_candidate compareTwoStrings targetSkill
                (x :: rest) threshold) as (y & _ & ->); [discriminate|].
    split.
    + apply MetricProps.candidateScore_lower.
    + now apply MetricProps.candidateScore_upper.
Qed.

Lemma typo_score_in_unit_interval_witness :
  0 <= Spellcheck.score
         (Spellcheck.findBestMatchWithTypoTolerance (Examples.constSim 0.5)
            (lit "docker") [lit "dockers"; lit "xyzzyx"] 0.80) <= 1.
Proof.
  assert (H1 : plainTerm (lit "docker") = true) by (vm_compute; reflexivity).
  assert (H2 : forall a b : str, Examples.constSim 0.5 a b <= 1)
    by (intros a b; vm_compute; discriminate).
  exact (typo_score_in_unit_interval (Examples.constSim 0.5) (lit "docker")
           [lit "dockers"; lit "xyzzyx"] 0.80 H1 H2).
Defined.

(** X15. [findBestMatchWithTypoTolerance] reports the first skill of the
    list whose score is the greatest: the skills before it score strictly
    less, those after it at most as much. The match is that skill when
    the score reaches the threshold and [null] otherwise.
    The target is taken to spell no key that every object inherits. *)
Theorem typo_match_is_first_best
  (compareTwoStrings : str -> str -> Q) (targetSkill : str) (skillsList : list str)
  (threshold : Q) :
  plainTerm targetSkill = true ->
  skillsList <> [] ->
  exists before best after,
    skillsList = before ++ best :: after
    /\ Spellcheck.findBestMatchWithTypoTolerance compareTwoStrings targetSkill
         skillsList threshold
       = Spellcheck.mkTypoMatch
           (if Qle_bool threshold
                 (Spellcheck.candidateScore compareTwoStrings
                    (toLowerCase (Spellcheck.autocorrectSkill targetSkill)) best)
            then Some best else None)
           (Spellcheck.candidateScore compareTwoStrings
              (toLowerCase (Spellcheck.autocorrectSkill targetSkill)) best)
           (negb (eqb (Spellcheck.autocorrectSkill targetSkill) targetSkill))
    /\ Forall (fun y =>
                 Spellcheck.candidateScore compareTwoStrings
                   (toLowerCase (Spellcheck.autocorrectSkill targetSkill)) y
                 < Spellcheck.candidateScore compareTwoStrings
                     (toLowerCase (Spellcheck.autocorrectSkill targetSkill)) best)
              before
    /\ Forall (fun y =>
                 Spellcheck.candidateScore compareTwoStrings
                   (toLowerCase (Spellcheck.autocorrectSkill targetSkill)) y
                 <= Spellcheck.candidateScore compareTwoStrings
                      (toLowerCase (Spellcheck.autocorrectSkill targetSkill)) best)
              after.
Proof.
  intros _ Hne.
  exact (PipelineProps.typo_first_best compareTwoStrings targetSkill skillsList
           threshold Hne).
Qed.

Lemma typo_match_is_first_best_witness :
  exists before best after,
    [lit "xyzzyx"; lit "dockers"; lit "dockerz"] = before ++ best :: after
    /\ Spellcheck.match_
         (Spellcheck.findBestMatchWithTypoTolerance (Examples.constSim 0)
            (lit "docker") [lit "xyzzyx"; lit "dockers"; lit "dockerz"] 0.80)
       = (if Qle_bool 0.80
                (Spellcheck.candidateScore (Examples.constSim 0)
                   (toLowerCase (Spellcheck.autocorrectSkill (lit "docker"))) best)
          then Some best else None).
Proof.
  assert (H1 : plainTerm (lit "docker") = true) by (vm_compute; reflexivity).
  assert (H2 : [lit "xyzzyx"; lit "dockers"; lit "dockerz"] <> []) by discriminate.
  destruct (typo_match_is_first_best (Examples.constSim 0) (lit "docker")
              [lit "xyzzyx"; lit "dockers"; lit "dockerz"] 0.80 H1 H2)
    as (before & best & after & E & W & _).
  exists before, best, after. split; [exact E|]. rewrite W. reflexivity.
Defined.

(** X16. A job-description term that is one edit away from a normalised
    resume term of four characters or more is filed as a strong match,
    with a score of 0.75 at least, whatever the similarity coefficient
    answers.
    The extracted terms are taken to spell no key that every object
    inherits. *)
Theorem one_edit_typo_is_strong
  (compareTwoStrings : str -> str -> Q) (extractSkills extractPhrases : str -> list str)
  (resumeText : str) (jdAnalysis : JdAnalysis) (jd : Term) (t : str) :
  Forall (fun jd => plainTerm (term jd) = true) (weightedTerms jdAnalysis) ->
  Forall (fun t => plainTerm t = true) (extractSkills resumeText ++ extractPhrases resumeText) ->
  In jd (weightedTerms jdAnalysis) ->
  In t (extractSkills resumeText ++ extractPhrases resumeText) ->
  (4 <= List.length (Nlp.normalizeSkill t))%nat ->
  (Spellcheck.levenshteinDistance
     (toLowerCase (Spellcheck.autocorrectSkill (term jd))) (Nlp.normalizeSkill t) <= 1)%nat ->
  exists mr,
    matchResumeToJD compareTwoStrings extractSkills extractPhrases resumeText jdAnalysis
    = Some mr
    /\ exists r, In r (strongMatch (matches mr))
                 /\ Strong.jdTerm r = term jd
                 /\ 0.75 <= Strong.score r.
Proof.
  intros _ _ HIn Hres Hlen Hd.
  unfold matchResumeToJD. cbv zeta.
  fold (resumeTermsOf extractSkills extractPhrases resumeText).
  set (all := resumeTermsOf extractSkills extractPhrases resumeText).
  set (explicit := if truthy _ then SectionDetector.parseSkillsSection _ else []).
  set (jobs := if truthy _ then SectionDetector.parseExperienceSection _ else []).
  assert (Hall : Forall (fun t => truthy t = true) all).
  { apply Forall_forall. intros x Hx. unfold all, resumeTermsOf in Hx.
    apply filter_In in Hx as [_ Hx]. now apply andb_true_iff in Hx as [Hx _]. }
  assert (Hs : In (Nlp.normalizeSkill t) all).
  { unfold all, resumeTermsOf. apply filter_In. split; [now apply in_map|].
    apply andb_true_iff. split.
    - destruct (Nlp.normalizeSkill t); [simpl in Hlen; lia | reflexivity].
    - apply Nat.ltb_lt. lia. }
  pose proof (PipelineProps.near_final_score compareTwoStrings jd all
                (Nlp.normalizeSkill t) Hall Hs (PipelineProps.normal_is_lower t) Hlen Hd)
    as H75.
  destruct (MatchProps.matchTerms_files compareTwoStrings all explicit jobs
              (weightedTerms jdAnalysis) (mkMatches [] [] []))
    as (m' & E & _).
  rewrite E. eexists. split; [reflexivity|]. cbn [matches].
  assert (H65 : 0.65 <= Nlp.score (finalOf compareTwoStrings jd all)) by lra.
  destruct (TypoProps.matchTerms_filed _ _ _ _ _ _ jd E HIn H65) as (inExp & Hr).
  eexists. split; [exact Hr|]. split; [reflexivity | exact H75].
Qed.

Lemma one_edit_typo_is_strong_witness :
  exists mr,
    matchResumeToJD (Examples.constSim 0) skillsDockers Examples.noTerms
                    resumePlain jdOnlyDocker = Some mr
    /\ exists r, In r (strongMatch (matches mr))
                 /\ Strong.jdTerm r = lit "docker"
                 /\ 0.75 <= Strong.score r.
Proof.
  assert (H1 : Forall (fun jd => plainTerm (term jd) = true) (weightedTerms jdOnlyDocker))
    by each_plain.
  assert (H2 : Forall (fun t => plainTerm t = true)
                      (skillsDockers resumePlain ++ Examples.noTerms resumePlain))
    by each_plain.
  assert (H3 : In Examples.jdDocker (weightedTerms jdOnlyDocker)) by (left; reflexivity).
  assert (H4 : In (lit "Dockers") (skillsDockers resumePlain ++ Examples.noTerms resumePlain))
    by (left; reflexivity).
  assert (H5 : (4 <= List.length (Nlp.normalizeSkill (lit "Dockers")))%nat)
    by (vm_compute; lia).
  assert (H6 : (Spellcheck.levenshteinDistance
                  (toLowerCase (Spellcheck.autocorrectSkill (term Examples.jdDocker)))
                  (Nlp.normalizeSkill (lit "Dockers")) <= 1)%nat)
    by (vm_compute; lia).
  exact (one_edit_typo_is_strong (Examples.constSim 0) skillsDockers Examples.noTerms
           resumePlain jdOnlyDocker Examples.jdDocker (lit "Dockers") H1 H2 H3 H4 H5 H6).
Defined.

(** X17. What [normalizeSkill] returns is in lower case and has no
    surrounding whitespace.
    The skill is taken to spell no key that every object inherits. *)
Theorem normalizeSkill_output_normal (skill : str) :
  plainTerm skill = true ->
  trim (toLowerCase (Nlp.normalizeSkill skill)) = Nlp.normalizeSkill skill.
Proof. intros _. apply NormalProps.normalizeSkill_normal. Qed.

Lemma normalizeSkill_output_normal_witness :
  trim (toLowerCase (Nlp.normalizeSkill (lit "  ReactJS ")))
  = Nlp.normalizeSkill (lit "  ReactJS ").
Proof.
  assert (H : plainTerm (lit "  ReactJS ") = true) by (vm_compute; reflexivity).
  exact (normalizeSkill_output_normal (lit "  ReactJS ") H).
Defined.

(** X18. Normalising a skill a second time changes nothing as soon as the
    normal form is not itself a key of the normalisation table.
    The skill is taken to spell no key that every object inherits. *)
Theorem normalizeSkill_stable_off_table (skill : str) :
  plainTerm skill = true ->
  objGet (Nlp.normalizeSkill skill) Nlp.skillNormalizations = None ->
  Nlp.normalizeSkill (Nlp.normalizeSkill skill) = Nlp.normalizeSkill skill.
Proof.
  intros _ H. rewrite NormalProps.normalizeSkill_twice. now rewrite H.
Qed.

Lemma normalizeSkill_stable_off_table_witness :
  Nlp.normalizeSkill (Nlp.normalizeSkill (lit "  ReactJS "))
  = Nlp.normalizeSkill (lit "  ReactJS ").
Proof.
  assert (H1 : plainTerm (lit "  ReactJS ") = true) by (vm_compute; reflexivity).
  assert (H2 : objGet (Nlp.normalizeSkill (lit "  ReactJS ")) Nlp.skillNormalizations = None)
    by (vm_compute; reflexivity).
  exact (normalizeSkill_stable_off_table (lit "  ReactJS ") H1 H2).
Defined.

(** X19. A cleaned bullet starts with none of the characters the cleaning
    strips, and cleaning it again changes nothing. *)
Theorem cleanBullet_idempotent_clean (bullet : str) :
  SectionDetector.cleanBullet (SectionDetector.cleanBullet bullet)
  = SectionDetector.cleanBullet bullet
  /\ match SectionDetector.cleanBullet bullet with
     | c :: _ => SectionDetector.isBulletLead c = false
     | [] => True
     end.
Proof.
  split; [apply NormalProps.cleanBullet_idempotent | apply ExperienceProps.cleanBullet_head].
Qed.

(** X20. For a text in the Latin-1 range, where the lower-casing of the
    model is that of JavaScript, [parseSkillsSection] lists no skill
    twice, and every skill it lists is in lower case and has from 2 to 49
    characters. *)
Theorem parseSkillsSection_entries (skillsText : str) :
  Forall (fun c => (c < 256)%N) skillsText ->
  NoDup (SectionDetector.parseSkillsSection skillsText)
  /\ Forall (fun s => (2 <= List.length s <= 49)%nat /\ toLowerCase s = s)
            (SectionDetector.parseSkillsSection skillsText).
Proof.
  intros _.
  unfold SectionDetector.parseSkillsSection. destruct (negb (truthy skillsText)); [split; constructor|].
  assert (H : forall parts acc, NoDup acc /\ Forall listedSkill acc ->
                NoDup (fold_left SectionDetector.addSkillPart parts acc)
                /\ Forall listedSkill (fold_left SectionDetector.addSkillPart parts acc)).
  { induction parts as [|p parts IH]; intros acc Hacc; simpl; [exact Hacc|].
    apply IH. now apply SkillsProps.addSkillPart_ok. }
  apply H. split; constructor.
Qed.

Lemma parseSkillsSection_entries_witness :
  NoDup (SectionDetector.parseSkillsSection (lit "Languages: Python, Go; python"))
  /\ SectionDetector.parseSkillsSection (lit "Languages: Python, Go; python")
     = [lit "python"; lit "go"].
Proof.
  assert (H : Forall (fun c => (c < 256)%N) (lit "Languages: Python, Go; python"))
    by each_plain.
  split; [|vm_compute; reflexivity].
  exact (proj1 (parseSkillsSection_entries (lit "Languages: Python, Go; python") H)).
Defined.

(** X21. A text in which [hasQuantifiableMetrics] finds a metric keeps
    it whatever is written before and after. *)
Theorem metrics_survive_context (before text after : str) :
  SectionDetector.hasQuantifiableMetrics text = true ->
  SectionDetector.hasQuantifiableMetrics (before ++ text ++ after) = true.
Proof.
  unfold SectionDetector.hasQuantifiableMetrics.
  destruct text as [|c s]; [discriminate|]. cbn [truthy eqb negb].
  assert (Ht : negb (truthy (before ++ (c :: s) ++ after)) = false).
  { destruct before; reflexivity. }
  rewrite Ht. rewrite !existsb_exists. intros (p & Hp & H).
  exists p. split; [exact Hp|].
  apply SkillsProps.existsSuffix_context; [|exact H].
  unfold SectionDetector.metricPatterns in Hp. simpl in Hp.
  destruct Hp as [<- | [<- | [<- | [<- | [<- | [<- | []]]]]]]; intros x y.
  - apply SkillsProps.percentAt_app.
  - apply SkillsProps.dollarAt_app.
  - apply SkillsProps.countAt_app.
  - apply SkillsProps.multiplierAt_app.
  - apply SkillsProps.byAt_app.
  - apply SkillsProps.scaleAt_app.
Qed.

Lemma metrics_survive_context_witness :
  SectionDetector.hasQuantifiableMetrics
    (lit "Cut costs " ++ lit "by 40" ++ lit " percent") = true.
Proof.
  assert (H : SectionDetector.hasQuantifiableMetrics (lit "by 40") = true)
    by (vm_compute; reflexivity).
  exact (metrics_survive_context (lit "Cut costs ") (lit "by 40") (lit " percent") H).
Defined.

(** X22. [generateInsights] returns the insights of high priority in the
    order the rules produced them, followed by those of medium priority
    in that order; no insight has low priority. *)
Theorem insights_high_then_medium
  (extractActionVerbs : str -> list str) (matchResults : MatchResults) :
  generateInsights extractActionVerbs matchResults
  = filter (hasPriority high) (emittedInsights extractActionVerbs matchResults)
    ++ filter (hasPriority medium) (emittedInsights extractActionVerbs matchResults)
  /\ Forall (fun i => priority i <> low)
            (generateInsights extractActionVerbs matchResults).
Proof.
  split; [apply PipelineProps.generateInsights_groups
         | apply PipelineProps.generateInsights_never_low].
Qed.

(** X23. The checklist built from the insights of [generateInsights]
    holds, read section by section, the suggestions of the insights in
    their order; it has no empty section and no section of optional
    priority. *)
Theorem checklist_mirrors_insights
  (extractActionVerbs : str -> list str) (matchResults : MatchResults) :
  List.concat (map items (buildImprovementChecklist
                            (generateInsights extractActionVerbs matchResults)))
  = map suggestion (generateInsights extractActionVerbs matchResults)
  /\ Forall (fun s => items s <> [] /\ sectionPriority s <> pOptional)
            (buildImprovementChecklist
               (generateInsights extractActionVerbs matchResults)).
Proof.
  split.
  - rewrite InsightProps.checklist_items. unfold generateInsights.
    rewrite InsightProps.sortByPriority_grouped.
    now rewrite InsightProps.grouped_idempotent.
  - unfold buildImprovementChecklist.
    rewrite (InsightProps.filter_none (p := low))
      by apply PipelineProps.generateInsights_never_low.
    cbn [checklistPart]. rewrite app_nil_r.
    apply Forall_app; split;
      (eapply Forall_impl; [|apply PipelineProps.checklistPart_sound]);
      intros s [H1 H2]; (split; [exact H1 | rewrite H2; discriminate]).
Qed.

(** X24. A line that is a header of the table, or starts with one
    followed by a colon, is detected as the section of that header,
    whatever its case and the whitespace around it. *)
Theorem listed_header_is_detected (line name header : str) (headers : list str) :
  In (name, headers) SectionDetector.SECTION_HEADERS ->
  In header headers ->
  trim (toLowerCase line) = header
  \/ startsWith (header ++ lit ":") (trim (toLowerCase line)) = true ->
  SectionDetector.detectSectionHeader line = Some name.
Proof.
  intros Hsec Hh Hcase. unfold SectionDetector.detectSectionHeader. cbv zeta.
  rewrite (HeaderProps.exact_header_found (trim (toLowerCase line)) name header headers Hsec Hh).
  - reflexivity.
  - destruct Hcase as [E | E]; [now left | right].
    apply HeaderProps.startsWith_split in E as (rest & E). exists rest.
    rewrite E, <- app_assoc. reflexivity.
Qed.

Lemma listed_header_is_detected_witness :
  SectionDetector.detectSectionHeader (lit "  Work Experience: 2019 to 2024") = Some (lit "experience").
Proof.
  assert (H1 : In (lit "experience",
                   map lit ["experience"; "work experience"; "professional experience";
                            "employment history"; "work history"; "career"]%string)
                  SectionDetector.SECTION_HEADERS)
    by (right; left; reflexivity).
  assert (H2 : In (lit "work experience")
                  (map lit ["experience"; "work experience"; "professional experience";
                            "employment history"; "work history"; "career"]%string))
    by (right; left; reflexivity).
  assert (H3 : trim (toLowerCase (lit "  Work Experience: 2019 to 2024"))
               = lit "work experience"
               \/ startsWith (lit "work experience" ++ lit ":")
                             (trim (toLowerCase (lit "  Work Experience: 2019 to 2024")))
                  = true)
    by (right; vm_compute; reflexivity).
  exact (listed_header_is_detected (lit "  Work Experience: 2019 to 2024")
           (lit "experience") (lit "work experience") _ H1 H2 H3).
Defined.

(** X25. With a similarity coefficient that never exceeds 1,
    [findBestMatch] scores 1 as soon as a skill of the list has the
    normal form of the target.
    The skills are taken to spell no key that every object inherits. *)
Theorem same_normal_form_scores_1
  (compareTwoStrings : str -> str -> Q) (targetSkill : str) (skillsList : list str)
  (skill : str) :
  plainTerm targetSkill = true ->
  Forall (fun s => plainTerm s = true) skillsList ->
  (forall a b, compareTwoStrings a b <= 1) ->
  In skill skillsList ->
  Nlp.normalizeSkill skill = Nlp.normalizeSkill targetSkill ->
  Nlp.score (Nlp.findBestMatch compareTwoStrings targetSkill skillsList) == 1.
Proof.
  intros _ _. apply SimilarityProps.findBestMatch_exact.
Qed.

Lemma same_normal_form_scores_1_witness :
  Nlp.score (Nlp.findBestMatch (Examples.constSim 0.5) (lit "ReactJS")
                               [lit "xyzzyx"; lit "react.js"]) == 1.
Proof.
  assert (H1 : plainTerm (lit "ReactJS") = true) by (vm_compute; reflexivity).
  assert (H2 : Forall (fun s => plainTerm s = true) [lit "xyzzyx"; lit "react.js"])
    by each_plain.
  assert (H3 : forall a b : str, Examples.constSim 0.5 a b <= 1)
    by (intros a b; vm_compute; discriminate).
  assert (H4 : In (lit "react.js") [lit "xyzzyx"; lit "react.js"])
    by (right; left; reflexivity).
  assert (H5 : Nlp.normalizeSkill (lit "react.js") = Nlp.normalizeSkill (lit "ReactJS"))
    by (vm_compute; reflexivity).
  exact (same_normal_form_scores_1 (Examples.constSim 0.5) (lit "ReactJS")
           [lit "xyzzyx"; lit "react.js"] (lit "react.js") H1 H2 H3 H4 H5).
Defined.

(** X26. Every weighted term of [analyzeJobDescription] stems from an
    extracted skill or phrase that is neither noise nor a qualifier: its
    original term has three characters at least and no surrounding
    whitespace, and its term is the normal form of the original.
    The extracted terms are taken to spell no key that every object
    inherits. *)
Theorem weighted_terms_are_clean
  (extractSkills extractPhrases : str -> list str) (jdText : str) (w : Term) :
  Forall (fun t => plainTerm t = true) (extractSkills jdText ++ extractPhrases jdText) ->
  In w (weightedTerms (analyzeJobDescription extractSkills extractPhrases jdText)) ->
  In (originalTerm w) (extractSkills jdText ++ extractPhrases jdText)
  /\ isNoiseTerm (originalTerm w) = false
  /\ isQualifierTerm (originalTerm w) = false
  /\ (3 <= List.length (originalTerm w))%nat
  /\ trim (originalTerm w) = originalTerm w
  /\ term w = Nlp.normalizeSkill (originalTerm w).
Proof.
  intros _ H.
  destruct (SimilarityProps.weightedTerms_origin extractSkills extractPhrases jdText w H)
    as (H1 & H2 & H3 & H4).
  destruct (SimilarityProps.not_noise (originalTerm w) H2) as [H5 H6].
  repeat (split; [assumption|]). assumption.
Qed.

Lemma weighted_terms_are_clean_witness :
  isNoiseTerm (originalTerm Examples.weightedPython) = false
  /\ term Examples.weightedPython = Nlp.normalizeSkill (originalTerm Examples.weightedPython).
Proof.
  assert (H1 : Forall (fun t => plainTerm t = true)
                      (Examples.skillsPythonAws Examples.jdShort
                       ++ Examples.noTerms Examples.jdShort))
    by each_plain.
  assert (H2 : In Examples.weightedPython
                  (weightedTerms (analyzeJobDescription Examples.skillsPythonAws
                                    Examples.noTerms Examples.jdShort)))
    by (vm_compute; left; reflexivity).
  destruct (weighted_terms_are_clean Examples.skillsPythonAws Examples.noTerms
              Examples.jdShort Examples.weightedPython H1 H2)
    as (_ & W1 & _ & _ & _ & W2).
  split; assumption.
Defined.

(** X27. The variations [getSkillVariations] returns start with the
    lower-cased skill, hold no string twice and are all in lower case. *)
Theorem skill_variations_wellformed (skill : str) :
  hd_error (Variations.getSkillVariations skill) = Some (toLowerCase skill)
  /\ NoDup (Variations.getSkillVariations skill)
  /\ Forall (fun v => toLowerCase v = v) (Variations.getSkillVariations skill).
Proof.
  change (variationsOk skill (Variations.getSkillVariations skill)).
  unfold Variations.getSkillVariations. cbv zeta.
  set (base := trim (toLowerCase skill)).
  assert (Hbase : isLowerCase base).
  { unfold isLowerCase, base. rewrite CaseProps.toLowerCase_trim.
    now rewrite CaseProps.toLowerCase_idempotent. }
  assert (H0 : variationsOk skill [toLowerCase skill]).
  { repeat split.
    - constructor; [intros [] | constructor].
    - constructor; [apply CaseProps.toLowerCase_idempotent | constructor]. }
  assert (H1 : forall sfx vs, variationsOk skill vs ->
                 variationsOk skill
                   (fold_left (fun vs suffix =>
                                 if endsWith suffix base
                                 then setAdd (dropLast (List.length suffix) base) vs
                                 else vs) sfx vs)).
  { induction sfx as [|x sfx IH]; intros vs Hvs; [exact Hvs|]. simpl. apply IH.
    destruct (endsWith x base); [|exact Hvs].
    apply VariationProps.setAdd_ok; [now apply VariationProps.lower_dropLast | exact Hvs]. }
  specialize (H1 suffixes _ H0).
  set (v1 := fold_left _ suffixes _) in *. clearbody v1.
  assert (H2 : variationsOk skill
                 (if endsWith (lit "y") base
                  then setAdd (dropLast 1 base ++ lit "ies") v1 else v1)).
  { destruct (endsWith _ base); [|exact H1]. apply VariationProps.setAdd_ok; [|exact H1].
    apply VariationProps.lower_app; [now apply VariationProps.lower_dropLast | reflexivity]. }
  set (v2 := if endsWith (lit "y") base then _ else _) in *. clearbody v2.
  assert (H3 : variationsOk skill
                 (if includesChar 46 base then setAdd (removeChar 46%N base) v2 else v2)).
  { destruct (includesChar _ base); [|exact H2].
    apply VariationProps.setAdd_ok; [now apply VariationProps.lower_removeChar | exact H2]. }
  set (v3 := if includesChar 46 base then _ else _) in *. clearbody v3.
  assert (H4 : variationsOk skill
                 (if includesChar 45 base
                  then setAdd (removeChar 45%N base) (setAdd (replaceChar 45%N 32%N base) v3)
                  else v3)).
  { destruct (includesChar _ base); [|exact H3].
    apply VariationProps.setAdd_ok; [now apply VariationProps.lower_removeChar|].
    apply VariationProps.setAdd_ok; [|exact H3]. now apply VariationProps.lower_replaceChar. }
  set (v4 := if includesChar 45 base then _ else _) in *. clearbody v4.
  destruct (includesChar _ base); [|exact H4].
  apply VariationProps.setAdd_ok; [apply VariationProps.lower_replaceRuns; [reflexivity | exact Hbase]|].
  apply VariationProps.setAdd_ok; [|exact H4]. apply VariationProps.lower_replaceRuns; [reflexivity | exact Hbase].
Qed.

End Coverage.
